(** * liburing [src/setup.c]: ring set-up, mapping and tear-down

    A shallow embedding of [setup.c] and the properties of its depth
    negotiation, layout computation, region mapping, contiguous allocation
    and ring life cycle.

    Conventions of the embedding.
    - C integers are [Z]; every conversion and wrap-around of the LP64 data
      model ([unsigned] and [int] 32 bits, [size_t], [long] and pointers
      64 bits) is written out with [u32], [u64], [int_of] and [long_of].
    - Pointers are [Z] addresses, [NULL] is [0].
    - The system calls behind [uring_mmap], [uring_munmap], [uring_close],
      [____sys_io_uring_setup] and the reads of kernel-shared memory are
      answered by a [kernel] oracle that sees the whole history of calls;
      every call is appended to a trace of [event]s.
    - Constants of headers ([liburing/io_uring.h], [<sys/mman.h>],
      [<errno.h>], [lib.h]) are the fields of the class [Uapi]. *)

From Stdlib Require Import ZArith List Bool Lia.
Import ListNotations.
Open Scope Z_scope.

(** ** Machine integers *)

Definition u32 (x : Z) : Z := x mod 2 ^ 32.
Definition u64 (x : Z) : Z := x mod 2 ^ 64.

(** Conversion to [int]: the low 32 bits, read in two's complement. *)
Definition int_of (x : Z) : Z :=
  let m := u32 x in if m <? 2 ^ 31 then m else m - 2 ^ 32.

(** Conversion to [long] / [ssize_t]. *)
Definition long_of (x : Z) : Z :=
  let m := u64 x in if m <? 2 ^ 63 then m else m - 2 ^ 64.

(** [sizeof(unsigned)] *)
Definition sizeof_unsigned : Z := 4.

(** ** Constants taken from headers *)

Class Uapi : Type := {
  IORING_SETUP_CQSIZE : Z;
  IORING_SETUP_CLAMP : Z;
  IORING_SETUP_NO_MMAP : Z;
  IORING_FEAT_SINGLE_MMAP : Z;
  IORING_FEAT_NATIVE_WORKERS : Z;
  IORING_INT_FLAG_APP_MEM : Z;
  IORING_OFF_SQ_RING : Z;
  IORING_OFF_CQ_RING : Z;
  IORING_OFF_SQES : Z;
  PROT_READ : Z;
  PROT_WRITE : Z;
  MAP_SHARED : Z;
  MAP_POPULATE : Z;
  MAP_ANONYMOUS : Z;
  MAP_HUGETLB : Z;
  EINVAL : Z;
  ENOMEM : Z;
  sizeof_io_uring_sqe : Z;
  sizeof_io_uring_cqe : Z;
  (** the value [get_page_size()] returns *)
  get_page_size : Z;
  (** the error-pointer macros of [lib.h] *)
  IS_ERR : Z -> bool;
  PTR_ERR : Z -> Z
}.

(** The values of Linux on x86-64, used to run the model on concrete
    inputs. [IORING_INT_FLAG_APP_MEM] is private to the library. *)
Definition linux_uapi : Uapi := {|
  IORING_SETUP_CQSIZE := 8;
  IORING_SETUP_CLAMP := 16;
  IORING_SETUP_NO_MMAP := 16384;
  IORING_FEAT_SINGLE_MMAP := 1;
  IORING_FEAT_NATIVE_WORKERS := 512;
  IORING_INT_FLAG_APP_MEM := 1;
  IORING_OFF_SQ_RING := 0;
  IORING_OFF_CQ_RING := 134217728;
  IORING_OFF_SQES := 268435456;
  PROT_READ := 1;
  PROT_WRITE := 2;
  MAP_SHARED := 1;
  MAP_POPULATE := 32768;
  MAP_ANONYMOUS := 32;
  MAP_HUGETLB := 262144;
  EINVAL := 22;
  ENOMEM := 12;
  sizeof_io_uring_sqe := 64;
  sizeof_io_uring_cqe := 16;
  get_page_size := 4096;
  IS_ERR := fun ptr => 2 ^ 64 - 4095 <=? u64 ptr;
  PTR_ERR := fun ptr => int_of ptr
|}.

(** ** Data model *)

Record io_sqring_offsets := {
  sqo_head : Z; sqo_tail : Z; sqo_ring_mask : Z; sqo_ring_entries : Z;
  sqo_flags : Z; sqo_dropped : Z; sqo_array : Z; sqo_user_addr : Z
}.

Record io_cqring_offsets := {
  cqo_head : Z; cqo_tail : Z; cqo_ring_mask : Z; cqo_ring_entries : Z;
  cqo_overflow : Z; cqo_cqes : Z; cqo_flags : Z; cqo_user_addr : Z
}.

Record io_uring_params := {
  sq_entries : Z;
  cq_entries : Z;
  flags : Z;
  features : Z;
  sq_off : io_sqring_offsets;
  cq_off : io_cqring_offsets
}.

Record io_uring_sq := {
  sq_khead : Z; sq_ktail : Z; sq_kring_mask : Z; sq_kring_entries : Z;
  sq_kflags : Z; sq_kdropped : Z; sq_array : Z; sq_sqes : Z;
  sq_ring_sz : Z; sq_ring_ptr : Z
}.

Record io_uring_cq := {
  cq_khead : Z; cq_ktail : Z; cq_kring_mask : Z; cq_kring_entries : Z;
  cq_kflags : Z; cq_koverflow : Z; cq_cqes : Z;
  cq_ring_sz : Z; cq_ring_ptr : Z
}.

Record io_uring := {
  sq : io_uring_sq;
  cq : io_uring_cq;
  ring_flags : Z;
  ring_fd : Z;
  ring_features : Z;
  internal_flags : Z
}.

(** What [memset] to zero leaves behind in each structure. *)
Definition zero_sqo : io_sqring_offsets := Build_io_sqring_offsets 0 0 0 0 0 0 0 0.
Definition zero_cqo : io_cqring_offsets := Build_io_cqring_offsets 0 0 0 0 0 0 0 0.
Definition zero_params : io_uring_params :=
  Build_io_uring_params 0 0 0 0 zero_sqo zero_cqo.
Definition zero_sq : io_uring_sq := Build_io_uring_sq 0 0 0 0 0 0 0 0 0 0.
Definition zero_cq : io_uring_cq := Build_io_uring_cq 0 0 0 0 0 0 0 0 0.
Definition zero_ring : io_uring := Build_io_uring zero_sq zero_cq 0 0 0 0.

(** [x & FLAG] used as a C condition. *)
Definition has_flag (x flag : Z) : bool := negb (Z.land x flag =? 0).

(** ** Depth negotiation *)

Definition KERN_MAX_ENTRIES : Z := 32768.
Definition KERN_MAX_CQ_ENTRIES : Z := 2 * KERN_MAX_ENTRIES.

(** Leading zero bits among the low [n] bits of [x], scanning from bit
    [n - 1] downwards. *)
Fixpoint clz_from (n : nat) (x : Z) : Z :=
  match n with
  | O => 0
  | S k => if Z.testbit x (Z.of_nat k) then 0 else 1 + clz_from k x
  end.

(** [__builtin_clz] on a 32-bit [unsigned]. *)
Definition __builtin_clz (x : Z) : Z := clz_from 32 x.

(** [__fls(int x)]: the argument is an [int], handed to [__builtin_clz] as
    an [unsigned]. *)
Definition __fls (x : Z) : Z :=
  if x =? 0 then 0 else 8 * 4 - __builtin_clz (u32 x).

(** [roundup_pow2(unsigned depth)]: [1UL << __fls(depth - 1)], returned as
    [unsigned]. *)
Definition roundup_pow2 (depth : Z) : Z :=
  u32 (u64 (Z.shiftl 1 (__fls (int_of (u32 (depth - 1)))))).

(** Field updates. *)
Definition set_sq_ring_sz (s : io_uring_sq) (v : Z) : io_uring_sq :=
  Build_io_uring_sq (sq_khead s) (sq_ktail s) (sq_kring_mask s)
    (sq_kring_entries s) (sq_kflags s) (sq_kdropped s) (sq_array s)
    (sq_sqes s) v (sq_ring_ptr s).
Definition set_sq_ring_ptr (s : io_uring_sq) (v : Z) : io_uring_sq :=
  Build_io_uring_sq (sq_khead s) (sq_ktail s) (sq_kring_mask s)
    (sq_kring_entries s) (sq_kflags s) (sq_kdropped s) (sq_array s)
    (sq_sqes s) (sq_ring_sz s) v.
Definition set_sq_sqes (s : io_uring_sq) (v : Z) : io_uring_sq :=
  Build_io_uring_sq (sq_khead s) (sq_ktail s) (sq_kring_mask s)
    (sq_kring_entries s) (sq_kflags s) (sq_kdropped s) (sq_array s)
    v (sq_ring_sz s) (sq_ring_ptr s).
Definition set_cq_ring_sz (c : io_uring_cq) (v : Z) : io_uring_cq :=
  Build_io_uring_cq (cq_khead c) (cq_ktail c) (cq_kring_mask c)
    (cq_kring_entries c) (cq_kflags c) (cq_koverflow c) (cq_cqes c)
    v (cq_ring_ptr c).
Definition set_cq_ring_ptr (c : io_uring_cq) (v : Z) : io_uring_cq :=
  Build_io_uring_cq (cq_khead c) (cq_ktail c) (cq_kring_mask c)
    (cq_kring_entries c) (cq_kflags c) (cq_koverflow c) (cq_cqes c)
    (cq_ring_sz c) v.
Definition set_flags (p : io_uring_params) (v : Z) : io_uring_params :=
  Build_io_uring_params (sq_entries p) (cq_entries p) v (features p)
    (sq_off p) (cq_off p).
Definition set_user_addrs (p : io_uring_params) (sqa cqa : Z) : io_uring_params :=
  let so := sq_off p in
  let co := cq_off p in
  Build_io_uring_params (sq_entries p) (cq_entries p) (flags p) (features p)
    (Build_io_sqring_offsets (sqo_head so) (sqo_tail so) (sqo_ring_mask so)
       (sqo_ring_entries so) (sqo_flags so) (sqo_dropped so) (sqo_array so) sqa)
    (Build_io_cqring_offsets (cqo_head co) (cqo_tail co) (cqo_ring_mask co)
       (cqo_ring_entries co) (cqo_overflow co) (cqo_cqes co) (cqo_flags co) cqa).
Definition set_queues (r : io_uring) (s : io_uring_sq) (c : io_uring_cq) : io_uring :=
  Build_io_uring s c (ring_flags r) (ring_fd r) (ring_features r) (internal_flags r).
Definition set_internal_flags (r : io_uring) (v : Z) : io_uring :=
  Build_io_uring (sq r) (cq r) (ring_flags r) (ring_fd r) (ring_features r) v.

(** ** System calls *)

Inductive event : Type :=
| Mmap (addr len prot mflags fd off : Z) (res : Z)
| Munmap (addr len : Z)
| Memset (addr len : Z)
| Close (fd : Z)
| Setup (entries : Z) (p : io_uring_params) (res : Z).

(** The operating system: each answer may depend on every call made so
    far. [k_load] answers a 32-bit read of kernel-shared memory. *)
Record kernel : Type := {
  k_mmap : list event -> Z -> Z -> Z -> Z -> Z -> Z -> Z;
  k_setup : list event -> Z -> io_uring_params -> Z * io_uring_params;
  k_load : list event -> Z -> Z
}.

(** A computation reads the history of calls and yields its result with
    the calls it made itself, oldest first. *)
Definition sys (A : Type) : Type := list event -> A * list event.

Definition ret {A : Type} (a : A) : sys A := fun _ => (a, []).

Definition bind {A B : Type} (m : sys A) (f : A -> sys B) : sys B :=
  fun h =>
    let (a, e1) := m h in
    let (b, e2) := f a (h ++ e1) in
    (b, e1 ++ e2).

Declare Scope sys_scope.
Delimit Scope sys_scope with sys.
Notation "x <- m ;; k" := (bind m (fun x => k))
  (at level 61, m at next level, right associativity) : sys_scope.
Notation "' pat <- m ;; k" := (bind m (fun x => match x with pat => k end))
  (at level 61, pat pattern, m at next level, right associativity) : sys_scope.
Notation "m ;; k" := (bind m (fun _ => k))
  (at level 61, right associativity) : sys_scope.
Open Scope sys_scope.

Definition emit (e : event) : sys unit := fun _ => (tt, [e]).

Definition uring_munmap (addr len : Z) : sys unit := emit (Munmap addr len).
Definition uring_close (fd : Z) : sys unit := emit (Close fd).
Definition memset0 (addr len : Z) : sys unit := emit (Memset addr len).

(** [huge_page_size], a [static int] of the file. *)
Definition huge_page_size : Z := 2 * 1024 * 1024.

(** Equality of two regions, each an address with a length. *)
Definition region_eqb (a b : Z * Z) : bool :=
  (fst a =? fst b) && (snd a =? snd b).

Definition KRING_SIZE : Z := 320.

Section Setup.
Context {U : Uapi}.
Variable K : kernel.

Definition uring_mmap (addr len prot mflags fd off : Z) : sys Z :=
  fun h =>
    let r := k_mmap K h addr len prot mflags fd off in
    (r, [Mmap addr len prot mflags fd off r]).

Definition ____sys_io_uring_setup (entries : Z) (p : io_uring_params)
  : sys (Z * io_uring_params) :=
  fun h =>
    let r := k_setup K h entries p in
    (r, [Setup entries p (fst r)]).

(** [*ptr] on memory shared with the kernel. *)
Definition load (ptr : Z) : sys Z := fun h => (k_load K h ptr, []).

(** Mappings a trace leaves resident, starting from the regions [acc]:
    every successful [Mmap] adds its region, a [Munmap] of exactly that
    address and length removes it. *)
Fixpoint resident_from (acc : list (Z * Z)) (evs : list event) : list (Z * Z) :=
  match evs with
  | [] => acc
  | Mmap _ len _ _ _ _ r :: t =>
      resident_from (if IS_ERR r then acc else acc ++ [(r, len)]) t
  | Munmap a l :: t =>
      resident_from (filter (fun m => negb (region_eqb m (a, l))) acc) t
  | _ :: t => resident_from acc t
  end.

Definition resident (evs : list event) : list (Z * Z) := resident_from [] evs.

(** The contract of [mmap(2)] without [MAP_FIXED], checked on a trace: a
    successful call had a non-zero length and returned a non-null address
    that is not the address of a region resident at that moment. *)
Fixpoint mmap_contract_from (acc : list (Z * Z)) (evs : list event) : bool :=
  match evs with
  | [] => true
  | Mmap a len pr fl fd off r :: t =>
      (IS_ERR r
       || (negb (len =? 0) && negb (r =? 0)
           && negb (existsb (fun m => fst m =? r) acc)))
      && mmap_contract_from (resident_from acc [Mmap a len pr fl fd off r]) t
  | e :: t => mmap_contract_from (resident_from acc [e]) t
  end.

Definition mmap_contract (evs : list event) : bool := mmap_contract_from [] evs.

(** [get_sq_cq_entries(entries, p, &sq, &cq)] in state-passing form: the
    arguments [sq0] and [cq0] are what the two output cells hold before
    the call; the result is the return value with the final contents of
    the params structure and of the two cells. For each of the two
    ceilings the source tests the ceiling, returns inside that block when
    the clamp flag is missing and otherwise assigns the ceiling: here the
    return is the conjunction tested first and the assignment is the
    conditional that follows it. *)
Definition get_sq_cq_entries (entries : Z) (p : io_uring_params)
    (sq0 cq0 : Z) : Z * io_uring_params * Z * Z :=
  if entries =? 0 then (- EINVAL, p, sq0, cq0) else
  if (KERN_MAX_ENTRIES <? entries) && negb (has_flag (flags p) IORING_SETUP_CLAMP)
  then (- EINVAL, p, sq0, cq0) else
  let entries := if KERN_MAX_ENTRIES <? entries then KERN_MAX_ENTRIES else entries in
  let entries := roundup_pow2 entries in
  if has_flag (flags p) IORING_SETUP_CQSIZE then
    if cq_entries p =? 0 then (- EINVAL, p, sq0, cq0) else
    let cqe := cq_entries p in
    if (KERN_MAX_CQ_ENTRIES <? cqe) && negb (has_flag (flags p) IORING_SETUP_CLAMP)
    then (- EINVAL, p, sq0, cq0) else
    let cqe := if KERN_MAX_CQ_ENTRIES <? cqe then KERN_MAX_CQ_ENTRIES else cqe in
    let cqe := roundup_pow2 cqe in
    if cqe <? entries then (- EINVAL, p, sq0, cq0)
    else (0, p, entries, cqe)
  else
    (0, p, entries, u32 (2 * entries)).

Definition io_uring_unmap_rings (s : io_uring_sq) (c : io_uring_cq) : sys unit :=
  (if negb (sq_ring_sz s =? 0)
   then uring_munmap (sq_ring_ptr s) (sq_ring_sz s) else ret tt) ;;
  if negb (cq_ring_ptr c =? 0) && negb (cq_ring_sz c =? 0)
     && negb (cq_ring_ptr c =? sq_ring_ptr s)
  then uring_munmap (cq_ring_ptr c) (cq_ring_sz c) else ret tt.

Definition io_uring_setup_ring_pointers (p : io_uring_params)
    (s : io_uring_sq) (c : io_uring_cq) : io_uring_sq * io_uring_cq :=
  let so := sq_off p in
  let co := cq_off p in
  (Build_io_uring_sq
     (sq_ring_ptr s + sqo_head so) (sq_ring_ptr s + sqo_tail so)
     (sq_ring_ptr s + sqo_ring_mask so) (sq_ring_ptr s + sqo_ring_entries so)
     (sq_ring_ptr s + sqo_flags so) (sq_ring_ptr s + sqo_dropped so)
     (sq_ring_ptr s + sqo_array so)
     (sq_sqes s) (sq_ring_sz s) (sq_ring_ptr s),
   Build_io_uring_cq
     (cq_ring_ptr c + cqo_head co) (cq_ring_ptr c + cqo_tail co)
     (cq_ring_ptr c + cqo_ring_mask co) (cq_ring_ptr c + cqo_ring_entries co)
     (if negb (cqo_flags co =? 0) then cq_ring_ptr c + cqo_flags co
      else cq_kflags c)
     (cq_ring_ptr c + cqo_overflow co) (cq_ring_ptr c + cqo_cqes co)
     (cq_ring_sz c) (cq_ring_ptr c)).

Definition io_uring_mmap (fd : Z) (p : io_uring_params)
    (s : io_uring_sq) (c : io_uring_cq) : sys (Z * io_uring_sq * io_uring_cq) :=
  let s := set_sq_ring_sz s
             (u64 (sqo_array (sq_off p) + sq_entries p * sizeof_unsigned)) in
  let c := set_cq_ring_sz c
             (u64 (cqo_cqes (cq_off p) + cq_entries p * sizeof_io_uring_cqe)) in
  let single := has_flag (features p) IORING_FEAT_SINGLE_MMAP in
  let s := if single && (sq_ring_sz s <? cq_ring_sz c)
           then set_sq_ring_sz s (cq_ring_sz c) else s in
  let c := if single then set_cq_ring_sz c (sq_ring_sz s) else c in
  r <- uring_mmap 0 (sq_ring_sz s) (Z.lor PROT_READ PROT_WRITE)
         (Z.lor MAP_SHARED MAP_POPULATE) fd IORING_OFF_SQ_RING ;;
  let s := set_sq_ring_ptr s r in
  if IS_ERR r then ret (PTR_ERR r, s, c) else
  let sqes_step (s : io_uring_sq) (c : io_uring_cq) :=
    let size := u64 (sq_entries p * sizeof_io_uring_sqe) in
    q <- uring_mmap 0 size (Z.lor PROT_READ PROT_WRITE)
           (Z.lor MAP_SHARED MAP_POPULATE) fd IORING_OFF_SQES ;;
    let s := set_sq_sqes s q in
    if IS_ERR q then
      io_uring_unmap_rings s c ;; ret (PTR_ERR q, s, c)
    else
      let (s', c') := io_uring_setup_ring_pointers p s c in
      ret (0, s', c') in
  if single then sqes_step s (set_cq_ring_ptr c (sq_ring_ptr s))
  else
    r2 <- uring_mmap 0 (cq_ring_sz c) (Z.lor PROT_READ PROT_WRITE)
            (Z.lor MAP_SHARED MAP_POPULATE) fd IORING_OFF_CQ_RING ;;
    if IS_ERR r2 then
      let c := set_cq_ring_ptr c 0 in
      io_uring_unmap_rings s c ;; ret (PTR_ERR r2, s, c)
    else sqes_step s (set_cq_ring_ptr c r2).

Definition io_uring_queue_mmap (fd : Z) (p : io_uring_params) (ring : io_uring)
  : sys (Z * io_uring) :=
  let ring := zero_ring in
  '(r, s, c) <- io_uring_mmap fd p (sq ring) (cq ring) ;;
  ret (r, set_queues ring s c).

(** [io_uring_alloc_huge(entries, p, sq, cq, buf, buf_size)]: the return
    value with the final contents of the params structure and both queue
    views. The locals [sq_entries] and [cq_entries] are not initialised in
    the source and are read only after [get_sq_cq_entries] has written
    them; they start at [0] here. *)
Definition io_uring_alloc_huge (entries : Z) (p : io_uring_params)
    (s : io_uring_sq) (c : io_uring_cq) (buf buf_size : Z)
  : sys (Z * io_uring_params * io_uring_sq * io_uring_cq) :=
  let page_size := u64 get_page_size in
  let '(r, p, sq_n, cq_n) := get_sq_cq_entries entries p 0 0 in
  if negb (r =? 0) then ret (r, p, s, c) else
  let sqes_mem := u64 (sq_n * sizeof_io_uring_sqe) in
  let sqes_mem :=
    Z.land (u64 (sqes_mem + page_size - 1)) (u64 (Z.lnot (page_size - 1))) in
  let ring_mem := u64 (cq_n * sizeof_io_uring_cqe) in
  let ring_mem := u64 (ring_mem + sq_n * sizeof_unsigned) in
  if negb (buf =? 0) && (buf_size <? u64 (sqes_mem + ring_mem))
  then ret (- ENOMEM, p, s, c) else
  ptr <- (if negb (buf =? 0) then ret buf
          else uring_mmap 0 huge_page_size (Z.lor PROT_READ PROT_WRITE)
                 (Z.lor (Z.lor MAP_SHARED MAP_ANONYMOUS) MAP_HUGETLB) (-1) 0) ;;
  if (buf =? 0) && IS_ERR ptr then ret (PTR_ERR ptr, p, s, c) else
  let buf_size := if buf =? 0 then huge_page_size else buf_size in
  let s := set_sq_sqes s ptr in
  memset0 ptr buf_size ;;
  let finish (s : io_uring_sq) (c : io_uring_cq) :=
    (* add up memory used *)
    let mem_used := 0 in
    let mem_used := int_of (u64 (mem_used + sqes_mem)) in
    let mem_used := int_of (u64 (mem_used + u64 (sq_n * sizeof_unsigned))) in
    let mem_used := int_of (u64 (mem_used + u64 (cq_n * sizeof_unsigned))) in
    (* round to full page *)
    let mem_used :=
      int_of (Z.land (u64 (mem_used + page_size - 1))
                     (u64 (Z.lnot (page_size - 1)))) in
    let c := set_cq_ring_ptr c (sq_ring_ptr s) in
    let p := set_user_addrs p (sq_sqes s) (sq_ring_ptr s) in
    ret (mem_used, p, s, c) in
  if u64 (sqes_mem + ring_mem) <=? buf_size then
    let s := set_sq_ring_ptr s (sq_sqes s + sqes_mem) in
    (* clear ring sizes, we have just one mmap() to undo *)
    let c := set_cq_ring_sz c 0 in
    let s := set_sq_ring_sz s 0 in
    finish s c
  else
    ptr <- uring_mmap 0 buf_size (Z.lor PROT_READ PROT_WRITE)
             (Z.lor (Z.lor MAP_SHARED MAP_ANONYMOUS) MAP_HUGETLB) (-1) 0 ;;
    if IS_ERR ptr then
      uring_munmap (sq_sqes s) buf_size ;; ret (PTR_ERR ptr, p, s, c)
    else
      memset0 ptr buf_size ;;
      let s := set_sq_ring_ptr s ptr in
      let s := set_sq_ring_sz s buf_size in
      let c := set_cq_ring_sz c 0 in
      finish s c.

(** [__io_uring_queue_init_params(entries, ring, p, buf, buf_size)]: the
    return value with the final contents of the handle and of the params
    structure. The early return after a failed [io_uring_alloc_huge] is the
    first test after the allocation block (outside that block [ret] is
    [0]). *)
Definition __io_uring_queue_init_params (entries : Z) (ring : io_uring)
    (p : io_uring_params) (buf buf_size : Z)
  : sys (Z * io_uring * io_uring_params) :=
  let ring := zero_ring in
  '(r, ring, p) <-
    (if has_flag (flags p) IORING_SETUP_NO_MMAP then
       '(r, p, s, c) <- io_uring_alloc_huge entries p (sq ring) (cq ring)
                          buf buf_size ;;
       let ring := set_queues ring s c in
       if r <? 0 then ret (r, ring, p) else
       if negb (buf =? 0)
       then ret (r, set_internal_flags ring
                      (Z.lor (internal_flags ring) IORING_INT_FLAG_APP_MEM), p)
       else ret (r, ring, p)
     else ret (0, ring, p)) ;;
  if r <? 0 then ret (r, ring, p) else
  '(fd, p) <- ____sys_io_uring_setup entries p ;;
  if fd <? 0 then
    (if has_flag (flags p) IORING_SETUP_NO_MMAP
        && negb (has_flag (ring_flags ring) IORING_INT_FLAG_APP_MEM)
     then uring_munmap (sq_sqes (sq ring)) huge_page_size ;;
          io_uring_unmap_rings (sq ring) (cq ring)
     else ret tt) ;;
    ret (fd, ring, p)
  else
    '(r, ring, stop) <-
      (if negb (has_flag (flags p) IORING_SETUP_NO_MMAP) then
         '(r, ring) <- io_uring_queue_mmap fd p ring ;;
         if negb (r =? 0) then uring_close fd ;; ret (r, ring, true)
         else ret (r, ring, false)
       else
         let (s, c) := io_uring_setup_ring_pointers p (sq ring) (cq ring) in
         ret (r, set_queues ring s c, false)) ;;
    if (stop : bool) then ret (r, ring, p) else
    ret (r, Build_io_uring (sq ring) (cq ring) (flags p) fd (features p)
              (internal_flags ring), p).

Definition io_uring_queue_init_mem (entries : Z) (ring : io_uring)
    (p : io_uring_params) (buf buf_size : Z)
  : sys (Z * io_uring * io_uring_params) :=
  (* should already be set... *)
  let p := set_flags p (Z.lor (flags p) IORING_SETUP_NO_MMAP) in
  __io_uring_queue_init_params entries ring p buf buf_size.

Definition io_uring_queue_init_params (entries : Z) (ring : io_uring)
    (p : io_uring_params) : sys (Z * io_uring * io_uring_params) :=
  '(r, ring, p) <- __io_uring_queue_init_params entries ring p 0 0 ;;
  ret (if 0 <=? r then 0 else r, ring, p).

Definition io_uring_queue_init (entries : Z) (ring : io_uring) (fl : Z)
  : sys (Z * io_uring) :=
  let p := set_flags zero_params fl in
  '(r, ring, _) <- io_uring_queue_init_params entries ring p ;;
  ret (r, ring).

Definition io_uring_queue_exit (ring : io_uring) : sys unit :=
  let s := sq ring in
  let c := cq ring in
  if sq_ring_sz s =? 0 then
    uring_close (ring_fd ring) ;;
    uring_munmap (sq_sqes s) huge_page_size ;;
    io_uring_unmap_rings s c
  else
    (if negb (has_flag (internal_flags ring) IORING_INT_FLAG_APP_MEM) then
       n <- load (sq_kring_entries s) ;;
       uring_munmap (sq_sqes s) (u64 (n * sizeof_io_uring_sqe)) ;;
       io_uring_unmap_rings s c
     else ret tt) ;;
    uring_close (ring_fd ring).

(** [npages(size_t size, unsigned page_size)]; [__fls] takes an [int]. *)
Definition npages (size page_size : Z) : Z :=
  let size := u64 (size - 1) in
  let size := size / page_size in
  __fls (int_of size).

Definition rings_size (entries cq_n page_size : Z) : Z :=
  let cq_size := KRING_SIZE in
  let cq_size := u64 (cq_size + u64 (cq_n * sizeof_io_uring_cqe)) in
  let cq_size := Z.land (u64 (cq_size + 63)) (u64 (Z.lnot 63)) in
  let pages := u64 (Z.shiftl 1 (npages cq_size page_size)) in
  let sq_size := u64 (sizeof_io_uring_sqe * entries) in
  let pages := u64 (pages + u64 (Z.shiftl 1 (npages sq_size page_size))) in
  u64 (pages * page_size).

(** [io_uring_mlock_size_params(entries, p)]. The local handle [ring] and
    the locals [sq] and [cq_entries] are not initialised in the source
    (they are written before they are read); [lp] is zero-initialised. *)
Definition io_uring_mlock_size_params (entries : Z) (p : io_uring_params)
  : sys Z :=
  let lp := zero_params in
  '(r, ring, lp) <- io_uring_queue_init_params entries zero_ring lp ;;
  (if r =? 0 then io_uring_queue_exit ring else ret tt) ;;
  if has_flag (features lp) IORING_FEAT_NATIVE_WORKERS then ret 0 else
  if entries =? 0 then ret (- EINVAL) else
  if (KERN_MAX_ENTRIES <? entries) && negb (has_flag (flags p) IORING_SETUP_CLAMP)
  then ret (- EINVAL) else
  let entries := if KERN_MAX_ENTRIES <? entries then KERN_MAX_ENTRIES else entries in
  let '(cret, _, sq_n, cq_n) := get_sq_cq_entries entries p 0 0 in
  if negb (cret =? 0) then ret cret else
  let page_size := long_of get_page_size in
  ret (long_of (rings_size sq_n cq_n (u32 page_size))).

Definition io_uring_mlock_size (entries fl : Z) : sys Z :=
  io_uring_mlock_size_params entries (set_flags zero_params fl).

End Setup.

(** ** Operating systems for examples *)

(** [ERR_PTR(-errno)] of the Linux error-pointer idiom. *)
Definition ERR_PTR (n : Z) : Z := u64 n.

(** An address above every address handed out before. *)
Definition fresh_addr (h : list event) : Z :=
  2097152 * (1 + Z.of_nat (length h)).

(** What ring creation writes into the params structure: the depths and
    the feature bits [feat], with the index array at offset 128 of the
    submission ring and the completion entries at offset 64 of the
    completion ring. *)
Definition filled_params (entries : Z) (p : io_uring_params) (feat : Z)
  : io_uring_params :=
  Build_io_uring_params entries (2 * entries) (flags p) feat
    (Build_io_sqring_offsets 0 4 8 12 16 20 128 (sqo_user_addr (sq_off p)))
    (Build_io_cqring_offsets 0 4 8 12 16 64 0 (cqo_user_addr (cq_off p))).

(** A system where a mapping of zero length fails with [EINVAL], a mapping
    of descriptor [fd] at offset [off] fails with [ENOMEM] when
    [fails fd off] holds, every other mapping succeeds at a fresh address,
    ring creation answers [setup_res] and reports the features [feat], and
    the shared entry count reads as [8]. *)
Definition example_kernel (fails : Z -> Z -> bool) (setup_res feat : Z)
  : kernel := {|
  k_mmap := fun h addr len prot mflags fd off =>
    if len =? 0 then ERR_PTR (-22)
    else if fails fd off then ERR_PTR (-12)
    else fresh_addr h;
  k_setup := fun h entries p => (setup_res, filled_params entries p feat);
  k_load := fun h ptr => 8
|}.

(** ** Vocabulary of the specification *)

(** A power of two, as the source means it. *)
Definition is_pow2 (n : Z) : Prop := exists k, 0 <= k /\ n = 2 ^ k.

(** [r] is the least power of two that is at least [d]. *)
Definition least_pow2_ge (d r : Z) : Prop :=
  is_pow2 r /\ d <= r /\ forall m, is_pow2 m -> d <= m -> r <= m.

(** [size] rounded up to a multiple of [a]. *)
Definition round_up (size a : Z) : Z := (size + a - 1) / a * a.

(** The whole number of pages that hold [size] bytes. *)
Definition pages_of (size page_size : Z) : Z := (size + page_size - 1) / page_size.

(** The least power of two that is at least [n], for [1 <= n]. *)
Definition pow2_ceil (n : Z) : Z := 2 ^ Z.log2_up n.

Section LayoutSpec.
Context {U : Uapi}.

(** The layout computation in the words of the specification: the
    completion region is the header plus the completion entries, rounded to
    64 bytes; each region is rounded up to whole pages; the result is the
    sum of both page counts times the page size. *)
Definition rings_size_spec (entries cq_n page_size : Z) : Z :=
  let cq_size := round_up (KRING_SIZE + cq_n * sizeof_io_uring_cqe) 64 in
  let sq_size := sizeof_io_uring_sqe * entries in
  (pages_of cq_size page_size + pages_of sq_size page_size) * page_size.

(** The same with each page count rounded up to a power of two. *)
Definition rings_size_pow2 (entries cq_n page_size : Z) : Z :=
  let cq_size := round_up (KRING_SIZE + cq_n * sizeof_io_uring_cqe) 64 in
  let sq_size := sizeof_io_uring_sqe * entries in
  (pow2_ceil (pages_of cq_size page_size)
   + pow2_ceil (pages_of sq_size page_size)) * page_size.

End LayoutSpec.

(** The [Mmap] calls of a trace, and their results. *)
Definition is_mmap (e : event) : bool :=
  match e with Mmap _ _ _ _ _ _ _ => true | _ => false end.

Definition mmaps (evs : list event) : list event := filter is_mmap evs.

Fixpoint mmap_results (evs : list event) : list Z :=
  match evs with
  | [] => []
  | Mmap _ _ _ _ _ _ r :: t => r :: mmap_results t
  | _ :: t => mmap_results t
  end.

(** The [Munmap] calls of a trace. *)
Definition is_munmap (e : event) : bool :=
  match e with Munmap _ _ => true | _ => false end.

Definition munmaps (evs : list event) : list event := filter is_munmap evs.

(** Ring creation was attempted and answered with an error. *)
Definition setup_failed (evs : list event) : bool :=
  existsb (fun e => match e with Setup _ _ res => res <? 0 | _ => false end) evs.

Section RegionSpec.
Context {U : Uapi}.

(** Region sizes the mapper computes from the offset tables. *)
Definition sq_region_size (p : io_uring_params) : Z :=
  u64 (sqo_array (sq_off p) + sq_entries p * sizeof_unsigned).
Definition cq_region_size (p : io_uring_params) : Z :=
  u64 (cqo_cqes (cq_off p) + cq_entries p * sizeof_io_uring_cqe).
Definition sqes_size (p : io_uring_params) : Z :=
  u64 (sq_entries p * sizeof_io_uring_sqe).

(** A shared, populate-on-map, read-write mapping of [len] bytes of the
    ring descriptor [fd] at the region offset [off], answered with [res]. *)
Definition ring_mapping (fd len off res : Z) : event :=
  Mmap 0 len (Z.lor PROT_READ PROT_WRITE) (Z.lor MAP_SHARED MAP_POPULATE)
       fd off res.

End RegionSpec.

Section AllocSpec.
Context {U : Uapi}.

(** Bytes the contiguous layout occupies from the start of the buffer:
    the submission-entry array rounded up to a page boundary, followed by
    the ring region (completion entries, then the submission index
    array). *)
Definition alloc_huge_consumed (sq_n cq_n : Z) : Z :=
  round_up (sq_n * sizeof_io_uring_sqe) get_page_size
  + (cq_n * sizeof_io_uring_cqe + sq_n * sizeof_unsigned).

(** The byte count the allocator is documented to return. *)
Definition alloc_huge_used_spec (sq_n cq_n : Z) : Z :=
  round_up (alloc_huge_consumed sq_n cq_n) get_page_size.

End AllocSpec.

(** ** Further vocabulary *)

(** Every field pointer of both views is the base of its region plus the
    offset the kernel published; the flags pointer of the completion ring
    only when the offset table has one. *)
Definition pointers_resolved (p : io_uring_params)
    (s : io_uring_sq) (c : io_uring_cq) : Prop :=
  sq_khead s = sq_ring_ptr s + sqo_head (sq_off p) /\
  sq_ktail s = sq_ring_ptr s + sqo_tail (sq_off p) /\
  sq_kring_mask s = sq_ring_ptr s + sqo_ring_mask (sq_off p) /\
  sq_kring_entries s = sq_ring_ptr s + sqo_ring_entries (sq_off p) /\
  sq_kflags s = sq_ring_ptr s + sqo_flags (sq_off p) /\
  sq_kdropped s = sq_ring_ptr s + sqo_dropped (sq_off p) /\
  sq_array s = sq_ring_ptr s + sqo_array (sq_off p) /\
  cq_khead c = cq_ring_ptr c + cqo_head (cq_off p) /\
  cq_ktail c = cq_ring_ptr c + cqo_tail (cq_off p) /\
  cq_kring_mask c = cq_ring_ptr c + cqo_ring_mask (cq_off p) /\
  cq_kring_entries c = cq_ring_ptr c + cqo_ring_entries (cq_off p) /\
  cq_koverflow c = cq_ring_ptr c + cqo_overflow (cq_off p) /\
  cq_cqes c = cq_ring_ptr c + cqo_cqes (cq_off p) /\
  (cqo_flags (cq_off p) <> 0 ->
   cq_kflags c = cq_ring_ptr c + cqo_flags (cq_off p)).

(** Ring descriptors a trace leaves open: a successful [Setup] opens its
    result, [Close] closes its argument. *)
Fixpoint open_fds_from (acc : list Z) (evs : list event) : list Z :=
  match evs with
  | [] => acc
  | Setup _ _ res :: t =>
      open_fds_from (if res <? 0 then acc else acc ++ [res]) t
  | Close fd :: t =>
      open_fds_from (filter (fun x => negb (x =? fd)) acc) t
  | _ :: t => open_fds_from acc t
  end.

Definition open_fds (evs : list event) : list Z := open_fds_from [] evs.

(** Every mapping call of a trace succeeded. *)
Definition all_mapped {U : Uapi} (evs : list event) : bool :=
  forallb (fun x => negb (IS_ERR x)) (mmap_results evs).

(** Events that open or close a ring descriptor. *)
Definition touches_fd (e : event) : bool :=
  match e with Setup _ _ _ => true | Close _ => true | _ => false end.

(** ** Advice and probing *)

(** Constants of the headers used by the fork advice and by the probe. *)
Class ProbeAbi : Type := {
  MADV_DONTFORK : Z;
  sizeof_io_uring_probe : Z;
  sizeof_io_uring_probe_op : Z
}.

(** The values on Linux. *)
Definition linux_probe_abi : ProbeAbi := {|
  MADV_DONTFORK := 10;
  sizeof_io_uring_probe := 16;
  sizeof_io_uring_probe_op := 8
|}.

(** Calls of the whole library: the system calls of ring set-up, memory
    advice, the C allocator and probe registration. *)
Inductive lib_event : Type :=
| Sys (e : event)
| Madvise (addr len advice : Z) (res : Z)
| Malloc (len : Z) (res : Z)
| Free (ptr : Z)
| RegisterProbe (fd probe nr : Z) (res : Z).

(** The answers of [madvise(2)], [malloc(3)] and
    [io_uring_register_probe], each depending on the calls made so far;
    registration sees the handle. *)
Record libc : Type := {
  l_madvise : list lib_event -> Z -> Z -> Z -> Z;
  l_malloc : list lib_event -> Z -> Z;
  l_register_probe : list lib_event -> io_uring -> Z -> Z -> Z
}.

Definition lib (A : Type) : Type := list lib_event -> A * list lib_event.

Definition lret {A : Type} (a : A) : lib A := fun _ => (a, []).

Definition lbind {A B : Type} (m : lib A) (f : A -> lib B) : lib B :=
  fun h =>
    let (a, e1) := m h in
    let (b, e2) := f a (h ++ e1) in
    (b, e1 ++ e2).

Declare Scope lib_scope.
Delimit Scope lib_scope with lib.
Notation "x <- m ;; k" := (lbind m (fun x => k))
  (at level 61, m at next level, right associativity) : lib_scope.
Notation "' pat <- m ;; k" := (lbind m (fun x => match x with pat => k end))
  (at level 61, pat pattern, m at next level, right associativity) : lib_scope.
Notation "m ;; k" := (lbind m (fun _ => k))
  (at level 61, right associativity) : lib_scope.

(** The system calls of a trace of the library. *)
Fixpoint sys_events (evs : list lib_event) : list event :=
  match evs with
  | [] => []
  | Sys e :: t => e :: sys_events t
  | _ :: t => sys_events t
  end.

(** A computation of ring set-up run inside the library: it sees the
    system calls made so far. *)
Definition lift {A : Type} (m : sys A) : lib A :=
  fun h => let (a, evs) := m (sys_events h) in (a, map Sys evs).

(** Regions advised by a trace, with the advice given. *)
Fixpoint madvise_calls (evs : list lib_event) : list (Z * Z * Z) :=
  match evs with
  | [] => []
  | Madvise a l adv _ :: t => (a, l, adv) :: madvise_calls t
  | _ :: t => madvise_calls t
  end.

(** Results of the advice calls of a trace. *)
Fixpoint madvise_results (evs : list lib_event) : list Z :=
  match evs with
  | [] => []
  | Madvise _ _ _ r :: t => r :: madvise_results t
  | _ :: t => madvise_results t
  end.

(** Blocks of the C heap a trace leaves allocated, starting from [acc]. *)
Fixpoint heap_live_from (acc : list Z) (evs : list lib_event) : list Z :=
  match evs with
  | [] => acc
  | Malloc _ res :: t =>
      heap_live_from (if res =? 0 then acc else acc ++ [res]) t
  | Free ptr :: t =>
      heap_live_from (filter (fun x => negb (x =? ptr)) acc) t
  | _ :: t => heap_live_from acc t
  end.

Definition heap_live (evs : list lib_event) : list Z := heap_live_from [] evs.

Section Library.
Context {U : Uapi} {P : ProbeAbi}.
Variable K : kernel.
Variable L : libc.

Definition uring_madvise (addr len advice : Z) : lib Z :=
  fun h =>
    let r := l_madvise L h addr len advice in
    (r, [Madvise addr len advice r]).

Definition malloc (len : Z) : lib Z :=
  fun h => let r := l_malloc L h len in (r, [Malloc len r]).

Definition free (ptr : Z) : lib unit := fun _ => (tt, [Free ptr]).

Definition io_uring_register_probe (ring : io_uring) (probe nr : Z) : lib Z :=
  fun h =>
    let r := l_register_probe L h ring probe nr in
    (r, [RegisterProbe (ring_fd ring) probe nr r]).

Definition io_uring_ring_dontfork (ring : io_uring) : lib Z :=
  (if (sq_ring_ptr (sq ring) =? 0) || (sq_sqes (sq ring) =? 0)
      || (cq_ring_ptr (cq ring) =? 0)
   then lret (- EINVAL) else
   n <- lift (load K (sq_kring_entries (sq ring))) ;;
   let len := u64 (n * sizeof_io_uring_sqe) in
   r <- uring_madvise (sq_sqes (sq ring)) len MADV_DONTFORK ;;
   if r <? 0 then lret r else
   let len := sq_ring_sz (sq ring) in
   r <- uring_madvise (sq_ring_ptr (sq ring)) len MADV_DONTFORK ;;
   if r <? 0 then lret r else
   if negb (cq_ring_ptr (cq ring) =? sq_ring_ptr (sq ring)) then
     let len := cq_ring_sz (cq ring) in
     r <- uring_madvise (cq_ring_ptr (cq ring)) len MADV_DONTFORK ;;
     if r <? 0 then lret r else lret 0
   else lret 0)%lib.

(** [io_uring_get_probe_ring(ring)]; the result is the probe pointer,
    [0] for [NULL]. *)
Definition io_uring_get_probe_ring (ring : io_uring) : lib Z :=
  (let len := u64 (sizeof_io_uring_probe + 256 * sizeof_io_uring_probe_op) in
   probe <- malloc len ;;
   if probe =? 0 then lret 0 else
   lift (memset0 probe len) ;;
   r <- io_uring_register_probe ring probe 256 ;;
   if 0 <=? r then lret probe else
   free probe ;;
   lret 0)%lib.

(** [io_uring_get_probe()]. The local handle is not initialised in the
    source; set-up clears it before anything reads it. *)
Definition io_uring_get_probe : lib Z :=
  ('(r, ring) <- lift (io_uring_queue_init K 2 zero_ring 0) ;;
   if r <? 0 then lret 0 else
   probe <- io_uring_get_probe_ring ring ;;
   lift (io_uring_queue_exit K ring) ;;
   lret probe)%lib.

Definition io_uring_free_probe (probe : Z) : lib unit := free probe.

(** The regions [io_uring_ring_dontfork] has to advise: the submission
    entries at the length read from the shared entry count, the
    submission ring, and the completion ring when it is a region of its
    own. *)
Definition dontfork_regions (ring : io_uring) (h : list lib_event)
  : list (Z * Z * Z) :=
  let n := k_load K (sys_events h) (sq_kring_entries (sq ring)) in
  [(sq_sqes (sq ring), u64 (n * sizeof_io_uring_sqe), MADV_DONTFORK);
   (sq_ring_ptr (sq ring), sq_ring_sz (sq ring), MADV_DONTFORK)]
  ++ (if cq_ring_ptr (cq ring) =? sq_ring_ptr (sq ring) then []
      else [(cq_ring_ptr (cq ring), cq_ring_sz (cq ring), MADV_DONTFORK)]).

End Library.

(** A C library for examples: every advice answers [madv], the allocator
    hands out a fresh non-null block, and probe registration answers
    [reg]. *)
Definition example_libc (madv reg : Z) : libc := {|
  l_madvise := fun _ _ _ _ => madv;
  l_malloc := fun h _ => 4096 * (1 + Z.of_nat (length h));
  l_register_probe := fun _ _ _ _ => reg
|}.

(** The handle of descriptor [3] whose regions were mapped by the example
    system for a depth of [8] with the features [feat]. *)
Definition example_ring (feat : Z) : io_uring :=
  let '(_, s, c, _) :=
    @io_uring_mmap linux_uapi (example_kernel (fun _ _ => false) 3 feat) 3
      (filled_params 8 zero_params feat) zero_sq zero_cq [] in
  Build_io_uring s c 0 3 feat 0.

(** The example system in which every mapping succeeds, ring creation
    answers descriptor [3] without features, and the shared entry count
    reads as [n]. *)
Definition example_kernel_depth (n : Z) : kernel :=
  let K := example_kernel (fun _ _ => false) 3 0 in
  {| k_mmap := k_mmap K; k_setup := k_setup K; k_load := fun _ _ => n |}.

(** * Properties *)

(** ** Machine arithmetic *)

Lemma u32_small (x : Z) : 0 <= x < 2 ^ 32 -> u32 x = x.
Proof. intros H. unfold u32. apply Z.mod_small. exact H. Qed.

Lemma u64_small (x : Z) : 0 <= x < 2 ^ 64 -> u64 x = x.
Proof. intros H. unfold u64. apply Z.mod_small. exact H. Qed.

Lemma int_of_small (x : Z) : 0 <= x < 2 ^ 31 -> int_of x = x.
Proof.
  intros H. unfold int_of. rewrite u32_small by lia.
  destruct (Z.ltb_spec x (2 ^ 31)); lia.
Qed.

Lemma long_of_small (x : Z) : 0 <= x < 2 ^ 63 -> long_of x = x.
Proof.
  intros H. unfold long_of. rewrite u64_small by lia.
  destruct (Z.ltb_spec x (2 ^ 63)); lia.
Qed.

(** A set bit [k] of a number below [2 ^ (k + 1)] puts it at or above
    [2 ^ k]; a clear one puts it below. *)
Lemma top_bit_split (k x : Z) :
  0 <= k -> 0 <= x < 2 ^ (k + 1) ->
  if Z.testbit x k then 2 ^ k <= x else x < 2 ^ k.
Proof.
  intros Hk Hx.
  assert (Hp : 0 < 2 ^ k) by (apply Z.pow_pos_nonneg; lia).
  assert (H2 : 2 ^ (k + 1) = 2 * 2 ^ k) by (rewrite Z.pow_add_r by lia; lia).
  destruct (Z.testbit x k) eqn:E.
  - apply Z.testbit_true in E; [|lia].
    destruct (Z.lt_ge_cases x (2 ^ k)) as [Hlt|]; [|assumption].
    rewrite Z.div_small in E by lia. discriminate.
  - destruct (Z.lt_ge_cases x (2 ^ k)) as [|Hge]; [assumption|].
    assert (Hq : x / 2 ^ k = 1).
    { symmetry. apply (Z.div_unique x (2 ^ k) 1 (x - 2 ^ k)); lia. }
    assert (Ht : Z.testbit x k = true).
    { apply Z.testbit_true; [lia|]. rewrite Hq. reflexivity. }
    congruence.
Qed.

Lemma clz_from_spec (n : nat) (x : Z) :
  0 < x < 2 ^ Z.of_nat n ->
  let f := Z.of_nat n - clz_from n x in
  1 <= f <= Z.of_nat n /\ 2 ^ (f - 1) <= x < 2 ^ f.
Proof.
  induction n as [|k IH]; intros Hx.
  - simpl in Hx. lia.
  - cbn [clz_from].
    pose proof (top_bit_split (Z.of_nat k) x ltac:(lia)) as Hb.
    replace (Z.of_nat k + 1) with (Z.of_nat (S k)) in Hb by lia.
    specialize (Hb ltac:(lia)).
    destruct (Z.testbit x (Z.of_nat k)).
    + cbn zeta. replace (Z.of_nat (S k) - 0 - 1) with (Z.of_nat k) by lia.
      replace (Z.of_nat (S k) - 0) with (Z.of_nat (S k)) by lia. lia.
    + specialize (IH ltac:(lia)). cbn zeta in *.
      replace (Z.of_nat (S k) - (1 + clz_from k x))
        with (Z.of_nat k - clz_from k x) by lia.
      lia.
Qed.

(** [__fls] of a positive [int] is its bit length. *)
Lemma fls_spec (x : Z) :
  0 < x < 2 ^ 31 ->
  1 <= __fls x <= 31 /\ 2 ^ (__fls x - 1) <= x < 2 ^ __fls x.
Proof.
  intros Hx. unfold __fls, __builtin_clz.
  destruct (Z.eqb_spec x 0); [lia|].
  rewrite u32_small by lia.
  pose proof (clz_from_spec 32 x ltac:(simpl; lia)) as H. cbn zeta in H.
  change (8 * 4) with (Z.of_nat 32).
  destruct H as [Hf Hb]. split; [|exact Hb].
  split; [lia|].
  destruct (Z.le_gt_cases (Z.of_nat 32 - clz_from 32 x) 31) as [|Hgt]; [assumption|].
  assert (2 ^ 31 <= 2 ^ (Z.of_nat 32 - clz_from 32 x - 1))
    by (apply Z.pow_le_mono_r; lia).
  lia.
Qed.

Lemma fls_zero : __fls 0 = 0.
Proof. reflexivity. Qed.

Lemma roundup_pow2_spec (d : Z) :
  1 <= d <= 2 ^ 31 -> least_pow2_ge d (roundup_pow2 d) /\ roundup_pow2 d <= 2 ^ 31.
Proof.
  intros Hd. unfold roundup_pow2.
  rewrite (u32_small (d - 1)) by lia.
  destruct (Z.eq_dec d 1) as [->|Hne].
  - change (u32 (u64 (Z.shiftl 1 (__fls (int_of (1 - 1)))))) with 1.
    split; [|lia]. split; [exists 0; split; [lia|reflexivity]|].
    split; [lia|]. intros m [k [Hk ->]] _.
    change 1 with (2 ^ 0). apply Z.pow_le_mono_r; lia.
  - rewrite int_of_small by lia.
    destruct (fls_spec (d - 1) ltac:(lia)) as [Hf Hb].
    set (f := __fls (d - 1)) in *.
    rewrite Z.shiftl_1_l.
    assert (Hle : 2 ^ f <= 2 ^ 31) by (apply Z.pow_le_mono_r; lia).
    rewrite u64_small by (change (2 ^ 31) with 2147483648 in Hle;
                          change (2 ^ 64) with 18446744073709551616; lia).
    rewrite u32_small by (change (2 ^ 31) with 2147483648 in Hle;
                          change (2 ^ 32) with 4294967296; lia).
    split; [|exact Hle]. split; [exists f; split; [lia|reflexivity]|].
    split; [lia|]. intros m [k [Hk ->]] Hm.
    apply Z.pow_le_mono_r; [lia|].
    destruct (Z.le_gt_cases f k) as [|Hgt]; [assumption|].
    assert (2 ^ k <= 2 ^ (f - 1)) by (apply Z.pow_le_mono_r; lia).
    lia.
Qed.

(** ** Depth negotiation *)

Section NegotiationFacts.
Context {U : Uapi}.

(** How a call of [get_sq_cq_entries] can end: the params structure is
    never written; either an error is returned and both cells keep their
    contents, or [0] is returned and both cells are written. *)
Lemma get_sq_cq_entries_cases entries p sq0 cq0 r p' sq cq :
  get_sq_cq_entries entries p sq0 cq0 = (r, p', sq, cq) ->
  p' = p /\
  ((r = - EINVAL /\ sq = sq0 /\ cq = cq0) \/
   (r = 0 /\ entries <> 0 /\
    (entries <= KERN_MAX_ENTRIES \/ has_flag (flags p) IORING_SETUP_CLAMP = true) /\
    sq = roundup_pow2 (Z.min entries KERN_MAX_ENTRIES) /\
    ((has_flag (flags p) IORING_SETUP_CQSIZE = false /\ cq = u32 (2 * sq)) \/
     (has_flag (flags p) IORING_SETUP_CQSIZE = true /\ cq_entries p <> 0 /\
      (cq_entries p <= KERN_MAX_CQ_ENTRIES
       \/ has_flag (flags p) IORING_SETUP_CLAMP = true) /\
      cq = roundup_pow2 (Z.min (cq_entries p) KERN_MAX_CQ_ENTRIES) /\
      sq <= cq)))).
Proof.
  unfold get_sq_cq_entries. intros H.
  destruct (Z.eqb_spec entries 0) as [E0|E0];
    [inversion H; subst; auto|].
  assert (Hmin : (if KERN_MAX_ENTRIES <? entries then KERN_MAX_ENTRIES else entries)
                 = Z.min entries KERN_MAX_ENTRIES).
  { destruct (Z.ltb_spec KERN_MAX_ENTRIES entries); lia. }
  assert (Hcmin : (if KERN_MAX_CQ_ENTRIES <? cq_entries p
                   then KERN_MAX_CQ_ENTRIES else cq_entries p)
                  = Z.min (cq_entries p) KERN_MAX_CQ_ENTRIES).
  { destruct (Z.ltb_spec KERN_MAX_CQ_ENTRIES (cq_entries p)); lia. }
  cbv zeta in H. rewrite Hmin, Hcmin in H. clear Hmin Hcmin.
  destruct (Z.ltb_spec KERN_MAX_ENTRIES entries) as [Hbig|Hsmall];
    destruct (has_flag (flags p) IORING_SETUP_CLAMP) eqn:Hclamp;
    cbn [andb negb] in H;
    try (inversion H; subst; auto; fail);
    (destruct (has_flag (flags p) IORING_SETUP_CQSIZE) eqn:Hcq;
     [ destruct (Z.eqb_spec (cq_entries p) 0) as [C0|C0];
       [inversion H; subst; auto|];
       destruct (Z.ltb_spec KERN_MAX_CQ_ENTRIES (cq_entries p)) as [Cbig|Csmall];
       cbn [andb negb] in H;
       try (inversion H; subst; auto; fail);
       match type of H with
       | context [?a <? ?b] => destruct (Z.ltb_spec a b)
       end;
       inversion H; subst; auto;
       split; auto; right; repeat split; auto; right; repeat split; auto; lia
     | inversion H; subst; split; auto; right; repeat split; auto ]).
Qed.

(** Clamping the depth before the call changes nothing: the negotiation
    clamps in the same way. *)
Lemma get_sq_cq_entries_clamped entries p sq0 cq0 :
  entries <> 0 ->
  (KERN_MAX_ENTRIES <? entries)
    && negb (has_flag (flags p) IORING_SETUP_CLAMP) = false ->
  get_sq_cq_entries
    (if KERN_MAX_ENTRIES <? entries then KERN_MAX_ENTRIES else entries)
    p sq0 cq0
  = get_sq_cq_entries entries p sq0 cq0.
Proof.
  intros Hnz Hcl.
  destruct (Z.ltb_spec KERN_MAX_ENTRIES entries) as [Hbig|Hsmall];
    [|reflexivity].
  unfold get_sq_cq_entries.
  destruct (Z.eqb_spec entries 0); [contradiction|].
  destruct (Z.ltb_spec KERN_MAX_ENTRIES entries); [|lia].
  cbn [andb] in Hcl. apply negb_false_iff in Hcl. rewrite Hcl.
  reflexivity.
Qed.

(** Depths that a successful negotiation can produce. *)
Lemma get_sq_cq_entries_bounds entries p sq0 cq0 p' sq cq :
  0 < EINVAL ->
  0 <= entries < 2 ^ 32 ->
  0 <= cq_entries p < 2 ^ 32 ->
  get_sq_cq_entries entries p sq0 cq0 = (0, p', sq, cq) ->
  1 <= sq <= KERN_MAX_ENTRIES /\ 1 <= cq <= KERN_MAX_CQ_ENTRIES.
Proof.
  intros He Hent Hcqe H.
  destruct (get_sq_cq_entries_cases _ _ _ _ _ _ _ _ H) as [_ [Hf|Hs]]; [lia|].
  destruct Hs as (_ & Hnz & _ & Hsq & Hcq).
  unfold KERN_MAX_CQ_ENTRIES, KERN_MAX_ENTRIES in *.
  destruct (roundup_pow2_spec (Z.min entries 32768)) as [[_ [Hge Hl]] _]; [lia|].
  rewrite <- Hsq in *.
  assert (Hsq_le : sq <= 32768)
    by (apply Hl; [exists 15; split; [lia|reflexivity]|lia]).
  split; [lia|].
  destruct Hcq as [[_ Ec]|(_ & Cnz & _ & Ec & Hle)].
  - rewrite u32_small in Ec by lia. lia.
  - destruct (roundup_pow2_spec (Z.min (cq_entries p) (2 * 32768)))
      as [[_ [Hcge Hcl]] _]; [lia|].
    rewrite <- Ec in *.
    assert (cq <= 65536)
      by (apply Hcl; [exists 16; split; [lia|reflexivity]|lia]).
    lia.
Qed.

(** [C10]: when [get_sq_cq_entries] fails with a negative error, the cells
    [*sq] and [*cq] hold what they held before the call and the params
    structure is unchanged. *)
Theorem get_sq_cq_entries_failure_frame entries p sq0 cq0 r p' sq cq :
  get_sq_cq_entries entries p sq0 cq0 = (r, p', sq, cq) ->
  r < 0 ->
  p' = p /\ sq = sq0 /\ cq = cq0.
Proof.
  intros H Hneg.
  destruct (get_sq_cq_entries_cases _ _ _ _ _ _ _ _ H) as [Hp [Hf|Hs]].
  - tauto.
  - lia.
Qed.

(** [C4]: on success both negotiated depths are powers of two, the
    completion depth is at least the submission depth, and without
    [IORING_SETUP_CQSIZE] it is exactly twice the submission depth. *)
Theorem get_sq_cq_entries_pow2 entries p sq0 cq0 p' sq cq :
  0 < EINVAL ->
  0 <= entries < 2 ^ 32 ->
  0 <= cq_entries p < 2 ^ 32 ->
  get_sq_cq_entries entries p sq0 cq0 = (0, p', sq, cq) ->
  is_pow2 sq /\ is_pow2 cq /\ sq <= cq /\
  (has_flag (flags p) IORING_SETUP_CQSIZE = false -> cq = 2 * sq).
Proof.
  intros He Hent Hcqe H.
  destruct (get_sq_cq_entries_cases _ _ _ _ _ _ _ _ H) as [_ [Hf|Hs]]; [lia|].
  destruct Hs as (_ & Hnz & _ & Hsq & Hcq).
  unfold KERN_MAX_CQ_ENTRIES, KERN_MAX_ENTRIES in *.
  destruct (roundup_pow2_spec (Z.min entries 32768)) as [[Hp2 [Hge _]] Hub];
    [lia|].
  rewrite <- Hsq in *.
  assert (Hsq_le : sq <= 32768).
  { destruct Hp2 as [k [Hk Ek]].
    destruct (roundup_pow2_spec (Z.min entries 32768)) as [[_ [_ Hl]] _]; [lia|].
    rewrite <- Hsq in Hl. apply Hl; [exists 15; split; [lia|reflexivity]|lia]. }
  destruct Hcq as [[Hno Ec]|(Hyes & Cnz & _ & Ec & Hle)].
  - rewrite u32_small in Ec by lia. subst cq.
    repeat split; try assumption; try lia.
    destruct Hp2 as [k [Hk Ek]]. exists (k + 1). split; [lia|].
    rewrite Z.pow_add_r by lia. lia.
  - destruct (roundup_pow2_spec (Z.min (cq_entries p) (2 * 32768)))
      as [[Hc2 _] _]; [lia|].
    rewrite <- Ec in Hc2.
    repeat split; try assumption. congruence.
Qed.

(** [C3]: [get_sq_cq_entries] returns [-EINVAL] for a zero depth and for a
    depth above [KERN_MAX_ENTRIES] without [IORING_SETUP_CLAMP]; with the
    clamp flag such a depth behaves as the ceiling itself; and a depth [d]
    with [1 <= d <= 32768] negotiates the least power of two that is at
    least [d] (and does succeed when no completion size is requested). *)
Theorem get_sq_cq_entries_depth entries p sq0 cq0 r p' sq cq :
  0 < EINVAL ->
  get_sq_cq_entries entries p sq0 cq0 = (r, p', sq, cq) ->
  (entries = 0 -> r = - EINVAL) /\
  (KERN_MAX_ENTRIES < entries ->
   has_flag (flags p) IORING_SETUP_CLAMP = false -> r = - EINVAL) /\
  (KERN_MAX_ENTRIES < entries ->
   has_flag (flags p) IORING_SETUP_CLAMP = true ->
   get_sq_cq_entries entries p sq0 cq0
     = get_sq_cq_entries KERN_MAX_ENTRIES p sq0 cq0
   /\ (r = 0 -> sq = KERN_MAX_ENTRIES)) /\
  (1 <= entries <= KERN_MAX_ENTRIES ->
   (r = 0 -> least_pow2_ge entries sq) /\
   (has_flag (flags p) IORING_SETUP_CQSIZE = false -> r = 0)).
Proof.
  intros He H.
  pose proof (get_sq_cq_entries_cases _ _ _ _ _ _ _ _ H) as [_ Hc].
  split; [|split; [|split]].
  - intros ->. destruct Hc as [Hf|Hs]; [tauto|]. destruct Hs as (_ & Hnz & _). lia.
  - intros Hbig Hno. destruct Hc as [Hf|Hs]; [tauto|].
    destruct Hs as (_ & _ & [Hle|Hcl] & _); [lia|congruence].
  - intros Hbig Hcl. split.
    + unfold get_sq_cq_entries.
      destruct (Z.eqb_spec entries 0); [unfold KERN_MAX_ENTRIES in *; lia|].
      destruct (Z.ltb_spec KERN_MAX_ENTRIES entries); [|lia].
      rewrite Hcl. reflexivity.
    + intros Hr. destruct Hc as [Hf|Hs]; [lia|].
      destruct Hs as (_ & _ & _ & Hsq & _).
      rewrite Z.min_r in Hsq by lia. rewrite Hsq. reflexivity.
  - intros Hrange. split.
    + intros Hr. destruct Hc as [Hf|Hs]; [lia|].
      destruct Hs as (_ & _ & _ & Hsq & _).
      rewrite Z.min_l in Hsq by lia. rewrite Hsq.
      apply roundup_pow2_spec. unfold KERN_MAX_ENTRIES in *. lia.
    + intros Hno. revert H. unfold get_sq_cq_entries.
      destruct (Z.eqb_spec entries 0); [lia|].
      destruct (Z.ltb_spec KERN_MAX_ENTRIES entries); [lia|].
      rewrite Hno. cbn [andb]. intros H'. inversion H'. reflexivity.
Qed.

End NegotiationFacts.

(** A request of depth 8 with an explicit completion depth of 4 fails
    after both depths were rounded; nothing is written. *)
Lemma get_sq_cq_entries_failure_frame_witness :
  @get_sq_cq_entries linux_uapi 8
    (Build_io_uring_params 0 4 8 0 zero_sqo zero_cqo) 7 9
  = (-22, Build_io_uring_params 0 4 8 0 zero_sqo zero_cqo, 7, 9)
  /\ (Build_io_uring_params 0 4 8 0 zero_sqo zero_cqo
      = Build_io_uring_params 0 4 8 0 zero_sqo zero_cqo /\ 7 = 7 /\ 9 = 9).
Proof.
  split; [reflexivity|].
  apply (@get_sq_cq_entries_failure_frame linux_uapi 8
           (Build_io_uring_params 0 4 8 0 zero_sqo zero_cqo) 7 9 (-22));
    [reflexivity|lia].
Defined.

(** A request of depth 1000 negotiates 1024 and 2048. *)
Lemma get_sq_cq_entries_pow2_witness :
  @get_sq_cq_entries linux_uapi 1000 zero_params 0 0 = (0, zero_params, 1024, 2048)
  /\ is_pow2 1024 /\ is_pow2 2048 /\ 1024 <= 2048.
Proof.
  split; [reflexivity|].
  destruct (@get_sq_cq_entries_pow2 linux_uapi 1000 zero_params 0 0
              zero_params 1024 2048) as (H1 & H2 & H3 & _);
    [reflexivity|lia|cbn; lia|reflexivity|].
  auto.
Defined.

Lemma get_sq_cq_entries_depth_witness :
  @get_sq_cq_entries linux_uapi 1000 zero_params 0 0 = (0, zero_params, 1024, 2048)
  /\ least_pow2_ge 1000 1024.
Proof.
  split; [reflexivity|].
  destruct (@get_sq_cq_entries_depth linux_uapi 1000 zero_params 0 0
              0 zero_params 1024 2048) as (_ & _ & _ & H);
    [reflexivity|reflexivity|].
  apply H; [unfold KERN_MAX_ENTRIES; lia|reflexivity].
Defined.

(** ** Layout computation *)

(** Masking with [~(2 ^ k - 1)] in 64 bits clears the low [k] bits. *)
Lemma land_lnot_mask (k x : Z) :
  0 <= k -> 0 <= x < 2 ^ 64 ->
  Z.land x (u64 (Z.lnot (2 ^ k - 1))) = x / 2 ^ k * 2 ^ k.
Proof.
  intros Hk Hx.
  rewrite <- Z.shiftr_div_pow2, <- Z.shiftl_mul_pow2 by lia.
  apply Z.bits_inj'. intros n Hn.
  rewrite Z.land_spec. unfold u64.
  replace (2 ^ k - 1) with (Z.ones k) by (rewrite Z.ones_equiv; lia).
  destruct (Z.lt_ge_cases n k) as [Hlo|Hhi].
  - rewrite Z.shiftl_spec_low by lia.
    destruct (Z.lt_ge_cases n 64).
    + rewrite Z.mod_pow2_bits_low, Z.lnot_spec, Z.ones_spec_low by lia.
      apply andb_false_r.
    + rewrite Z.mod_pow2_bits_high by lia. apply andb_false_r.
  - rewrite Z.shiftl_spec, Z.shiftr_spec by lia.
    replace (n - k + k) with n by lia.
    destruct (Z.lt_ge_cases n 64).
    + rewrite Z.mod_pow2_bits_low, Z.lnot_spec, Z.ones_spec_high by lia.
      apply andb_true_r.
    + rewrite Z.mod_pow2_bits_high by lia.
      rewrite <- (Z.mod_small x (2 ^ 64)) by lia.
      rewrite Z.mod_pow2_bits_high by lia. reflexivity.
Qed.

Lemma pages_of_succ (size page_size : Z) :
  0 < page_size -> pages_of size page_size = (size - 1) / page_size + 1.
Proof.
  intros Hp. unfold pages_of.
  replace (size + page_size - 1) with (size - 1 + 1 * page_size) by lia.
  apply Z.div_add. lia.
Qed.

Lemma pow2_ceil_least (n : Z) : 1 <= n -> least_pow2_ge n (pow2_ceil n).
Proof.
  intros Hn. unfold pow2_ceil.
  pose proof (Z.log2_up_nonneg n) as Hl.
  split; [exists (Z.log2_up n); split; [lia|reflexivity]|].
  split.
  - destruct (Z.eq_dec n 1) as [->|]; [reflexivity|].
    apply Z.log2_up_spec. lia.
  - intros m [k [Hk ->]] Hm. apply Z.pow_le_mono_r; [lia|].
    apply Z.log2_up_le_pow2; lia.
Qed.

(** [1 << npages(size, page_size)] is the page count of [size] rounded up
    to a power of two. *)
Lemma npages_pow2 (size page_size : Z) :
  0 < page_size -> 0 < size < 2 ^ 31 ->
  u64 (Z.shiftl 1 (npages size page_size)) = pow2_ceil (pages_of size page_size)
  /\ 1 <= pow2_ceil (pages_of size page_size) <= 2 ^ 31.
Proof.
  intros Hp Hs. unfold npages.
  rewrite (u64_small (size - 1)) by lia.
  rewrite pages_of_succ by lia.
  set (q := (size - 1) / page_size).
  assert (Hq : 0 <= q < 2 ^ 31).
  { split; [apply Z.div_pos; lia|].
    apply Z.le_lt_trans with (size - 1); [|lia].
    apply Z.div_le_upper_bound; nia. }
  rewrite int_of_small by lia.
  destruct (Z.eq_dec q 0) as [->|Hne].
  - cbn. split; [reflexivity|lia].
  - destruct (fls_spec q ltac:(lia)) as [Hf Hb].
    unfold pow2_ceil.
    rewrite Z.log2_up_eqn by lia.
    replace (Z.pred (q + 1)) with q by lia.
    rewrite (Z.log2_unique q (__fls q - 1)); [|lia|].
    2:{ replace (Z.succ (__fls q - 1)) with (__fls q) by lia. exact Hb. }
    replace (Z.succ (__fls q - 1)) with (__fls q) by lia.
    rewrite Z.shiftl_1_l.
    assert (Hle : 2 ^ __fls q <= 2 ^ 31) by (apply Z.pow_le_mono_r; lia).
    assert (Hge : 1 <= 2 ^ __fls q)
      by (change 1 with (2 ^ 0); apply Z.pow_le_mono_r; lia).
    rewrite u64_small
      by (change (2 ^ 31) with 2147483648 in Hle;
          change (2 ^ 64) with 18446744073709551616; lia).
    split; [reflexivity|lia].
Qed.

Section LayoutFacts.
Context {U : Uapi}.

(** What [rings_size] computes, with the bounds other results need. *)
Lemma rings_size_layout entries cq_n page_size :
  0 < page_size < 2 ^ 32 ->
  0 < sizeof_io_uring_sqe * entries < 2 ^ 31 ->
  0 <= cq_n * sizeof_io_uring_cqe ->
  KRING_SIZE + cq_n * sizeof_io_uring_cqe + 63 < 2 ^ 31 ->
  rings_size entries cq_n page_size = rings_size_pow2 entries cq_n page_size
  /\ least_pow2_ge
       (pages_of (round_up (KRING_SIZE + cq_n * sizeof_io_uring_cqe) 64) page_size)
       (pow2_ceil
          (pages_of (round_up (KRING_SIZE + cq_n * sizeof_io_uring_cqe) 64) page_size))
  /\ least_pow2_ge
       (pages_of (sizeof_io_uring_sqe * entries) page_size)
       (pow2_ceil (pages_of (sizeof_io_uring_sqe * entries) page_size))
  /\ 0 <= rings_size_pow2 entries cq_n page_size <= 2 ^ 32 * page_size.
Proof.
  intros Hp Hsq Hcq0 Hcq.
  unfold rings_size, rings_size_pow2, KRING_SIZE in *.
  set (c := cq_n * sizeof_io_uring_cqe) in *.
  set (s := sizeof_io_uring_sqe * entries) in *.
  cbv zeta.
  rewrite (u64_small c) by lia.
  rewrite (u64_small (320 + c)) by lia.
  rewrite (u64_small (320 + c + 63)) by lia.
  rewrite (u64_small s) by lia.
  change 63 with (2 ^ 6 - 1) at 2.
  rewrite land_lnot_mask by lia.
  change (2 ^ 6) with 64.
  assert (Hr : (320 + c + 63) / 64 * 64 = round_up (320 + c) 64).
  { unfold round_up. f_equal. f_equal. lia. }
  rewrite Hr.
  assert (Hrb : 0 < round_up (320 + c) 64 < 2 ^ 31).
  { rewrite <- Hr. pose proof (Z.div_mod (320 + c + 63) 64 ltac:(lia)).
    pose proof (Z.mod_pos_bound (320 + c + 63) 64 ltac:(lia)). lia. }
  destruct (npages_pow2 (round_up (320 + c) 64) page_size ltac:(lia) Hrb)
    as [Ec Bc].
  destruct (npages_pow2 s page_size ltac:(lia) Hsq) as [Es Bs].
  rewrite Ec, Es.
  set (pc := pow2_ceil (pages_of (round_up (320 + c) 64) page_size)) in *.
  set (ps := pow2_ceil (pages_of s page_size)) in *.
  assert (Hb : 0 <= (pc + ps) * page_size <= 2 ^ 32 * page_size).
  { split; [apply Z.mul_nonneg_nonneg; lia|].
    apply Z.mul_le_mono_nonneg_r; lia. }
  rewrite (u64_small (pc + ps)) by lia.
  rewrite (u64_small ((pc + ps) * page_size))
    by (change (2 ^ 64) with (2 ^ 32 * 2 ^ 32); nia).
  split; [reflexivity|]. split; [|split].
  - apply pow2_ceil_least. rewrite pages_of_succ by lia.
    assert (0 <= (round_up (320 + c) 64 - 1) / page_size)
      by (apply Z.div_pos; lia). lia.
  - apply pow2_ceil_least. rewrite pages_of_succ by lia.
    assert (0 <= (s - 1) / page_size) by (apply Z.div_pos; lia). lia.
  - exact Hb.
Qed.

(** [C7], as amended: [rings_size] rounds the completion region (header
    plus completion entries, rounded to 64 bytes) and the submission-entry
    array up to whole pages, rounds each page count up to a power of two,
    and returns the sum of the two counts times the page size. *)
Theorem rings_size_pow2_pages entries cq_n page_size :
  0 < page_size < 2 ^ 32 ->
  0 < sizeof_io_uring_sqe * entries < 2 ^ 31 ->
  0 <= cq_n * sizeof_io_uring_cqe ->
  KRING_SIZE + cq_n * sizeof_io_uring_cqe + 63 < 2 ^ 31 ->
  rings_size entries cq_n page_size = rings_size_pow2 entries cq_n page_size
  /\ least_pow2_ge
       (pages_of (round_up (KRING_SIZE + cq_n * sizeof_io_uring_cqe) 64) page_size)
       (pow2_ceil
          (pages_of (round_up (KRING_SIZE + cq_n * sizeof_io_uring_cqe) 64) page_size))
  /\ least_pow2_ge
       (pages_of (sizeof_io_uring_sqe * entries) page_size)
       (pow2_ceil (pages_of (sizeof_io_uring_sqe * entries) page_size)).
Proof.
  intros Hp Hsq Hcq0 Hcq.
  destruct (rings_size_layout entries cq_n page_size Hp Hsq Hcq0 Hcq)
    as (H1 & H2 & H3 & _).
  auto.
Qed.

End LayoutFacts.

(** The layout of a depth of 256 with 512 completion entries on 4 KiB
    pages. *)
Lemma rings_size_pow2_pages_witness :
  @rings_size linux_uapi 256 512 4096 = @rings_size_pow2 linux_uapi 256 512 4096.
Proof.
  apply (@rings_size_pow2_pages linux_uapi 256 512 4096); vm_compute;
    try split; congruence.
Defined.

(** The layout of a depth of 1024 with default flags on 4 KiB pages:
    16 + 16 pages. *)
Example rings_size_1024 : @rings_size linux_uapi 1024 2048 4096 = 131072.
Proof. vm_compute. reflexivity. Qed.

(** [C7], as stated, fails: for 256 submission and 512 completion entries
    on 4 KiB pages the completion region takes 3 whole pages and the
    submission-entry array 4, seven pages in all, and [rings_size] returns
    eight pages. *)
Lemma rings_size_not_whole_pages :
  @rings_size linux_uapi 256 512 4096 = 32768 /\
  @rings_size_spec linux_uapi 256 512 4096 = 28672 /\
  @rings_size linux_uapi 256 512 4096 <> @rings_size_spec linux_uapi 256 512 4096.
Proof.
  split; [vm_compute; reflexivity|].
  split; [vm_compute; reflexivity|].
  vm_compute. discriminate.
Qed.

(** ** Region mapper *)

(** Reduction of field accesses and list bookkeeping. *)
Ltac fields_in H :=
  cbn [sq_khead sq_ktail sq_kring_mask sq_kring_entries sq_kflags sq_kdropped
       sq_array sq_sqes sq_ring_sz sq_ring_ptr
       cq_khead cq_ktail cq_kring_mask cq_kring_entries cq_kflags cq_koverflow
       cq_cqes cq_ring_sz cq_ring_ptr
       sq cq ring_flags ring_fd ring_features internal_flags
       sq_entries cq_entries flags features sq_off cq_off
       set_sq_ring_sz set_sq_ring_ptr set_sq_sqes set_cq_ring_sz
       set_cq_ring_ptr set_flags set_user_addrs set_queues set_internal_flags
       zero_ring zero_sq zero_cq
       fst snd app andb negb orb] in H.

Ltac fields :=
  cbn [sq_khead sq_ktail sq_kring_mask sq_kring_entries sq_kflags sq_kdropped
       sq_array sq_sqes sq_ring_sz sq_ring_ptr
       cq_khead cq_ktail cq_kring_mask cq_kring_entries cq_kflags cq_koverflow
       cq_cqes cq_ring_sz cq_ring_ptr
       sq cq ring_flags ring_fd ring_features internal_flags
       sq_entries cq_entries flags features sq_off cq_off
       set_sq_ring_sz set_sq_ring_ptr set_sq_sqes set_cq_ring_sz
       set_cq_ring_ptr set_flags set_user_addrs set_queues set_internal_flags
       zero_ring zero_sq zero_cq
       fst snd app andb negb orb].

(** Unfolding of the system-call layer. *)
Ltac run_sys_in H :=
  cbv [bind ret emit uring_munmap uring_close memset0 uring_mmap load
       ____sys_io_uring_setup] in H.

(** Case analysis on every test of a computation [H : m h = result]. *)
Ltac split_tests H :=
  repeat (fields_in H;
          match type of H with
          | context [if ?b then _ else _] =>
              let E := fresh "E" in destruct b eqn:E
          end);
  fields_in H;
  repeat match goal with
         | E : _ = true |- _ => progress (fields_in E)
         | E : _ = false |- _ => progress (fields_in E)
         end.

(** Naming of the answers of the operating system. *)
Ltac name_results K :=
  repeat match goal with
         | |- context [k_mmap K ?h ?a ?l ?p ?f ?d ?o] =>
             let r := fresh "r" in
             set (r := k_mmap K h a l p f d o) in *; clearbody r
         | _ : context [k_mmap K ?h ?a ?l ?p ?f ?d ?o] |- _ =>
             let r := fresh "r" in
             set (r := k_mmap K h a l p f d o) in *; clearbody r
         end.

(** Evaluation of the trace functions on an explicit trace. *)
Ltac crunch :=
  repeat (cbn [resident resident_from mmap_contract mmap_contract_from
               mmap_results In existsb filter app fst snd region_eqb
               andb orb negb] in *;
          repeat match goal with
                 | E : IS_ERR ?x = _ |- _ => progress (rewrite E in * )
                 end).

Ltac bool_facts :=
  repeat match goal with
         | H : _ && _ = true |- _ =>
             apply andb_true_iff in H; destruct H
         | H : _ || _ = false |- _ =>
             apply orb_false_iff in H; destruct H
         | H : negb _ = true |- _ => apply negb_true_iff in H
         | H : negb _ = false |- _ => apply negb_false_iff in H
         | H : (_ =? _) = true |- _ => apply Z.eqb_eq in H
         | H : (_ =? _) = false |- _ => apply Z.eqb_neq in H
         | H : _ && _ = false |- _ =>
             apply andb_false_iff in H; destruct H
         | H : _ || _ = true |- _ =>
             apply orb_true_iff in H; destruct H
         end.

Section MapperFacts.
Context {U : Uapi}.
Variable K : kernel.

Lemma io_uring_mmap_single fd p s c h r s' c' evs :
  has_flag (features p) IORING_FEAT_SINGLE_MMAP = true ->
  io_uring_mmap K fd p s c h = (r, s', c', evs) ->
  let sz := Z.max (sq_region_size p) (cq_region_size p) in
  sq_ring_sz s' = sz /\ cq_ring_sz c' = sz /\
  ((IS_ERR (sq_ring_ptr s') = true /\
    mmaps evs = [ring_mapping fd sz IORING_OFF_SQ_RING (sq_ring_ptr s')])
   \/
   (IS_ERR (sq_ring_ptr s') = false /\
    cq_ring_ptr c' = sq_ring_ptr s' /\
    mmaps evs = [ring_mapping fd sz IORING_OFF_SQ_RING (sq_ring_ptr s');
                 ring_mapping fd (sqes_size p) IORING_OFF_SQES (sq_sqes s')])).
Proof.
  intros Hs H. unfold io_uring_mmap in H. rewrite Hs in H.
  cbn [andb] in H. cbv zeta in H.
  fold (sq_region_size p) in H. fold (cq_region_size p) in H.
  fold (sqes_size p) in H.
  fields_in H.
  assert (Hmax : (if sq_region_size p <? cq_region_size p
                  then cq_region_size p else sq_region_size p)
                 = Z.max (sq_region_size p) (cq_region_size p))
    by (destruct (Z.ltb_spec (sq_region_size p) (cq_region_size p)); lia).
  destruct (sq_region_size p <? cq_region_size p);
    fields_in H;
    rewrite Hmax in H; clear Hmax;
    set (sz := Z.max (sq_region_size p) (cq_region_size p)) in *;
    unfold io_uring_unmap_rings, io_uring_setup_ring_pointers in H;
    run_sys_in H; split_tests H.
  all: inversion H; subst; clear H; fields; cbv zeta;
    cbn [mmaps filter is_mmap app]; unfold ring_mapping;
    split; [reflexivity|split; [reflexivity|]];
    first [left; split; [assumption|reflexivity]
          |right; split; [assumption|split; reflexivity]].
Qed.

Lemma io_uring_mmap_dual fd p s c h r s' c' evs :
  has_flag (features p) IORING_FEAT_SINGLE_MMAP = false ->
  io_uring_mmap K fd p s c h = (r, s', c', evs) ->
  sq_ring_sz s' = sq_region_size p /\ cq_ring_sz c' = cq_region_size p /\
  ((IS_ERR (sq_ring_ptr s') = true /\
    mmaps evs =
      [ring_mapping fd (sq_region_size p) IORING_OFF_SQ_RING (sq_ring_ptr s')])
   \/
   (IS_ERR (sq_ring_ptr s') = false /\
    exists a,
      mmaps evs =
        ring_mapping fd (sq_region_size p) IORING_OFF_SQ_RING (sq_ring_ptr s')
        :: ring_mapping fd (cq_region_size p) IORING_OFF_CQ_RING a
        :: (if IS_ERR a then []
            else [ring_mapping fd (sqes_size p) IORING_OFF_SQES (sq_sqes s')])
      /\ cq_ring_ptr c' = if IS_ERR a then 0 else a)).
Proof.
  intros Hs H. unfold io_uring_mmap in H. rewrite Hs in H.
  cbn [andb] in H. cbv zeta in H.
  fold (sq_region_size p) in H. fold (cq_region_size p) in H.
  fold (sqes_size p) in H.
  unfold io_uring_unmap_rings, io_uring_setup_ring_pointers in H.
  run_sys_in H. split_tests H.
  all: inversion H; subst; clear H; fields;
    cbn [mmaps filter is_mmap app]; unfold ring_mapping;
    split; [reflexivity|split; [reflexivity|]];
    first [left; split; [assumption|reflexivity]
          |right; split; [assumption|];
           match goal with
           | |- context [Mmap _ _ _ _ _ IORING_OFF_CQ_RING ?a] => exists a
           end;
           repeat match goal with
                  | E : IS_ERR ?x = _ |- context [IS_ERR ?x] => rewrite E
                  end;
           split; reflexivity].
Qed.

(** [C5]: with [IORING_FEAT_SINGLE_MMAP] the mapper issues one ring-region
    mapping, of the larger of the two region sizes, records that size for
    both rings and gives the completion ring the base address of the
    submission ring (the only other mapping is the submission-entry array);
    without it the two rings are mapped by two shared populate-on-map
    calls, each of its own size, at the offsets of the two rings. *)
Theorem io_uring_mmap_region_calls fd p s c h r s' c' evs :
  io_uring_mmap K fd p s c h = (r, s', c', evs) ->
  (has_flag (features p) IORING_FEAT_SINGLE_MMAP = true ->
   let sz := Z.max (sq_region_size p) (cq_region_size p) in
   sq_ring_sz s' = sz /\ cq_ring_sz c' = sz /\
   ((IS_ERR (sq_ring_ptr s') = true /\
     mmaps evs = [ring_mapping fd sz IORING_OFF_SQ_RING (sq_ring_ptr s')])
    \/
    (IS_ERR (sq_ring_ptr s') = false /\
     cq_ring_ptr c' = sq_ring_ptr s' /\
     mmaps evs = [ring_mapping fd sz IORING_OFF_SQ_RING (sq_ring_ptr s');
                  ring_mapping fd (sqes_size p) IORING_OFF_SQES (sq_sqes s')])))
  /\
  (has_flag (features p) IORING_FEAT_SINGLE_MMAP = false ->
   sq_ring_sz s' = sq_region_size p /\ cq_ring_sz c' = cq_region_size p /\
   ((IS_ERR (sq_ring_ptr s') = true /\
     mmaps evs =
       [ring_mapping fd (sq_region_size p) IORING_OFF_SQ_RING (sq_ring_ptr s')])
    \/
    (IS_ERR (sq_ring_ptr s') = false /\
     exists a,
       mmaps evs =
         ring_mapping fd (sq_region_size p) IORING_OFF_SQ_RING (sq_ring_ptr s')
         :: ring_mapping fd (cq_region_size p) IORING_OFF_CQ_RING a
         :: (if IS_ERR a then []
             else [ring_mapping fd (sqes_size p) IORING_OFF_SQES (sq_sqes s')])
       /\ cq_ring_ptr c' = if IS_ERR a then 0 else a))).
Proof.
  intros H. split; intros Hs.
  - exact (io_uring_mmap_single _ _ _ _ _ _ _ _ _ Hs H).
  - exact (io_uring_mmap_dual _ _ _ _ _ _ _ _ _ Hs H).
Qed.

Lemma io_uring_mmap_unwinds_parts fd p s c h r s' c' evs :
  io_uring_mmap K fd p s c h = (r, s', c', evs) ->
  mmap_contract evs = true ->
  (r <> 0 ->
   exists x, In x (mmap_results evs) /\ IS_ERR x = true /\ r = PTR_ERR x) /\
  ((exists x, In x (mmap_results evs) /\ IS_ERR x = true) -> resident evs = []).
Proof.
  intros H Hc. unfold io_uring_mmap in H. cbv zeta in H.
  fold (sq_region_size p) in H. fold (cq_region_size p) in H.
  fold (sqes_size p) in H.
  unfold io_uring_unmap_rings, io_uring_setup_ring_pointers in H.
  run_sys_in H. split_tests H.
  all: inversion H; subst; clear H.
  all: name_results K.
  all: split; [intros Hr|intros [x [Hin Hx]]].
  all: crunch.
  all: bool_facts.
  all: try congruence.
  all: try (eexists; split; [|split; [eassumption|reflexivity]]; tauto).
  all: try solve [intuition (subst; congruence)].
  all: unfold region_eqb; cbn [fst snd]; rewrite ?Z.eqb_refl;
    cbn [andb negb filter fst snd].
  all: try reflexivity.
  destruct (Z.eqb_spec r1 r0); [congruence|].
  cbn [andb negb filter fst snd]. rewrite !Z.eqb_refl. reflexivity.
Qed.

(** A run of [io_uring_mmap] in which a mapping fails returns the error
    code of a failed mapping. *)
Lemma io_uring_mmap_failure_code fd p s c h r s' c' evs :
  io_uring_mmap K fd p s c h = (r, s', c', evs) ->
  (exists x, In x (mmap_results evs) /\ IS_ERR x = true) ->
  exists x, In x (mmap_results evs) /\ IS_ERR x = true /\ r = PTR_ERR x.
Proof.
  intros H Hfail. unfold io_uring_mmap in H. cbv zeta in H.
  unfold io_uring_unmap_rings, io_uring_setup_ring_pointers in H.
  run_sys_in H. split_tests H.
  all: inversion H; subst; clear H.
  all: name_results K.
  all: cbn [mmap_results app] in Hfail |- *.
  all: first
    [ match goal with
      | E : IS_ERR ?x = true |- _ =>
          exists x; split; [cbn [In]; tauto|split; [exact E|reflexivity]]
      end
    | exfalso; destruct Hfail as (x & Hin & Hx); cbn [In] in Hin;
      repeat destruct Hin as [Hin|Hin]; try contradiction;
      subst x; congruence ].
Qed.

(** [C6]: when a mapping call of [io_uring_mmap] fails, no mapping made
    by the same call is left resident and the call returns the error code
    of a failed mapping, which is negative when error pointers carry
    negative codes; and a non-zero return value is the error code of a
    failed mapping. The operating system is assumed to keep the contract
    of [mmap(2)] on the calls of this run. *)
Theorem io_uring_mmap_unwinds fd p s c h r s' c' evs :
  io_uring_mmap K fd p s c h = (r, s', c', evs) ->
  mmap_contract evs = true ->
  ((exists x, In x (mmap_results evs) /\ IS_ERR x = true) ->
   resident evs = [] /\
   (exists x, In x (mmap_results evs) /\ IS_ERR x = true /\ r = PTR_ERR x) /\
   ((forall y, IS_ERR y = true -> PTR_ERR y < 0) -> r < 0))
  /\
  (r <> 0 ->
   resident evs = [] /\
   exists x, In x (mmap_results evs) /\ IS_ERR x = true /\ r = PTR_ERR x).
Proof.
  intros H Hc.
  destruct (io_uring_mmap_unwinds_parts _ _ _ _ _ _ _ _ _ H Hc) as [H1 H2].
  split.
  - intros Hfail.
    destruct (io_uring_mmap_failure_code _ _ _ _ _ _ _ _ _ H Hfail)
      as (x & Hin & Hx & Hv).
    split; [exact (H2 Hfail)|].
    split; [exists x; auto|].
    intros Hneg. rewrite Hv. exact (Hneg x Hx).
  - intros Hr. destruct (H1 Hr) as [x (Hin & Hx & Hv)].
    split; [apply H2; exists x; auto|exists x; auto].
Qed.

End MapperFacts.

(** A ring of depth 8 whose kernel reports the single-mapping feature. *)
Lemma io_uring_mmap_region_calls_witness :
  exists r s' c' evs,
    @io_uring_mmap linux_uapi (example_kernel (fun _ _ => false) 3 1) 3
      (filled_params 8 zero_params 1) zero_sq zero_cq [] = (r, s', c', evs)
    /\ sq_ring_sz s' = 320 /\ cq_ring_sz c' = 320
    /\ cq_ring_ptr c' = sq_ring_ptr s'
    /\ length (mmaps evs) = 2%nat.
Proof.
  do 4 eexists. split; [reflexivity|].
  destruct (@io_uring_mmap_region_calls linux_uapi
              (example_kernel (fun _ _ => false) 3 1) 3
              (filled_params 8 zero_params 1) zero_sq zero_cq [] _ _ _ _ eq_refl)
    as [Hsingle _].
  destruct (Hsingle eq_refl) as (Hs & Hc & [[Herr _]|(_ & Hp & Hm)]).
  - discriminate Herr.
  - split; [exact Hs|]. split; [exact Hc|]. split; [exact Hp|].
    rewrite Hm. reflexivity.
Defined.

(** On Linux an error pointer decodes to a negative error code. *)
Lemma linux_ptr_err_negative x :
  @IS_ERR linux_uapi x = true -> @PTR_ERR linux_uapi x < 0.
Proof.
  cbn [IS_ERR PTR_ERR linux_uapi]. intros H. apply Z.leb_le in H.
  unfold u64 in H. unfold int_of, u32.
  assert (Hb : 0 <= x mod 2 ^ 64 < 2 ^ 64) by (apply Z.mod_pos_bound; lia).
  assert (E : x mod 2 ^ 32 = x mod 2 ^ 64 - (2 ^ 32 - 1) * 2 ^ 32).
  { symmetry.
    apply Z.mod_unique with (q := 2 ^ 32 * (x / 2 ^ 64) + (2 ^ 32 - 1));
      [lia|].
    pose proof (Z.div_mod x (2 ^ 64) ltac:(lia)). lia. }
  rewrite E.
  destruct (Z.ltb_spec (x mod 2 ^ 64 - (2 ^ 32 - 1) * 2 ^ 32) (2 ^ 31)); lia.
Qed.

Lemma linux_ptr_err_nonzero x :
  @IS_ERR linux_uapi x = true -> @PTR_ERR linux_uapi x <> 0.
Proof. intros H. apply linux_ptr_err_negative in H. lia. Qed.

(** A ring of depth 8 whose completion-ring mapping fails. *)
Lemma io_uring_mmap_unwinds_witness :
  exists r s' c' evs,
    @io_uring_mmap linux_uapi
      (example_kernel (fun _ off => off =? 134217728) 3 0) 3
      (filled_params 8 zero_params 0) zero_sq zero_cq [] = (r, s', c', evs)
    /\ r = -12
    /\ length (mmaps evs) = 2%nat
    /\ @resident linux_uapi evs = []
    /\ r < 0.
Proof.
  do 4 eexists. split; [reflexivity|].
  split; [reflexivity|]. split; [reflexivity|].
  destruct (@io_uring_mmap_unwinds linux_uapi
              (example_kernel (fun _ off => off =? 134217728) 3 0) 3
              (filled_params 8 zero_params 0) zero_sq zero_cq [] _ _ _ _
              eq_refl eq_refl) as [Hfail _].
  destruct Hfail as (Hres & _ & Hneg).
  - exists (ERR_PTR (-12)). split; [right; left; reflexivity|reflexivity].
  - split; [exact Hres|exact (Hneg linux_ptr_err_negative)].
Defined.

(** ** Contiguous allocator and ring life cycle *)

Lemma land_lor_same (a b : Z) : Z.land (Z.lor a b) b = b.
Proof.
  apply Z.bits_inj'. intros n _.
  rewrite Z.land_spec, Z.lor_spec.
  destruct (Z.testbit a n), (Z.testbit b n); reflexivity.
Qed.

Lemma has_flag_lor (a b : Z) : b <> 0 -> has_flag (Z.lor a b) b = true.
Proof.
  intros Hb. unfold has_flag. rewrite land_lor_same.
  destruct (Z.eqb_spec b 0); [contradiction|reflexivity].
Qed.

Lemma has_flag_zero (b : Z) : has_flag 0 b = false.
Proof. unfold has_flag. rewrite Z.land_0_l. reflexivity. Qed.

Section LifecycleFacts.
Context {U : Uapi}.
Variable K : kernel.

(** The allocator on a caller-supplied buffer: either it fails before any
    effect, or the submission-entry array is the buffer itself, both
    recorded ring sizes are zero, the only effect is the clearing of the
    buffer, and the flags of the params structure are untouched. *)
Lemma io_uring_alloc_huge_app_mem entries p s c buf buf_size h r p' s' c' evs :
  0 < EINVAL -> 0 < ENOMEM -> buf <> 0 ->
  io_uring_alloc_huge K entries p s c buf buf_size h = (r, p', s', c', evs) ->
  (r < 0 /\ evs = []) \/
  (sq_sqes s' = buf /\ sq_ring_sz s' = 0 /\ cq_ring_sz c' = 0 /\
   cq_ring_ptr c' = sq_ring_ptr s' /\
   flags p' = flags p /\ evs = [Memset buf buf_size]).
Proof.
  intros He Hm Hb H. unfold io_uring_alloc_huge in H.
  destruct (get_sq_cq_entries entries p 0 0) as [[[r0 p0] sq_n] cq_n] eqn:Hn.
  destruct (get_sq_cq_entries_cases _ _ _ _ _ _ _ _ Hn) as [-> Hcase].
  destruct (Z.eqb_spec buf 0) as [|_]; [contradiction|].
  cbv zeta in H. run_sys_in H. split_tests H.
  all: injection H as <- <- <- <- <-; fields.
  all: try (left; split; [lia|reflexivity]).
  all: try (right; repeat split; reflexivity).
  all: lia.
Qed.

(** [C1], on the code: a ring that [io_uring_queue_init_mem] set up in a
    caller-supplied buffer (ring creation succeeded and left
    [IORING_SETUP_NO_MMAP] in the params) carries the caller-memory mark,
    and its tear-down closes the descriptor and then unmaps
    [huge_page_size] bytes at the address of the caller's buffer. *)
Theorem io_uring_queue_exit_unmaps_app_mem
    entries ring p buf buf_size h r ring' p' evs :
  0 < EINVAL -> 0 < ENOMEM -> buf <> 0 ->
  io_uring_queue_init_mem K entries ring p buf buf_size h = (r, ring', p', evs) ->
  0 <= r ->
  has_flag (flags p') IORING_SETUP_NO_MMAP = true ->
  has_flag (internal_flags ring') IORING_INT_FLAG_APP_MEM
    = negb (IORING_INT_FLAG_APP_MEM =? 0)
  /\ forall h',
       io_uring_queue_exit K ring' h'
       = (tt, [Close (ring_fd ring'); Munmap buf huge_page_size]).
Proof.
  intros He Hm Hb H Hr Hf.
  assert (Hnz : IORING_SETUP_NO_MMAP <> 0).
  { intros Hz. unfold has_flag in Hf. rewrite Hz, Z.land_0_r in Hf. discriminate. }
  unfold io_uring_queue_init_mem, __io_uring_queue_init_params in H.
  cbv zeta in H. fields_in H. rewrite (has_flag_lor _ _ Hnz) in H.
  run_sys_in H.
  destruct (io_uring_alloc_huge K entries
              (set_flags p (Z.lor (flags p) IORING_SETUP_NO_MMAP))
              zero_sq zero_cq buf buf_size h)
    as [[[[r1 p1] s1] c1] e1] eqn:Ha.
  destruct (Z.eqb_spec buf 0) as [|_]; [contradiction|].
  destruct (Z.ltb_spec r1 0) as [Hneg|Hpos]; fields_in H.
  { destruct (Z.ltb_spec r1 0); [|lia]. injection H as <- <- <- <-. lia. }
  destruct (Z.ltb_spec r1 0); [lia|].
  match type of H with
  | context [k_setup K ?hh entries p1] =>
      destruct (k_setup K hh entries p1) as [fd p2] eqn:Hk
  end.
  cbn [fst] in H.
  destruct (io_uring_alloc_huge_app_mem _ _ _ _ _ _ _ _ _ _ _ _ He Hm Hb Ha)
    as [[Hlt _]|(Hsqes & Hsz & Hcsz & Hcp & _ & _)]; [lia|].
  destruct (Z.ltb_spec fd 0) as [Hfd|Hfd].
  { unfold io_uring_unmap_rings in H. run_sys_in H. split_tests H.
    all: injection H as <- <- <- <-; lia. }
  destruct (has_flag (flags p2) IORING_SETUP_NO_MMAP) eqn:Hp2.
  2:{ cbn [negb] in H.
      destruct (io_uring_queue_mmap K fd p2 _ _) as [[r3 ring3] e3].
      split_tests H; injection H as <- <- <- <-; congruence. }
  unfold io_uring_setup_ring_pointers in H. split_tests H.
  all: injection H as <- <- <- <-; fields.
  all: split; [unfold has_flag; rewrite Z.land_diag; reflexivity|].
  all: intros h'; unfold io_uring_queue_exit, io_uring_unmap_rings; fields;
    rewrite Hsz, Hcsz, Hsqes; cbn [Z.eqb negb andb];
    rewrite andb_false_r; cbn [andb]; reflexivity.
Qed.

(** [C2], on the code: when ring creation fails after
    [io_uring_queue_init_mem] prepared a caller-supplied buffer (and
    [IORING_SETUP_NO_MMAP] is still in the params), the unwind unmaps
    [huge_page_size] bytes at the address of that buffer, although the
    handle carries the caller-memory mark. *)
Theorem io_uring_queue_init_mem_failure_unmaps_app_mem
    entries ring p buf buf_size h r ring' p' evs :
  0 < EINVAL -> 0 < ENOMEM -> buf <> 0 ->
  io_uring_queue_init_mem K entries ring p buf buf_size h = (r, ring', p', evs) ->
  setup_failed evs = true ->
  has_flag (flags p') IORING_SETUP_NO_MMAP = true ->
  r < 0 /\
  has_flag (internal_flags ring') IORING_INT_FLAG_APP_MEM
    = negb (IORING_INT_FLAG_APP_MEM =? 0) /\
  munmaps evs = [Munmap buf huge_page_size].
Proof.
  intros He Hm Hb H Hs Hf.
  assert (Hnz : IORING_SETUP_NO_MMAP <> 0).
  { intros Hz. unfold has_flag in Hf. rewrite Hz, Z.land_0_r in Hf. discriminate. }
  unfold io_uring_queue_init_mem, __io_uring_queue_init_params in H.
  cbv zeta in H. fields_in H. rewrite (has_flag_lor _ _ Hnz) in H.
  run_sys_in H.
  destruct (io_uring_alloc_huge K entries
              (set_flags p (Z.lor (flags p) IORING_SETUP_NO_MMAP))
              zero_sq zero_cq buf buf_size h)
    as [[[[r1 p1] s1] c1] e1] eqn:Ha.
  destruct (Z.eqb_spec buf 0) as [|_]; [contradiction|].
  destruct (io_uring_alloc_huge_app_mem _ _ _ _ _ _ _ _ _ _ _ _ He Hm Hb Ha)
    as [[Hlt ->]|(Hsqes & Hsz & Hcsz & Hcp & _ & ->)].
  { destruct (Z.ltb_spec r1 0); [|lia]. fields_in H.
    destruct (Z.ltb_spec r1 0); [|lia].
    injection H as <- <- <- <-. discriminate Hs. }
  destruct (Z.ltb_spec r1 0) as [Hneg|Hpos]; fields_in H.
  { destruct (Z.ltb_spec r1 0); [|lia]. injection H as <- <- <- <-.
    discriminate Hs. }
  destruct (Z.ltb_spec r1 0); [lia|].
  match type of H with
  | context [k_setup K ?hh entries p1] =>
      destruct (k_setup K hh entries p1) as [fd p2] eqn:Hk
  end.
  cbn [fst] in H.
  destruct (Z.ltb_spec fd 0) as [Hfd|Hfd].
  - unfold io_uring_unmap_rings in H. fields_in H.
    rewrite Hsz, Hcsz, has_flag_zero in H. cbn [Z.eqb negb andb] in H.
    rewrite andb_false_r, andb_true_r in H.
    destruct (has_flag (flags p2) IORING_SETUP_NO_MMAP) eqn:Hp2;
      run_sys_in H; fields_in H; injection H as <- <- <- <-; fields;
      [|congruence].
    split; [assumption|].
    split; [unfold has_flag; rewrite Z.land_diag; reflexivity|].
    rewrite Hsqes. reflexivity.
  - destruct (has_flag (flags p2) IORING_SETUP_NO_MMAP) eqn:Hp2.
    2:{ cbn [negb] in H.
        destruct (io_uring_queue_mmap K fd p2 _ _) as [[r3 ring3] e3].
        split_tests H; injection H as <- <- <- <-; congruence. }
    unfold io_uring_setup_ring_pointers in H. split_tests H.
    all: injection H as <- <- <- <-.
    all: cbn [setup_failed existsb app orb] in Hs.
    all: destruct (Z.ltb_spec fd 0); [lia|discriminate Hs].
Qed.

End LifecycleFacts.

(** A ring of depth 8 set up in a caller's buffer of 2 MiB at address
    [2097152], then torn down. *)
Lemma io_uring_queue_exit_unmaps_app_mem_witness :
  exists r ring' p' evs,
    @io_uring_queue_init_mem linux_uapi (example_kernel (fun _ _ => false) 3 0)
      8 zero_ring zero_params 2097152 2097152 [] = (r, ring', p', evs)
    /\ r = 8192
    /\ internal_flags ring' = 1
    /\ @io_uring_queue_exit linux_uapi (example_kernel (fun _ _ => false) 3 0)
         ring' evs
       = (tt, [Close 3; Munmap 2097152 2097152]).
Proof.
  do 4 eexists. split; [reflexivity|].
  split; [reflexivity|]. split; [reflexivity|].
  destruct (@io_uring_queue_exit_unmaps_app_mem linux_uapi
              (example_kernel (fun _ _ => false) 3 0)
              8 zero_ring zero_params 2097152 2097152 [] _ _ _ _
              ltac:(reflexivity) ltac:(reflexivity) ltac:(discriminate)
              eq_refl ltac:(discriminate) eq_refl) as [_ Hexit].
  apply Hexit.
Defined.

(** The same set-up on a system whose ring creation fails with [ENOMEM]. *)
Lemma io_uring_queue_init_mem_failure_unmaps_app_mem_witness :
  exists r ring' p' evs,
    @io_uring_queue_init_mem linux_uapi (example_kernel (fun _ _ => false) (-12) 0)
      8 zero_ring zero_params 2097152 2097152 [] = (r, ring', p', evs)
    /\ r = -12
    /\ internal_flags ring' = 1
    /\ munmaps evs = [Munmap 2097152 2097152].
Proof.
  do 4 eexists. split; [reflexivity|].
  split; [reflexivity|]. split; [reflexivity|].
  destruct (@io_uring_queue_init_mem_failure_unmaps_app_mem linux_uapi
              (example_kernel (fun _ _ => false) (-12) 0)
              8 zero_ring zero_params 2097152 2097152 [] _ _ _ _
              ltac:(reflexivity) ltac:(reflexivity) ltac:(discriminate)
              eq_refl eq_refl eq_refl) as (_ & _ & Hm).
  exact Hm.
Defined.

(** ** Contiguous allocator *)

Section AllocatorFacts.
Context {U : Uapi}.
Variable K : kernel.

(** Rounding up to a page with the mask of the source. *)
Lemma page_round (k x : Z) :
  0 <= k <= 20 -> 0 <= x < 2 ^ 62 ->
  Z.land (u64 (x + u64 (2 ^ k) - 1)) (u64 (Z.lnot (u64 (2 ^ k) - 1)))
  = round_up x (2 ^ k)
  /\ x <= round_up x (2 ^ k) < x + 2 ^ k.
Proof.
  intros Hk Hx.
  assert (Hp : 0 < 2 ^ k <= 2 ^ 20)
    by (split; [apply Z.pow_pos_nonneg; lia|apply Z.pow_le_mono_r; lia]).
  rewrite (u64_small (2 ^ k)) by lia.
  rewrite (u64_small (x + 2 ^ k - 1)) by lia.
  rewrite land_lnot_mask by lia.
  unfold round_up. split; [reflexivity|].
  pose proof (Z.div_mod (x + 2 ^ k - 1) (2 ^ k) ltac:(lia)).
  pose proof (Z.mod_pos_bound (x + 2 ^ k - 1) (2 ^ k) ltac:(lia)).
  lia.
Qed.

(** [C9], on the code: on a caller-supplied buffer the allocator fails
    with [-ENOMEM] exactly when the buffer is smaller than the bytes the
    layout occupies (the page-rounded submission-entry array plus the ring
    region); when it succeeds the ring region starts right after the
    page-rounded array, and the value returned is the page-rounded sum of
    that array, the submission index array and four bytes per completion
    entry, which is not the page-rounded number of bytes occupied. *)
Theorem io_uring_alloc_huge_result
    entries p s c buf buf_size h r p' s' c' evs k p1 sq_n cq_n :
  0 < EINVAL ->
  0 <= entries < 2 ^ 32 ->
  0 <= cq_entries p < 2 ^ 32 ->
  get_page_size = 2 ^ k -> 0 <= k <= 20 ->
  0 <= sizeof_io_uring_sqe <= 4096 ->
  0 <= sizeof_io_uring_cqe <= 2048 ->
  buf <> 0 ->
  get_sq_cq_entries entries p 0 0 = (0, p1, sq_n, cq_n) ->
  io_uring_alloc_huge K entries p s c buf buf_size h = (r, p', s', c', evs) ->
  (buf_size < alloc_huge_consumed sq_n cq_n -> r = - ENOMEM /\ evs = []) /\
  (alloc_huge_consumed sq_n cq_n <= buf_size ->
   sq_sqes s' = buf /\
   sq_ring_ptr s' = buf + round_up (sq_n * sizeof_io_uring_sqe) get_page_size /\
   r = round_up (round_up (sq_n * sizeof_io_uring_sqe) get_page_size
                 + sq_n * sizeof_unsigned + cq_n * sizeof_unsigned)
         get_page_size).
Proof.
  intros He Hent Hcqe Hpg Hk Hsqe Hcqe_sz Hb Hn H.
  destruct (get_sq_cq_entries_bounds _ _ _ _ _ _ _ He Hent Hcqe Hn) as [Bs Bc].
  unfold KERN_MAX_CQ_ENTRIES, KERN_MAX_ENTRIES in Bs, Bc.
  unfold io_uring_alloc_huge in H. rewrite Hn in H.
  cbn [Z.eqb negb] in H.
  destruct (Z.eqb_spec buf 0) as [|_]; [contradiction|].
  cbv zeta in H. cbn [negb andb] in H.
  unfold alloc_huge_consumed, sizeof_unsigned in *. rewrite Hpg in *.
  set (A := sq_n * sizeof_io_uring_sqe) in *.
  set (B := cq_n * sizeof_io_uring_cqe) in *.
  assert (HA : 0 <= A <= 2 ^ 27) by (subst A; nia).
  assert (HB : 0 <= B <= 2 ^ 27) by (subst B; nia).
  assert (Hp : 0 < 2 ^ k <= 2 ^ 20)
    by (split; [apply Z.pow_pos_nonneg; lia|apply Z.pow_le_mono_r; lia]).
  rewrite (u64_small A) in H by lia.
  rewrite (u64_small B) in H by lia.
  destruct (page_round k A Hk ltac:(lia)) as [EA RA].
  rewrite EA in H.
  set (S1 := round_up A (2 ^ k)) in *.
  rewrite (u64_small (B + sq_n * 4)) in H by lia.
  rewrite (u64_small (S1 + (B + sq_n * 4))) in H by lia.
  rewrite (u64_small (sq_n * 4)) in H by lia.
  rewrite (u64_small (cq_n * 4)) in H by lia.
  rewrite (u64_small (0 + S1)) in H by lia.
  rewrite (int_of_small (0 + S1)) in H by lia.
  rewrite (u64_small (0 + S1 + sq_n * 4)) in H by lia.
  rewrite (int_of_small (0 + S1 + sq_n * 4)) in H by lia.
  rewrite (u64_small (0 + S1 + sq_n * 4 + cq_n * 4)) in H by lia.
  rewrite (int_of_small (0 + S1 + sq_n * 4 + cq_n * 4)) in H by lia.
  destruct (page_round k (0 + S1 + sq_n * 4 + cq_n * 4) Hk ltac:(lia)) as [EM RM].
  rewrite EM in H.
  rewrite int_of_small in H by lia.
  run_sys_in H.
  destruct (Z.ltb_spec buf_size (S1 + (B + sq_n * 4))) as [Hsmall|Hfit].
  - injection H as <- _ _ _ <-. split; [auto|lia].
  - fields_in H.
    destruct (Z.leb_spec (S1 + (B + sq_n * 4)) buf_size); [|lia].
    fields_in H. injection H as <- _ <- _ _. fields.
    split; [lia|]. intros _. repeat split.
Qed.

(** Ring creation and clearing do not change what is resident. *)
Lemma resident_from_skip acc l1 e l2 :
  is_mmap e = false -> is_munmap e = false ->
  resident_from acc (l1 ++ e :: l2) = resident_from acc (l1 ++ l2).
Proof.
  intros Hm Hu. revert acc.
  induction l1 as [|x l1 IH]; intros acc.
  - destruct e; try discriminate; reflexivity.
  - destruct x; cbn [app resident_from]; apply IH.
Qed.

(** The allocator without a caller's buffer: unmapping [huge_page_size]
    bytes at the submission-entry array and then the rings, as the unwind
    on a failed ring creation does, leaves nothing it mapped resident. *)
Lemma io_uring_alloc_huge_own entries p s c h r p' s' c' evs h' :
  io_uring_alloc_huge K entries p s c 0 0 h = (r, p', s', c', evs) ->
  setup_failed evs = false /\
  resident (evs ++ Munmap (sq_sqes s') huge_page_size
                :: snd (io_uring_unmap_rings s' c' h')) = [].
Proof.
  intros H. unfold io_uring_alloc_huge in H.
  destruct (get_sq_cq_entries entries p 0 0) as [[[r0 p0] sq_n] cq_n] eqn:Hn.
  destruct (get_sq_cq_entries_cases _ _ _ _ _ _ _ _ Hn) as [-> _].
  cbv zeta in H. cbn [Z.eqb negb andb] in H.
  run_sys_in H. split_tests H.
  all: injection H as <- <- <- <- <-; fields.
  all: split; [reflexivity|].
  all: unfold io_uring_unmap_rings; fields;
    cbv [bind ret emit uring_munmap]; name_results K.
  all: repeat match goal with
              | |- context [if ?b then _ else _] =>
                  let T := fresh "T" in
                  destruct b eqn:T;
                  try (rewrite ?andb_false_r in T; cbn in T; discriminate T)
              end.
  all: cbn [snd app]; crunch.
  all: unfold region_eqb; cbn [fst snd]; rewrite ?Z.eqb_refl;
    cbn [andb negb filter fst snd]; try reflexivity.
  all: match goal with
       | |- context [?a =? ?b] => destruct (a =? b)
       end;
    cbn [andb negb filter fst snd]; rewrite ?Z.eqb_refl; reflexivity.
Qed.

(** The self-allocated half of the unwinding on a failed ring creation:
    every region the allocator mapped is unmapped again. *)
Lemma io_uring_queue_init_params_failure_releases
    entries ring p h r ring' p' evs :
  has_flag (flags p) IORING_SETUP_NO_MMAP = true ->
  __io_uring_queue_init_params K entries ring p 0 0 h = (r, ring', p', evs) ->
  setup_failed evs = true ->
  has_flag (flags p') IORING_SETUP_NO_MMAP = true ->
  resident evs = [].
Proof.
  intros Hf H Hs Hf'.
  unfold __io_uring_queue_init_params in H. rewrite Hf in H.
  cbv zeta in H. cbn [Z.eqb negb] in H.
  unfold bind at 1 in H. unfold bind at 1 in H.
  destruct (io_uring_alloc_huge K entries p (sq zero_ring) (cq zero_ring) 0 0 h)
    as [[[[r1 p1] s1] c1] e1] eqn:Ha.
  assert (Hown := fun h' => io_uring_alloc_huge_own _ _ _ _ _ _ _ _ _ _ h' Ha).
  destruct (Hown []) as [Hns _].
  destruct (Z.ltb_spec r1 0) as [Hneg|Hpos]; cbv [ret] in H; fields_in H.
  { destruct (Z.ltb_spec r1 0); [|lia]. injection H as <- <- <- <-.
    rewrite !app_nil_r in Hs. congruence. }
  destruct (Z.ltb_spec r1 0); [lia|].
  run_sys_in H.
  match type of H with
  | context [k_setup K ?hh entries p1] =>
      destruct (k_setup K hh entries p1) as [fd p2] eqn:Hk
  end.
  cbn [fst] in H. rewrite has_flag_zero in H. cbn [negb] in H.
  rewrite andb_true_r in H.
  destruct (Z.ltb_spec fd 0) as [Hfd|Hfd].
  - destruct (has_flag (flags p2) IORING_SETUP_NO_MMAP) eqn:Hp2.
    + match type of H with
      | context [io_uring_unmap_rings s1 c1 ?hh] =>
          specialize (Hown hh);
          destruct (io_uring_unmap_rings s1 c1 hh) as [[] e2]
      end.
      injection H as <- <- <- <-. destruct Hown as [_ Hres].
      cbn [snd] in Hres. unfold resident in *.
      rewrite !app_nil_r. cbn [app].
      rewrite resident_from_skip by reflexivity. exact Hres.
    + injection H as <- <- <- <-. congruence.
  - destruct (has_flag (flags p2) IORING_SETUP_NO_MMAP) eqn:Hp2.
    2:{ cbn [negb] in H.
        destruct (io_uring_queue_mmap K fd p2 _ _) as [[r3 ring3] e3].
        split_tests H; injection H as <- <- <- <-; congruence. }
    unfold io_uring_setup_ring_pointers in H. split_tests H.
    all: injection H as <- <- <- <-.
    all: cbn [app] in Hs; rewrite ?app_nil_r in Hs.
    all: unfold setup_failed in *; rewrite existsb_app in Hs;
      rewrite Hns in Hs; cbn [existsb app orb] in Hs.
    all: destruct (Z.ltb_spec fd 0); [lia|discriminate Hs].
Qed.

End AllocatorFacts.

(** A depth of 256 in a caller's buffer on 4 KiB pages: the layout
    occupies the first 25600 bytes of the buffer (a buffer of 25599 bytes
    is refused, one of 25600 bytes is accepted), 28672 bytes when rounded
    to a page boundary, and the allocator returns 20480. *)
Lemma io_uring_alloc_huge_result_witness :
  exists r p' s' c' evs,
    @io_uring_alloc_huge linux_uapi (example_kernel (fun _ _ => false) 3 0)
      256 (set_flags zero_params 16384) zero_sq zero_cq 2097152 25600 []
    = (r, p', s', c', evs)
    /\ r = 20480
    /\ sq_ring_ptr s' - sq_sqes s' = 16384
    /\ @alloc_huge_consumed linux_uapi 256 512 = 25600
    /\ @alloc_huge_used_spec linux_uapi 256 512 = 28672
    /\ fst (fst (fst (fst
         (@io_uring_alloc_huge linux_uapi (example_kernel (fun _ _ => false) 3 0)
            256 (set_flags zero_params 16384) zero_sq zero_cq 2097152 25599 []))))
       = -12.
Proof.
  do 5 eexists. split; [lazy; reflexivity|].
  destruct (@io_uring_alloc_huge_result linux_uapi
              (example_kernel (fun _ _ => false) 3 0)
              256 (set_flags zero_params 16384) zero_sq zero_cq 2097152 25600 []
              _ _ _ _ _ 12 (set_flags zero_params 16384) 256 512
              ltac:(reflexivity) ltac:(lia) ltac:(cbn; lia)
              ltac:(reflexivity) ltac:(lia) ltac:(cbn; lia) ltac:(cbn; lia)
              ltac:(discriminate) ltac:(reflexivity) eq_refl) as [_ Hfit].
  destruct (Hfit ltac:(vm_compute; discriminate)) as (_ & _ & Hr).
  split; [etransitivity; [exact Hr|vm_compute; reflexivity]|].
  repeat split; vm_compute; reflexivity.
Defined.

(** ** Memlock estimate *)

Section MemlockFacts.
Context {U : Uapi}.
Variable K : kernel.

(** The throwaway ring of the estimate is created with zeroed params; what
    the params hold afterwards is what ring creation wrote. *)
Lemma probe_params entries ring h r ring' p' evs :
  io_uring_queue_init_params K entries ring zero_params h = (r, ring', p', evs) ->
  p' = snd (k_setup K h entries zero_params).
Proof.
  unfold io_uring_queue_init_params, __io_uring_queue_init_params.
  cbv zeta. fields. rewrite has_flag_zero.
  intros H. run_sys_in H. cbn [Z.ltb Z.compare app] in H.
  rewrite app_nil_r in H.
  destruct (k_setup K h entries zero_params) as [fd p2] eqn:Hk.
  cbn [fst snd] in *.
  unfold io_uring_unmap_rings, io_uring_setup_ring_pointers in H.
  run_sys_in H.
  destruct (fd <? 0).
  - split_tests H; injection H as <- <- <- <-; reflexivity.
  - destruct (has_flag (flags p2) IORING_SETUP_NO_MMAP); cbn [negb] in H.
    + split_tests H; injection H as <- <- <- <-; reflexivity.
    + destruct (io_uring_queue_mmap K fd p2 zero_ring _) as [[r3 ring3] e3].
      split_tests H; injection H as <- <- <- <-; reflexivity.
Qed.

(** [C8]: the estimate is [0] when the params written by the creation of
    the throwaway ring carry [IORING_FEAT_NATIVE_WORKERS], whatever that
    creation returned; otherwise it is the error of [get_sq_cq_entries] on
    the caller's depth and params when that fails, and [rings_size] of the
    negotiated depths and the page size when it succeeds. *)
Theorem io_uring_mlock_size_params_value entries p h r evs :
  0 < EINVAL ->
  0 <= entries < 2 ^ 32 ->
  0 <= cq_entries p < 2 ^ 32 ->
  0 < get_page_size < 2 ^ 31 ->
  0 < sizeof_io_uring_sqe < 2 ^ 16 ->
  0 <= sizeof_io_uring_cqe < 2 ^ 14 ->
  io_uring_mlock_size_params K entries p h = (r, evs) ->
  let lp := snd (k_setup K h entries zero_params) in
  (has_flag (features lp) IORING_FEAT_NATIVE_WORKERS = true -> r = 0) /\
  (has_flag (features lp) IORING_FEAT_NATIVE_WORKERS = false ->
   forall cret p' sq_n cq_n,
     get_sq_cq_entries entries p 0 0 = (cret, p', sq_n, cq_n) ->
     (cret = 0 -> r = rings_size sq_n cq_n get_page_size) /\
     (cret <> 0 -> cret = - EINVAL /\ r = - EINVAL)).
Proof.
  intros He Hent Hcqe Hpg Hsqe Hcqe_sz H lp.
  unfold io_uring_mlock_size_params in H. cbv zeta in H.
  unfold bind at 1 in H.
  destruct (io_uring_queue_init_params K entries zero_ring zero_params h)
    as [[[r0 ring0] lp0] e0] eqn:Hprobe.
  apply probe_params in Hprobe. fold lp in Hprobe. subst lp0.
  unfold bind at 1 in H.
  destruct ((if r0 =? 0 then io_uring_queue_exit K ring0 else ret tt) (h ++ e0))
    as [[] e1].
  destruct (has_flag (features lp) IORING_FEAT_NATIVE_WORKERS).
  { cbv [ret] in H. injection H as <- _. split; [reflexivity|discriminate]. }
  split; [discriminate|]. intros _ cret p' sq_n cq_n Hn.
  destruct (Z.eqb_spec entries 0) as [E0|E0].
  { cbv [ret] in H. injection H as <- _.
    unfold get_sq_cq_entries in Hn. subst entries. cbn [Z.eqb] in Hn.
    injection Hn as <- _ _ _. split; [lia|auto]. }
  destruct ((KERN_MAX_ENTRIES <? entries)
            && negb (has_flag (flags p) IORING_SETUP_CLAMP)) eqn:Ecl.
  { cbv [ret] in H. injection H as <- _.
    unfold get_sq_cq_entries in Hn.
    destruct (Z.eqb_spec entries 0); [contradiction|].
    rewrite Ecl in Hn. injection Hn as <- _ _ _. split; [lia|auto]. }
  rewrite (get_sq_cq_entries_clamped entries p 0 0 E0 Ecl), Hn in H.
  destruct (get_sq_cq_entries_cases _ _ _ _ _ _ _ _ Hn) as [-> Hc].
  destruct (Z.eqb_spec cret 0) as [Ec|Ec]; cbv [ret negb] in H;
    injection H as <- _.
  2:{ split; [contradiction|]. intros _.
      destruct Hc as [(-> & _)|(-> & _)]; [auto|contradiction]. }
  split; [|contradiction]. intros _. subst cret.
  destruct (get_sq_cq_entries_bounds _ _ _ _ _ _ _ He Hent Hcqe Hn) as [Bs Bc].
  unfold KERN_MAX_CQ_ENTRIES, KERN_MAX_ENTRIES in Bs, Bc.
  rewrite (long_of_small get_page_size) by lia.
  rewrite (u32_small get_page_size) by lia.
  destruct (rings_size_layout sq_n cq_n get_page_size) as (Heq & _ & _ & Hb);
    [lia|nia|nia|unfold KRING_SIZE; nia|].
  rewrite <- Heq in Hb.
  apply long_of_small.
  assert (2 ^ 32 * get_page_size < 2 ^ 32 * 2 ^ 31)
    by (apply Z.mul_lt_mono_pos_l; lia).
  change (2 ^ 63) with (2 ^ 32 * 2 ^ 31). lia.
Qed.

End MemlockFacts.

(** The estimate for a depth of 1024 on a system without native workers
    whose ring creation fails. *)
Lemma io_uring_mlock_size_params_value_witness :
  exists r evs,
    @io_uring_mlock_size_params linux_uapi
      (example_kernel (fun _ _ => false) (-12) 0) 1024 zero_params []
    = (r, evs)
    /\ r = @rings_size linux_uapi 1024 2048 4096.
Proof.
  do 2 eexists. split; [lazy; reflexivity|].
  destruct (@io_uring_mlock_size_params_value linux_uapi
              (example_kernel (fun _ _ => false) (-12) 0) 1024 zero_params []
              _ _
              ltac:(reflexivity) ltac:(lia) ltac:(cbn; lia)
              ltac:(cbn; lia) ltac:(cbn; lia) ltac:(cbn; lia) eq_refl)
    as [_ Hsize].
  destruct (Hsize eq_refl 0 zero_params 1024 2048 eq_refl) as [Hok _].
  exact (Hok eq_refl).
Defined.

(** * Further properties of the code *)

(** ** Bit length and rounding *)

(** [X1]: [__fls] of an [int]: [0] for zero, the bit length for a positive value
    and [32] for a negative one (whose top bit is set). *)
Theorem fls_bit_length (x : Z) :
  - 2 ^ 31 <= x < 2 ^ 31 ->
  __fls x = if x =? 0 then 0 else if x <? 0 then 32 else Z.log2 x + 1.
Proof.
  intros Hx. destruct (Z.eqb_spec x 0) as [->|Hnz]; [reflexivity|].
  destruct (Z.ltb_spec x 0) as [Hneg|Hpos].
  - unfold __fls, __builtin_clz.
    destruct (Z.eqb_spec x 0); [contradiction|].
    assert (Hu : u32 x = x + 2 ^ 32).
    { unfold u32. symmetry. apply (Z.mod_unique x (2 ^ 32) (-1)); lia. }
    rewrite Hu. change (clz_from 32 (x + 2 ^ 32))
      with (if Z.testbit (x + 2 ^ 32) 31 then 0
            else 1 + clz_from 31 (x + 2 ^ 32)).
    pose proof (top_bit_split 31 (x + 2 ^ 32) ltac:(lia) ltac:(simpl; lia)) as Hb.
    destruct (Z.testbit (x + 2 ^ 32) 31); [reflexivity|lia].
  - destruct (fls_spec x ltac:(lia)) as [Hf Hb].
    pose proof (Z.log2_unique x (__fls x - 1) ltac:(lia)) as Hl.
    replace (Z.succ (__fls x - 1)) with (__fls x) in Hl by lia.
    specialize (Hl Hb). lia.
Qed.

Lemma fls_bit_length_witness : __fls 5 = 3 /\ __fls (-1) = 32.
Proof.
  split.
  - exact (fls_bit_length 5 ltac:(lia)).
  - exact (fls_bit_length (-1) ltac:(lia)).
Defined.

(** [X2]: [roundup_pow2] returns the least power of two at or above a depth
    between [1] and [2 ^ 31], and leaves such a result unchanged when
    applied again. *)
Theorem roundup_pow2_least_idempotent (d : Z) :
  1 <= d <= 2 ^ 31 ->
  least_pow2_ge d (roundup_pow2 d)
  /\ roundup_pow2 (roundup_pow2 d) = roundup_pow2 d.
Proof.
  intros Hd.
  destruct (roundup_pow2_spec d Hd) as [Hl Hub].
  split; [exact Hl|].
  destruct Hl as (Hp & Hge & Hleast).
  destruct (roundup_pow2_spec (roundup_pow2 d) ltac:(lia)) as [(Hp' & Hge' & Hleast') _].
  apply Z.le_antisymm; [|exact Hge'].
  apply Hleast'; [exact Hp|lia].
Qed.

Lemma roundup_pow2_least_idempotent_witness :
  least_pow2_ge 1000 (roundup_pow2 1000)
  /\ roundup_pow2 (roundup_pow2 1000) = roundup_pow2 1000.
Proof. exact (roundup_pow2_least_idempotent 1000 ltac:(lia)). Defined.

(** ** Depth negotiation, explicit completion depth *)

Section NegotiationMore.
Context {U : Uapi}.

(** [X3]: with [IORING_SETUP_CQSIZE]: a zero completion depth and, without the
    clamp flag, one above [KERN_MAX_CQ_ENTRIES] are refused; for depths
    within both ceilings the call succeeds exactly when the rounded
    completion depth is not below the rounded submission depth; and every
    success yields the least power of two at or above the requested
    completion depth (clamped to the ceiling). *)
Theorem get_sq_cq_entries_cqsize entries p sq0 cq0 r p' sq cq :
  0 < EINVAL ->
  0 <= cq_entries p < 2 ^ 32 ->
  has_flag (flags p) IORING_SETUP_CQSIZE = true ->
  get_sq_cq_entries entries p sq0 cq0 = (r, p', sq, cq) ->
  (cq_entries p = 0 -> r = - EINVAL) /\
  (KERN_MAX_CQ_ENTRIES < cq_entries p ->
   has_flag (flags p) IORING_SETUP_CLAMP = false -> r = - EINVAL) /\
  (r = 0 ->
   least_pow2_ge (Z.min (cq_entries p) KERN_MAX_CQ_ENTRIES) cq /\ sq <= cq) /\
  (1 <= entries <= KERN_MAX_ENTRIES ->
   1 <= cq_entries p <= KERN_MAX_CQ_ENTRIES ->
   (r = 0 <-> roundup_pow2 entries <= roundup_pow2 (cq_entries p))).
Proof.
  intros He Hcqe Hq H.
  pose proof (get_sq_cq_entries_cases _ _ _ _ _ _ _ _ H) as [_ Hc].
  split; [|split; [|split]].
  - intros Hz. destruct Hc as [Hf|Hs]; [tauto|].
    destruct Hs as (_ & _ & _ & _ & [[Hno _]|(_ & Hnz & _)]); [congruence|lia].
  - intros Hbig Hno. destruct Hc as [Hf|Hs]; [tauto|].
    destruct Hs as (_ & _ & _ & _ & [[Hno' _]|(_ & _ & [Hle|Hcl] & _)]);
      [congruence|lia|congruence].
  - intros Hr. destruct Hc as [Hf|Hs]; [lia|].
    destruct Hs as (_ & _ & _ & _ & [[Hno _]|(_ & Hnz & _ & Ec & Hle)]);
      [congruence|].
    split; [|exact Hle]. rewrite Ec.
    apply roundup_pow2_spec. unfold KERN_MAX_CQ_ENTRIES, KERN_MAX_ENTRIES. lia.
  - intros Hent Hcq. revert H. unfold get_sq_cq_entries.
    unfold KERN_MAX_CQ_ENTRIES, KERN_MAX_ENTRIES in *.
    destruct (Z.eqb_spec entries 0); [lia|].
    destruct (Z.ltb_spec 32768 entries); [lia|].
    cbn [andb]. rewrite Hq.
    destruct (Z.eqb_spec (cq_entries p) 0); [lia|].
    destruct (Z.ltb_spec (2 * 32768) (cq_entries p)); [lia|].
    cbn [andb].
    destruct (Z.ltb_spec (roundup_pow2 (cq_entries p)) (roundup_pow2 entries));
      intros H'; injection H' as <- _ _ _; split; intros; lia.
Qed.

(** A power of two within range is a fixed point of [roundup_pow2]. *)
Lemma roundup_pow2_fixed (x : Z) :
  is_pow2 x -> x <= 2 ^ 31 -> roundup_pow2 x = x.
Proof.
  intros Hp Hx.
  assert (1 <= x).
  { destruct Hp as [k [Hk ->]]. change 1 with (2 ^ 0).
    apply Z.pow_le_mono_r; lia. }
  destruct (roundup_pow2_spec x ltac:(lia)) as [(_ & Hge & Hleast) _].
  apply Z.le_antisymm; [apply Hleast; [exact Hp|lia]|exact Hge].
Qed.

(** [X4]: negotiated depths are stable: asking again for the negotiated
    submission depth with the negotiated completion depth made explicit
    succeeds with the same pair, whatever the other flags are. *)
Theorem get_sq_cq_entries_stable entries p sq0 cq0 p' sq cq q a b :
  0 < EINVAL ->
  0 <= entries < 2 ^ 32 ->
  0 <= cq_entries p < 2 ^ 32 ->
  get_sq_cq_entries entries p sq0 cq0 = (0, p', sq, cq) ->
  has_flag (flags q) IORING_SETUP_CQSIZE = true ->
  cq_entries q = cq ->
  get_sq_cq_entries sq q a b = (0, q, sq, cq).
Proof.
  intros He Hent Hcqe H Hq Ecq.
  destruct (get_sq_cq_entries_bounds _ _ _ _ _ _ _ He Hent Hcqe H) as [Bs Bc].
  destruct (get_sq_cq_entries_cases _ _ _ _ _ _ _ _ H) as [_ [Hf|Hs]]; [lia|].
  destruct Hs as (_ & Enz & _ & Es & Hc).
  unfold KERN_MAX_CQ_ENTRIES, KERN_MAX_ENTRIES in *.
  assert (Psq : is_pow2 sq).
  { rewrite Es. apply roundup_pow2_spec. lia. }
  assert (Hsq : roundup_pow2 sq = sq) by (apply roundup_pow2_fixed; [exact Psq|lia]).
  assert (Hle : sq <= cq /\ is_pow2 cq).
  { destruct Hc as [[_ Ec]|(_ & Cnz & _ & Ec & Hle)].
    - rewrite u32_small in Ec by lia. split; [lia|].
      destruct Psq as [k [Hk Ek]]. exists (k + 1). split; [lia|].
      rewrite Z.pow_add_r by lia. lia.
    - split; [exact Hle|]. rewrite Ec. apply roundup_pow2_spec. lia. }
  destruct Hle as [Hle Pcq].
  assert (Hcq : roundup_pow2 cq = cq) by (apply roundup_pow2_fixed; [exact Pcq|lia]).
  unfold get_sq_cq_entries.
  unfold KERN_MAX_CQ_ENTRIES, KERN_MAX_ENTRIES.
  destruct (Z.eqb_spec sq 0); [lia|].
  destruct (Z.ltb_spec 32768 sq); [lia|].
  cbn [andb]. rewrite Hq, Ecq.
  destruct (Z.eqb_spec cq 0); [lia|].
  destruct (Z.ltb_spec (2 * 32768) cq); [lia|].
  cbn [andb]. rewrite Hsq, Hcq.
  destruct (Z.ltb_spec cq sq); [lia|reflexivity].
Qed.

End NegotiationMore.

(** A submission depth of 100 with an explicit completion depth of 100:
    128 and 128; with an explicit completion depth of 50 the call fails. *)
Lemma get_sq_cq_entries_cqsize_witness :
  @get_sq_cq_entries linux_uapi 100
    (Build_io_uring_params 0 100 8 0 zero_sqo zero_cqo) 0 0
  = (0, Build_io_uring_params 0 100 8 0 zero_sqo zero_cqo, 128, 128)
  /\ least_pow2_ge 100 128.
Proof.
  split; [reflexivity|].
  destruct (@get_sq_cq_entries_cqsize linux_uapi 100
              (Build_io_uring_params 0 100 8 0 zero_sqo zero_cqo) 0 0
              0 (Build_io_uring_params 0 100 8 0 zero_sqo zero_cqo) 128 128
              ltac:(reflexivity) ltac:(cbn; lia) eq_refl eq_refl)
    as (_ & _ & H & _).
  exact (proj1 (H eq_refl)).
Defined.

(** A depth of 100 with default flags negotiates 128 and 256; the kernel,
    asked for 128 with an explicit completion depth of 256, agrees. *)
Lemma get_sq_cq_entries_stable_witness :
  @get_sq_cq_entries linux_uapi 128
    (Build_io_uring_params 0 256 8 0 zero_sqo zero_cqo) 7 9
  = (0, Build_io_uring_params 0 256 8 0 zero_sqo zero_cqo, 128, 256).
Proof.
  exact (@get_sq_cq_entries_stable linux_uapi 100 zero_params 0 0
           zero_params 128 256
           (Build_io_uring_params 0 256 8 0 zero_sqo zero_cqo) 7 9
           ltac:(reflexivity) ltac:(lia) ltac:(cbn; lia) eq_refl eq_refl eq_refl).
Defined.

(** ** Layout computation, bounds *)

Section LayoutMore.
Context {U : Uapi}.

(** [X5]: the estimate never falls short: it is a whole number of pages, at
    least one page per region, and at least the bytes of the completion
    region plus the bytes of the submission-entry array. *)
Theorem rings_size_covers entries cq_n page_size :
  0 < page_size < 2 ^ 32 ->
  0 < sizeof_io_uring_sqe * entries < 2 ^ 31 ->
  0 <= cq_n * sizeof_io_uring_cqe ->
  KRING_SIZE + cq_n * sizeof_io_uring_cqe + 63 < 2 ^ 31 ->
  (exists n, 2 <= n /\ rings_size entries cq_n page_size = n * page_size) /\
  round_up (KRING_SIZE + cq_n * sizeof_io_uring_cqe) 64
  + sizeof_io_uring_sqe * entries
  <= rings_size entries cq_n page_size.
Proof.
  intros Hp Hsq Hcq0 Hcq.
  destruct (rings_size_layout entries cq_n page_size Hp Hsq Hcq0 Hcq)
    as (Heq & (_ & Lc & _) & (_ & Ls & _) & _).
  rewrite Heq. unfold rings_size_pow2.
  set (cs := round_up (KRING_SIZE + cq_n * sizeof_io_uring_cqe) 64) in *.
  set (ss := sizeof_io_uring_sqe * entries) in *.
  set (pc := pow2_ceil (pages_of cs page_size)) in *.
  set (ps := pow2_ceil (pages_of ss page_size)) in *.
  assert (Hcs : 0 < cs).
  { subst cs. unfold round_up, KRING_SIZE.
    pose proof (Z.div_mod (320 + cq_n * sizeof_io_uring_cqe + 64 - 1) 64 ltac:(lia)).
    pose proof (Z.mod_pos_bound (320 + cq_n * sizeof_io_uring_cqe + 64 - 1) 64
                  ltac:(lia)).
    lia. }
  assert (Hpages : forall x, 0 < x ->
            1 <= pages_of x page_size /\ x <= pages_of x page_size * page_size).
  { intros x Hx. unfold pages_of.
    pose proof (Z.div_mod (x + page_size - 1) page_size ltac:(lia)).
    pose proof (Z.mod_pos_bound (x + page_size - 1) page_size ltac:(lia)).
    split; [|lia].
    apply Z.div_le_lower_bound; lia. }
  destruct (Hpages cs Hcs) as [Hc1 Hc2].
  destruct (Hpages ss ltac:(lia)) as [Hs1 Hs2].
  split.
  - exists (pc + ps). split; [lia|reflexivity].
  - nia.
Qed.

End LayoutMore.

Lemma rings_size_covers_witness :
  round_up (320 + 512 * 16) 64 + 64 * 256 <= @rings_size linux_uapi 256 512 4096.
Proof.
  apply (@rings_size_covers linux_uapi 256 512 4096); vm_compute;
    try split; congruence.
Defined.

(** ** Region mapper, success *)

Section MapperMore.
Context {U : Uapi}.
Variable K : kernel.

(** The shape of a run of [io_uring_mmap] in which every mapping
    succeeded. *)
Lemma io_uring_mmap_ok_shape fd p s c h r s' c' evs :
  io_uring_mmap K fd p s c h = (r, s', c', evs) ->
  all_mapped evs = true ->
  let single := has_flag (features p) IORING_FEAT_SINGLE_MMAP in
  let sz := if single then Z.max (sq_region_size p) (cq_region_size p)
            else sq_region_size p in
  r = 0 /\
  IS_ERR (sq_ring_ptr s') = false /\ IS_ERR (sq_sqes s') = false /\
  IS_ERR (cq_ring_ptr c') = false /\
  sq_ring_sz s' = sz /\
  cq_ring_sz c' = (if single then sz else cq_region_size p) /\
  (single = true -> cq_ring_ptr c' = sq_ring_ptr s') /\
  evs = ring_mapping fd sz IORING_OFF_SQ_RING (sq_ring_ptr s')
        :: (if single then []
            else [ring_mapping fd (cq_region_size p) IORING_OFF_CQ_RING
                    (cq_ring_ptr c')])
        ++ [ring_mapping fd (sqes_size p) IORING_OFF_SQES (sq_sqes s')] /\
  pointers_resolved p s' c' /\
  (cqo_flags (cq_off p) = 0 -> cq_kflags c' = cq_kflags c).
Proof.
  intros H Hok. unfold io_uring_mmap in H. cbv zeta in H.
  fold (sq_region_size p) in H. fold (cq_region_size p) in H.
  fold (sqes_size p) in H.
  fields_in H.
  assert (Hmax : (if sq_region_size p <? cq_region_size p
                  then cq_region_size p else sq_region_size p)
                 = Z.max (sq_region_size p) (cq_region_size p))
    by (destruct (Z.ltb_spec (sq_region_size p) (cq_region_size p)); lia).
  destruct (has_flag (features p) IORING_FEAT_SINGLE_MMAP) eqn:Hs;
    cbn [andb] in H;
    [destruct (sq_region_size p <? cq_region_size p); fields_in H;
     rewrite Hmax in H|];
    clear Hmax;
    unfold io_uring_unmap_rings, io_uring_setup_ring_pointers in H;
    run_sys_in H; split_tests H.
  all: injection H as <- <- <- <-.
  all: unfold all_mapped in Hok; cbn [mmap_results app forallb] in Hok.
  all: repeat match goal with
              | E : IS_ERR ?x = true |- _ => rewrite E in Hok
              end;
    cbn [negb andb] in Hok; rewrite ?andb_false_r in Hok;
    try discriminate Hok.
  all: cbv zeta; fields; unfold ring_mapping, pointers_resolved; fields.
  all: repeat match goal with
              | E : negb (_ =? 0) = _ |- _ =>
                  first [apply negb_true_iff in E; apply Z.eqb_neq in E
                        |apply negb_false_iff in E; apply Z.eqb_eq in E]
              end.
  all: repeat split; try reflexivity; try assumption; try congruence.
Qed.

(** [X6]: when every mapping succeeds, [io_uring_mmap] returns [0], unmaps
    nothing, leaves exactly the regions it mapped resident (two with
    [IORING_FEAT_SINGLE_MMAP], three without), and every field pointer of
    both views is the region base plus the kernel's offset; the flags
    pointer of the completion ring is left as it was when the kernel
    publishes no offset for it. *)
Theorem io_uring_mmap_success fd p s c h r s' c' evs :
  io_uring_mmap K fd p s c h = (r, s', c', evs) ->
  all_mapped evs = true ->
  r = 0 /\
  munmaps evs = [] /\
  resident evs
  = (sq_ring_ptr s', sq_ring_sz s')
    :: (if has_flag (features p) IORING_FEAT_SINGLE_MMAP then []
        else [(cq_ring_ptr c', cq_ring_sz c')])
    ++ [(sq_sqes s', sqes_size p)] /\
  pointers_resolved p s' c' /\
  (cqo_flags (cq_off p) = 0 -> cq_kflags c' = cq_kflags c).
Proof.
  intros H Hok.
  destruct (io_uring_mmap_ok_shape _ _ _ _ _ _ _ _ _ H Hok)
    as (Hr & Ea & Eq & Eb & Hsz & Hcsz & Hcp & Hev & Hres & Hfl).
  split; [exact Hr|].
  rewrite Hev, Hsz, Hcsz.
  destruct (has_flag (features p) IORING_FEAT_SINGLE_MMAP);
    unfold ring_mapping;
    cbn [munmaps filter is_munmap app resident resident_from];
    rewrite ?Ea, ?Eb, ?Eq; cbn [app]; auto.
Qed.

End MapperMore.

(** A ring of depth 8 on a kernel with the single-mapping feature. *)
Lemma io_uring_mmap_success_witness :
  exists r s' c' evs,
    @io_uring_mmap linux_uapi (example_kernel (fun _ _ => false) 3 1) 3
      (filled_params 8 zero_params 1) zero_sq zero_cq [] = (r, s', c', evs)
    /\ r = 0
    /\ @resident linux_uapi evs = [(2097152, 320); (4194304, 512)]
    /\ cq_kflags c' = 0.
Proof.
  do 4 eexists. split; [reflexivity|].
  destruct (@io_uring_mmap_success linux_uapi
              (example_kernel (fun _ _ => false) 3 1) 3
              (filled_params 8 zero_params 1) zero_sq zero_cq [] _ _ _ _
              eq_refl eq_refl) as (Hr & _ & Hres & _ & Hfl).
  split; [exact Hr|]. split; [exact Hres|]. exact (Hfl eq_refl).
Defined.

(** ** Ring life cycle on kernel mappings *)

Lemma resident_from_app {U : Uapi} acc l1 l2 :
  resident_from acc (l1 ++ l2) = resident_from (resident_from acc l1) l2.
Proof.
  revert acc. induction l1 as [|e l1 IH]; intros acc; [reflexivity|].
  destruct e; cbn [app resident_from]; apply IH.
Qed.

Lemma mmap_contract_from_app {U : Uapi} acc l1 l2 :
  mmap_contract_from acc (l1 ++ l2)
  = mmap_contract_from acc l1 && mmap_contract_from (resident_from acc l1) l2.
Proof.
  revert acc. induction l1 as [|e l1 IH]; intros acc; [reflexivity|].
  destruct e; cbn [app mmap_contract_from resident_from];
    rewrite IH; try reflexivity.
  rewrite andb_assoc. reflexivity.
Qed.

Lemma open_fds_from_app acc l1 l2 :
  open_fds_from acc (l1 ++ l2) = open_fds_from (open_fds_from acc l1) l2.
Proof.
  revert acc. induction l1 as [|e l1 IH]; intros acc; [reflexivity|].
  destruct e; cbn [app open_fds_from]; apply IH.
Qed.

(** Mappings and unmappings neither open nor close a descriptor. *)
Lemma open_fds_from_maps acc l :
  forallb (fun e => is_mmap e || is_munmap e) l = true ->
  open_fds_from acc l = acc.
Proof.
  revert acc. induction l as [|e l IH]; intros acc Hl; [reflexivity|].
  cbn [forallb] in Hl. apply andb_true_iff in Hl. destruct Hl as [He Hl].
  destruct e; try discriminate He; cbn [open_fds_from]; apply IH; exact Hl.
Qed.

Section KernelMapped.
Context {U : Uapi}.
Variable K : kernel.

(** [io_uring_mmap] only maps and unmaps, and returns either with every
    mapping made or with the error code of a failed one. *)
Lemma io_uring_mmap_outcome fd p s c h r s' c' evs :
  io_uring_mmap K fd p s c h = (r, s', c', evs) ->
  forallb (fun e => is_mmap e || is_munmap e) evs = true /\
  (all_mapped evs = true \/ exists x, IS_ERR x = true /\ r = PTR_ERR x).
Proof.
  intros H. unfold io_uring_mmap in H. cbv zeta in H.
  unfold io_uring_unmap_rings, io_uring_setup_ring_pointers in H.
  run_sys_in H. split_tests H.
  all: injection H as <- <- <- <-.
  all: split; [reflexivity|].
  all: unfold all_mapped; cbn [mmap_results app forallb].
  all: first [ right; eexists; split; [eassumption|reflexivity]
             | left;
               repeat match goal with
                      | E : IS_ERR ?x = false |- _ => rewrite E
                      end; reflexivity ].
Qed.

(** How a set-up on kernel mappings can end. *)
Lemma init_kernel_mapped_cases entries ring p buf buf_size h r ring' p' evs :
  has_flag (flags p) IORING_SETUP_NO_MMAP = false ->
  __io_uring_queue_init_params K entries ring p buf buf_size h
  = (r, ring', p', evs) ->
  has_flag (flags p') IORING_SETUP_NO_MMAP = false ->
  exists fd,
    k_setup K h entries p = (fd, p') /\
    ((fd < 0 /\ r = fd /\ evs = [Setup entries p fd]) \/
     (0 <= fd /\
      exists hh r3 s3 c3 e3,
        io_uring_mmap K fd p' zero_sq zero_cq hh = (r3, s3, c3, e3) /\
        r = r3 /\
        ((r3 <> 0 /\ evs = Setup entries p fd :: e3 ++ [Close fd]) \/
         (r3 = 0 /\ evs = Setup entries p fd :: e3 /\
          ring' = Build_io_uring s3 c3 (flags p') fd (features p') 0)))).
Proof.
  intros Hf H Hf'.
  unfold __io_uring_queue_init_params in H. rewrite Hf in H.
  cbv zeta in H. run_sys_in H. cbn [Z.ltb Z.compare app] in H.
  rewrite app_nil_r in H.
  destruct (k_setup K h entries p) as [fd p2] eqn:Hk. cbn [fst] in H.
  destruct (Z.ltb_spec fd 0) as [Hfd|Hfd].
  - rewrite has_flag_zero in H. cbn [negb] in H. rewrite andb_true_r in H.
    destruct (has_flag (flags p2) IORING_SETUP_NO_MMAP) eqn:Hp2.
    + unfold io_uring_unmap_rings in H. run_sys_in H. split_tests H.
      all: injection H as <- <- <- <-; congruence.
    + injection H as <- <- <- <-. exists fd. split; [reflexivity|].
      left. auto.
  - destruct (has_flag (flags p2) IORING_SETUP_NO_MMAP) eqn:Hp2.
    { unfold io_uring_setup_ring_pointers in H. split_tests H.
      all: injection H as <- <- <- <-; congruence. }
    cbn [negb] in H. unfold io_uring_queue_mmap in H. run_sys_in H.
    fields_in H.
    match type of H with
    | context [io_uring_mmap K fd p2 zero_sq zero_cq ?hh] =>
        destruct (io_uring_mmap K fd p2 zero_sq zero_cq hh)
          as [[[r3 s3] c3] e3] eqn:Hm
    end.
    destruct (Z.eqb_spec r3 0) as [Hr3|Hr3]; cbn [negb] in H; fields_in H;
      injection H as <- <- <- <-; exists fd; (split; [reflexivity|]);
      right; (split; [exact Hfd|]); do 5 eexists; (split; [exact Hm|]);
      (split; [reflexivity|]).
    + right. rewrite !app_nil_r. auto.
    + left. rewrite !app_nil_r. auto.
Qed.

End KernelMapped.

Section KernelMappedLifecycle.
Context {U : Uapi}.
Variable K : kernel.

(** A failed set-up on kernel mappings. *)
Lemma init_failure_releases
    entries ring p buf buf_size h r ring' p' evs :
  has_flag (flags p) IORING_SETUP_NO_MMAP = false ->
  __io_uring_queue_init_params K entries ring p buf buf_size h
  = (r, ring', p', evs) ->
  has_flag (flags p') IORING_SETUP_NO_MMAP = false ->
  mmap_contract evs = true ->
  r <> 0 ->
  resident evs = [] /\ open_fds evs = [] /\
  (setup_failed evs = true -> evs = [Setup entries p r]).
Proof.
  intros Hf H Hf' Hc Hr.
  destruct (init_kernel_mapped_cases K _ _ _ _ _ _ _ _ _ _ Hf H Hf')
    as (fd & Hk & [(Hfd & -> & ->)|(Hfd & hh & r3 & s3 & c3 & e3 & Hm & -> & Hcase)]).
  - unfold resident, open_fds. cbn [resident_from open_fds_from].
    destruct (Z.ltb_spec fd 0); [auto|lia].
  - destruct Hcase as [[Hr3 ->]|[Hr3 _]]; [|contradiction].
    destruct (io_uring_mmap_outcome K _ _ _ _ _ _ _ _ _ Hm) as [Hkind Hout].
    unfold mmap_contract in Hc. cbn [mmap_contract_from resident_from] in Hc.
    rewrite mmap_contract_from_app in Hc.
    apply andb_true_iff in Hc. destruct Hc as [Hc _].
    destruct (io_uring_mmap_unwinds_parts K _ _ _ _ _ _ _ _ _ Hm Hc) as [Hx Hres].
    assert (Hfail : exists x, In x (mmap_results e3) /\ IS_ERR x = true).
    { destruct (Hx Hr3) as (x & Hin & Hxe & _). exists x. auto. }
    specialize (Hres Hfail).
    split; [|split].
    + unfold resident in *. cbn [resident_from].
      rewrite resident_from_app, Hres. reflexivity.
    + unfold open_fds. cbn [open_fds_from].
      destruct (Z.ltb_spec fd 0); [lia|].
      rewrite open_fds_from_app, (open_fds_from_maps _ e3 Hkind).
      cbn [app open_fds_from filter]. rewrite Z.eqb_refl. reflexivity.
    + intros Hs. exfalso. unfold setup_failed in Hs.
      cbn [existsb] in Hs. destruct (Z.ltb_spec fd 0); [lia|].
      cbn [orb] in Hs. rewrite existsb_app in Hs. cbn [existsb orb] in Hs.
      rewrite orb_false_r in Hs.
      apply existsb_exists in Hs. destruct Hs as (e & Hin & He).
      rewrite forallb_forall in Hkind. specialize (Hkind e Hin).
      destruct e; discriminate.
Qed.

(** [X7]: a set-up on kernel mappings that fails leaves nothing behind: either
    ring creation failed and nothing else was called, or a mapping failed,
    the mappings already made were unmapped and the descriptor was
    closed. *)
Theorem init_failure_leaves_nothing
    entries ring p buf buf_size h r ring' p' evs :
  has_flag (flags p) IORING_SETUP_NO_MMAP = false ->
  __io_uring_queue_init_params K entries ring p buf buf_size h
  = (r, ring', p', evs) ->
  has_flag (flags p') IORING_SETUP_NO_MMAP = false ->
  mmap_contract evs = true ->
  r <> 0 ->
  resident evs = [] /\ open_fds evs = [] /\
  (setup_failed evs = true -> evs = [Setup entries p r]).
Proof. apply init_failure_releases. Qed.

End KernelMappedLifecycle.

Section KernelMappedRoundTrip.
Context {U : Uapi}.
Variable K : kernel.

(** Set-up on kernel mappings followed by tear-down. *)
Lemma init_exit_releases
    entries ring p buf buf_size h ring' p' evs h2 evs' :
  has_flag (flags p) IORING_SETUP_NO_MMAP = false ->
  __io_uring_queue_init_params K entries ring p buf buf_size h
  = (0, ring', p', evs) ->
  has_flag (flags p') IORING_SETUP_NO_MMAP = false ->
  (forall x, IS_ERR x = true -> PTR_ERR x <> 0) ->
  mmap_contract evs = true ->
  k_load K h2 (sq_kring_entries (sq ring')) = sq_entries p' ->
  io_uring_queue_exit K ring' h2 = (tt, evs') ->
  open_fds evs = [ring_fd ring'] /\
  resident (evs ++ evs') = [] /\ open_fds (evs ++ evs') = [] /\
  exists l, evs' = l ++ [Close (ring_fd ring')] /\ forallb is_munmap l = true.
Proof.
  intros Hf H Hf' Hperr Hc Hload Hexit.
  destruct (init_kernel_mapped_cases K _ _ _ _ _ _ _ _ _ _ Hf H Hf')
    as (fd & Hk & [(Hfd & Hr & _)|(Hfd & hh & r3 & s3 & c3 & e3 & Hm & <- & Hcase)]);
    [lia|].
  destruct Hcase as [[Hr3 _]|(_ & -> & ->)]; [contradiction|].
  destruct (io_uring_mmap_outcome K _ _ _ _ _ _ _ _ _ Hm) as [Hkind Hout].
  destruct Hout as [Hok|(x & Hx & Hr)];
    [|exfalso; apply (Hperr x Hx); congruence].
  destruct (io_uring_mmap_ok_shape K _ _ _ _ _ _ _ _ _ Hm Hok)
    as (_ & Ea & Eq & Eb & Hsz & Hcsz & Hcp & Hev & Hres & _).
  destruct Hres as (_ & _ & _ & Hke & _).
  cbv zeta in Hsz, Hcsz, Hcp, Hev.
  unfold io_uring_queue_exit, io_uring_unmap_rings in Hexit.
  cbv zeta in Hexit. fields_in Hexit.
  rewrite has_flag_zero in Hexit. cbn [negb] in Hexit.
  cbn [sq] in Hload.
  unfold mmap_contract in Hc. rewrite Hev in Hc.
  assert (Hfdb : (fd <? 0) = false) by (apply Z.ltb_ge; exact Hfd).
  destruct (has_flag (features p') IORING_FEAT_SINGLE_MMAP) eqn:Hs.
  - specialize (Hcp eq_refl). rewrite Hcp, Hcsz, Hsz in *.
    set (a := sq_ring_ptr s3) in *. set (q := sq_sqes s3) in *.
    set (sz := Z.max (sq_region_size p') (cq_region_size p')) in *.
    unfold ring_mapping in *.
    cbn [app mmap_contract_from resident_from existsb] in Hc.
    rewrite Ea, Eq in Hc. cbn [orb app existsb fst] in Hc.
    revert Hexit. bool_facts. intros Hexit.
    destruct (Z.eqb_spec sz 0) as [|_]; [contradiction|].
    run_sys_in Hexit. rewrite Hload in Hexit.
    fold (sqes_size p') in Hexit.
    rewrite Z.eqb_refl in Hexit. cbn [negb andb] in Hexit.
    rewrite andb_false_r in Hexit. cbn [negb andb app] in Hexit.
    injection Hexit as <-. rewrite Hev.
    unfold open_fds, resident.
    cbn [app open_fds_from resident_from]. rewrite Hfdb, Ea, Eq.
    cbn [app filter]. unfold region_eqb. cbn [fst snd].
    rewrite !Z.eqb_refl. cbn [andb negb filter].
    split; [reflexivity|]. split.
    + destruct ((a =? q) && (sz =? sqes_size p')); cbn [negb filter fst snd];
        rewrite ?Z.eqb_refl; reflexivity.
    + split; [reflexivity|].
      exists [Munmap q (sqes_size p'); Munmap a sz]. split; reflexivity.
  - rewrite Hcsz, Hsz in *.
    set (a := sq_ring_ptr s3) in *. set (q := sq_sqes s3) in *.
    set (b := cq_ring_ptr c3) in *.
    unfold ring_mapping in *.
    cbn [app mmap_contract_from resident_from existsb] in Hc.
    rewrite Ea, Eq, Eb in Hc. cbn [orb app existsb fst resident_from] in Hc.
    rewrite ?Eb, ?Eq in Hc. cbn [orb app existsb fst] in Hc.
    revert Hexit. bool_facts. intros Hexit.
    destruct (Z.eqb_spec (sq_region_size p') 0) as [|_]; [contradiction|].
    run_sys_in Hexit. rewrite Hload in Hexit.
    fold (sqes_size p') in Hexit.
    destruct (Z.eqb_spec b 0) as [|_]; [contradiction|].
    destruct (Z.eqb_spec (cq_region_size p') 0) as [|_]; [contradiction|].
    destruct (Z.eqb_spec b a) as [|_]; [congruence|].
    cbn [negb andb app] in Hexit.
    injection Hexit as <-. rewrite Hev.
    unfold open_fds, resident.
    cbn [app open_fds_from resident_from]. rewrite Hfdb, Ea, Eq, Eb.
    cbn [app filter]. unfold region_eqb. cbn [fst snd].
    rewrite !Z.eqb_refl. cbn [andb negb filter].
    split; [reflexivity|]. split.
    + assert (Eaq : (a =? q) = false) by (apply Z.eqb_neq; congruence).
      assert (Ebq : (b =? q) = false) by (apply Z.eqb_neq; congruence).
      assert (Eba : (b =? a) = false) by (apply Z.eqb_neq; congruence).
      repeat (cbn [filter fst snd andb negb];
              rewrite ?Z.eqb_refl, ?Eaq, ?Ebq, ?Eba).
      reflexivity.
    + split; [reflexivity|].
      exists [Munmap q (sqes_size p'); Munmap a (sq_region_size p');
              Munmap b (cq_region_size p')].
      split; reflexivity.
Qed.

(** [X8]: set-up on kernel mappings followed by tear-down releases everything:
    each region is unmapped with the address and length it was mapped
    with, then the descriptor is closed, and nothing is resident or open
    afterwards. The shared entry count must read as the depth the kernel
    reported, and a failed mapping must have a non-zero error code. *)
Theorem init_exit_round_trip
    entries ring p buf buf_size h ring' p' evs h2 evs' :
  has_flag (flags p) IORING_SETUP_NO_MMAP = false ->
  __io_uring_queue_init_params K entries ring p buf buf_size h
  = (0, ring', p', evs) ->
  has_flag (flags p') IORING_SETUP_NO_MMAP = false ->
  (forall x, IS_ERR x = true -> PTR_ERR x <> 0) ->
  mmap_contract evs = true ->
  k_load K h2 (sq_kring_entries (sq ring')) = sq_entries p' ->
  io_uring_queue_exit K ring' h2 = (tt, evs') ->
  open_fds evs = [ring_fd ring'] /\
  resident (evs ++ evs') = [] /\ open_fds (evs ++ evs') = [] /\
  exists l, evs' = l ++ [Close (ring_fd ring')] /\ forallb is_munmap l = true.
Proof. apply init_exit_releases. Qed.

End KernelMappedRoundTrip.

(** ** Ring life cycle on self-allocated and caller-supplied memory *)

(** Events that touch no descriptor leave the open descriptors alone. *)
Lemma open_fds_from_untouched acc l :
  forallb (fun e => negb (touches_fd e)) l = true ->
  open_fds_from acc l = acc.
Proof.
  revert acc. induction l as [|e l IH]; intros acc Hl; [reflexivity|].
  cbn [forallb] in Hl. apply andb_true_iff in Hl. destruct Hl as [He Hl].
  destruct e; try discriminate He; cbn [open_fds_from]; apply IH; exact Hl.
Qed.

Section OwnMemory.
Context {U : Uapi}.
Variable K : kernel.

(** What [io_uring_unmap_rings] emits depends on the two bases and the
    two sizes only, and is a list of unmappings. *)
Lemma io_uring_unmap_rings_events s c h :
  snd (io_uring_unmap_rings s c h)
  = (if negb (sq_ring_sz s =? 0)
     then [Munmap (sq_ring_ptr s) (sq_ring_sz s)] else [])
    ++ (if negb (cq_ring_ptr c =? 0) && negb (cq_ring_sz c =? 0)
           && negb (cq_ring_ptr c =? sq_ring_ptr s)
        then [Munmap (cq_ring_ptr c) (cq_ring_sz c)] else []).
Proof.
  unfold io_uring_unmap_rings. cbv [bind ret emit uring_munmap].
  destruct (negb (sq_ring_sz s =? 0));
    destruct (negb (cq_ring_ptr c =? 0) && negb (cq_ring_sz c =? 0)
              && negb (cq_ring_ptr c =? sq_ring_ptr s));
    reflexivity.
Qed.

(** The allocator opens and closes no descriptor; when it reaches its
    end it has published, in the params, the address of the
    submission-entry array and the address of the ring region, which is
    also the base of the completion ring. *)
Lemma io_uring_alloc_huge_publishes entries p s c buf buf_size h r p' s' c' evs :
  io_uring_alloc_huge K entries p s c buf buf_size h = (r, p', s', c', evs) ->
  forallb (fun e => negb (touches_fd e)) evs = true /\
  (0 < EINVAL -> 0 < ENOMEM ->
   (forall x, IS_ERR x = true -> PTR_ERR x < 0) ->
   0 <= r ->
   flags p' = flags p /\
   sqo_user_addr (sq_off p') = sq_sqes s' /\
   cqo_user_addr (cq_off p') = sq_ring_ptr s' /\
   cq_ring_ptr c' = sq_ring_ptr s' /\
   (buf <> 0 -> sq_sqes s' = buf)).
Proof.
  intros H. unfold io_uring_alloc_huge in H.
  destruct (get_sq_cq_entries entries p 0 0) as [[[r0 p0] sq_n] cq_n] eqn:Hn.
  destruct (get_sq_cq_entries_cases _ _ _ _ _ _ _ _ Hn) as [-> Hcase].
  cbv zeta in H. run_sys_in H.
  destruct (Z.eqb_spec buf 0) as [Hb|Hb]; cbn [negb andb] in H;
    split_tests H.
  all: injection H as <- <- <- <- <-; fields.
  all: split; [reflexivity|intros He Hm Hperr Hr].
  all: try (repeat split; try reflexivity; intros; congruence).
  all: exfalso.
  all: try match goal with
           | E : IS_ERR ?x = true |- _ =>
               pose proof (Hperr x E); lia
           | E : _ && IS_ERR ?x = true |- _ =>
               apply andb_true_iff in E; destruct E as [_ E];
               pose proof (Hperr x E); lia
           end.
  all: try lia.
Qed.

(** How a set-up on prepared memory can end. *)
Lemma init_no_mmap_cases entries ring p buf buf_size h r ring' p' evs :
  has_flag (flags p) IORING_SETUP_NO_MMAP = true ->
  __io_uring_queue_init_params K entries ring p buf buf_size h
  = (r, ring', p', evs) ->
  has_flag (flags p') IORING_SETUP_NO_MMAP = true ->
  exists r1 p1 s1 c1 e1,
    io_uring_alloc_huge K entries p zero_sq zero_cq buf buf_size h
    = (r1, p1, s1, c1, e1) /\
    sq_sqes (sq ring') = sq_sqes s1 /\
    sq_ring_ptr (sq ring') = sq_ring_ptr s1 /\
    sq_ring_sz (sq ring') = sq_ring_sz s1 /\
    cq_ring_ptr (cq ring') = cq_ring_ptr c1 /\
    cq_ring_sz (cq ring') = cq_ring_sz c1 /\
    ((r1 < 0 /\ r = r1 /\ evs = e1) \/
     (0 <= r1 /\
      exists fd, k_setup K (h ++ e1) entries p1 = (fd, p') /\
        ((fd < 0 /\ r = fd /\
          evs = e1 ++ Setup entries p1 fd
                   :: Munmap (sq_sqes s1) huge_page_size
                   :: snd (io_uring_unmap_rings s1 c1 []))
         \/
         (0 <= fd /\ r = r1 /\ ring_fd ring' = fd /\
          evs = e1 ++ [Setup entries p1 fd])))).
Proof.
  intros Hf H Hf'.
  unfold __io_uring_queue_init_params in H. rewrite Hf in H.
  cbv zeta in H. fields_in H.
  unfold bind at 1 in H. unfold bind at 1 in H.
  destruct (io_uring_alloc_huge K entries p zero_sq zero_cq buf buf_size h)
    as [[[[r1 p1] s1] c1] e1] eqn:Ha.
  exists r1, p1, s1, c1, e1. split; [reflexivity|].
  destruct (Z.ltb_spec r1 0) as [Hneg|Hpos]; cbv [ret] in H; fields_in H.
  { destruct (Z.ltb_spec r1 0); [|lia]. injection H as <- <- <- <-.
    rewrite !app_nil_r. fields. repeat split; auto. }
  assert (Hring : exists fl,
            (let (b, e2) :=
               (let (p0, p2) := (r1, set_internal_flags
                                       (set_queues zero_ring s1 c1) fl, p1) in
                let (r2, ring0) := p0 in
                if r2 <? 0 then ret (r2, ring0, p2)
                else
                  x <- ____sys_io_uring_setup K entries p2 ;;
                  (let (fd, p3) := x in
                   if fd <? 0
                   then
                     (if has_flag (flags p3) IORING_SETUP_NO_MMAP
                         && negb (has_flag (ring_flags ring0)
                                    IORING_INT_FLAG_APP_MEM)
                      then uring_munmap (sq_sqes (sq ring0)) huge_page_size ;;
                           io_uring_unmap_rings (sq ring0) (cq ring0)
                      else ret tt) ;;
                     ret (fd, ring0, p3)
                   else
                     x0 <-
                       (if negb (has_flag (flags p3) IORING_SETUP_NO_MMAP)
                        then
                          x0 <- io_uring_queue_mmap K fd p3 ring0 ;;
                          (let (r0, ring1) := x0 in
                           if negb (r0 =? 0)
                           then uring_close fd ;; ret (r0, ring1, true)
                           else ret (r0, ring1, false))
                        else
                          let (s, c) :=
                            io_uring_setup_ring_pointers p3 (sq ring0) (cq ring0) in
                          ret (r2, set_queues ring0 s c, false)) ;;
                     (let (p4, stop) := x0 in
                      let (r0, ring1) := p4 in
                      if stop then ret (r0, ring1, p3)
                      else
                        ret (r0,
                             Build_io_uring (sq ring1) (cq ring1) (flags p3) fd
                               (features p3) (internal_flags ring1), p3))))
                 (h ++ e1 ++ []) in
             (b, (e1 ++ []) ++ e2)) = (r, ring', p', evs)).
  { destruct (negb (buf =? 0)).
    - exists (Z.lor 0 IORING_INT_FLAG_APP_MEM). exact H.
    - exists 0. exact H. }
  clear H. destruct Hring as [fl H].
  destruct (Z.ltb_spec r1 0); [lia|].
  run_sys_in H. rewrite !app_nil_r in H.
  destruct (k_setup K (h ++ e1) entries p1) as [fd p2] eqn:Hk.
  cbn [fst] in H. fields_in H. rewrite has_flag_zero in H.
  cbn [negb] in H. rewrite andb_true_r in H.
  destruct (Z.ltb_spec fd 0) as [Hfd|Hfd].
  - destruct (has_flag (flags p2) IORING_SETUP_NO_MMAP) eqn:Hp2.
    + match type of H with
      | context [io_uring_unmap_rings s1 c1 ?hh] =>
          pose proof (io_uring_unmap_rings_events s1 c1 hh) as Hu1;
          pose proof (io_uring_unmap_rings_events s1 c1 []) as Hu2;
          destruct (io_uring_unmap_rings s1 c1 hh) as [[] e2]
      end.
      cbn [snd] in Hu1. rewrite <- Hu1 in Hu2.
      injection H as <- <- <- <-. fields.
      repeat split; auto. right. split; [lia|].
      exists fd. split; [reflexivity|]. left.
      repeat split; auto. rewrite Hu2, !app_nil_r. reflexivity.
    + injection H as <- <- <- <-. congruence.
  - destruct (has_flag (flags p2) IORING_SETUP_NO_MMAP) eqn:Hp2.
    2:{ cbn [negb] in H.
        destruct (io_uring_queue_mmap K fd p2 _ _) as [[r3 ring3] e3].
        split_tests H; injection H as <- <- <- <-; congruence. }
    unfold io_uring_setup_ring_pointers in H. split_tests H.
    all: injection H as <- <- <- <-; fields.
    all: repeat split; auto; right; (split; [lia|]);
      exists fd; (split; [reflexivity|]); right; repeat split; auto.
Qed.

End OwnMemory.

Section OwnMemoryLifecycle.
Context {U : Uapi}.
Variable K : kernel.

(** [X9]: set-up on one self-allocated huge page followed by tear-down: the
    descriptor is closed, the page is unmapped, and nothing the set-up
    mapped or opened is left. *)
Theorem init_exit_round_trip_huge_page
    entries ring p h r ring' p' evs h2 evs' :
  has_flag (flags p) IORING_SETUP_NO_MMAP = true ->
  __io_uring_queue_init_params K entries ring p 0 0 h = (r, ring', p', evs) ->
  has_flag (flags p') IORING_SETUP_NO_MMAP = true ->
  0 <= r ->
  sq_ring_sz (sq ring') = 0 ->
  io_uring_queue_exit K ring' h2 = (tt, evs') ->
  open_fds evs = [ring_fd ring'] /\
  resident (evs ++ evs') = [] /\ open_fds (evs ++ evs') = [] /\
  exists l, evs' = Close (ring_fd ring') :: l /\ forallb is_munmap l = true.
Proof.
  intros Hf H Hf' Hr Hsz Hexit.
  destruct (init_no_mmap_cases K _ _ _ _ _ _ _ _ _ _ Hf H Hf')
    as (r1 & p1 & s1 & c1 & e1 & Ha & Es & Ep & Ez & Ecp & Ecz & Hcase).
  destruct (io_uring_alloc_huge_publishes K _ _ _ _ _ _ _ _ _ _ _ _ Ha)
    as [Hkind _].
  destruct (io_uring_alloc_huge_own K _ _ _ _ _ _ _ _ _ _ [] Ha) as [_ Hown].
  destruct Hcase as [(Hneg & -> & _)|(Hpos & fd & Hk & [(Hfd & -> & _)|(Hfd & -> & Efd & ->)])];
    [lia|lia|].
  unfold io_uring_queue_exit in Hexit. cbv zeta in Hexit.
  rewrite Hsz in Hexit. cbn [Z.eqb] in Hexit.
  cbv [bind uring_close uring_munmap emit] in Hexit.
  match type of Hexit with
  | context [io_uring_unmap_rings ?s ?c ?hh] =>
      pose proof (io_uring_unmap_rings_events s c hh) as Hu;
      destruct (io_uring_unmap_rings s c hh) as [[] e2]
  end.
  cbn [snd] in Hu. rewrite Ep, Ez, Ecp, Ecz in Hu.
  rewrite <- (io_uring_unmap_rings_events s1 c1 []) in Hu.
  injection Hexit as <-. subst e2. rewrite Es, Efd. cbn [app].
  set (rest := snd (io_uring_unmap_rings s1 c1 [])) in *.
  assert (Hrest : forallb is_munmap rest = true).
  { subst rest. rewrite io_uring_unmap_rings_events.
    destruct (negb (sq_ring_sz s1 =? 0));
      destruct (negb (cq_ring_ptr c1 =? 0) && negb (cq_ring_sz c1 =? 0)
                && negb (cq_ring_ptr c1 =? sq_ring_ptr s1));
      reflexivity. }
  assert (Hrest' : forallb (fun e => negb (touches_fd e)) rest = true).
  { rewrite forallb_forall in *. intros e Hin. specialize (Hrest e Hin).
    destruct e; try discriminate; reflexivity. }
  assert (Hfdb : (fd <? 0) = false) by (apply Z.ltb_ge; exact Hfd).
  assert (Hopen : open_fds (e1 ++ [Setup entries p1 fd]) = [fd]).
  { unfold open_fds. rewrite open_fds_from_app, (open_fds_from_untouched _ e1 Hkind).
    cbn [open_fds_from]. rewrite Hfdb. reflexivity. }
  split; [exact Hopen|]. split; [|split].
  - unfold resident in *. rewrite <- app_assoc. cbn [app].
    rewrite resident_from_skip by reflexivity.
    rewrite resident_from_skip by reflexivity.
    exact Hown.
  - unfold open_fds in *. rewrite open_fds_from_app, Hopen.
    cbn [open_fds_from filter]. rewrite Z.eqb_refl. cbn [negb].
    apply open_fds_from_untouched. exact Hrest'.
  - eexists. split; [reflexivity|]. exact Hrest.
Qed.

(** [X10]: set-up on prepared memory hands the kernel the very addresses the
    handle uses: every ring-creation call carries the caller's depth and
    flags, the address of the submission-entry array and the address of
    the ring region, and the completion ring of the handle starts at the
    ring region. A caller-supplied buffer is the submission-entry array. *)
Theorem init_publishes_addresses
    entries ring p buf buf_size h r ring' p' evs e q res :
  0 < EINVAL -> 0 < ENOMEM ->
  (forall x, IS_ERR x = true -> PTR_ERR x < 0) ->
  has_flag (flags p) IORING_SETUP_NO_MMAP = true ->
  __io_uring_queue_init_params K entries ring p buf buf_size h
  = (r, ring', p', evs) ->
  has_flag (flags p') IORING_SETUP_NO_MMAP = true ->
  In (Setup e q res) evs ->
  e = entries /\ flags q = flags p /\
  sqo_user_addr (sq_off q) = sq_sqes (sq ring') /\
  cqo_user_addr (cq_off q) = sq_ring_ptr (sq ring') /\
  cq_ring_ptr (cq ring') = sq_ring_ptr (sq ring') /\
  (buf <> 0 -> sq_sqes (sq ring') = buf).
Proof.
  intros He Hm Hperr Hf H Hf' Hin.
  destruct (init_no_mmap_cases K _ _ _ _ _ _ _ _ _ _ Hf H Hf')
    as (r1 & p1 & s1 & c1 & e1 & Ha & Es & Ep & Ez & Ecp & Ecz & Hcase).
  destruct (io_uring_alloc_huge_publishes K _ _ _ _ _ _ _ _ _ _ _ _ Ha)
    as [Hkind Hpub].
  assert (Hno : ~ In (Setup e q res) e1).
  { intros Hi. rewrite forallb_forall in Hkind. specialize (Hkind _ Hi).
    discriminate Hkind. }
  assert (Hq : 0 <= r1 /\ Setup e q res = Setup entries p1 (fst (k_setup K (h ++ e1) entries p1))).
  { destruct Hcase as [(Hneg & -> & ->)|(Hpos & fd & Hk & [(Hfd & -> & ->)|(Hfd & -> & Efd & ->)])].
    - contradiction.
    - split; [exact Hpos|]. rewrite Hk. cbn [fst].
      apply in_app_or in Hin. destruct Hin as [Hi|Hi]; [contradiction|].
      cbn [In] in Hi. destruct Hi as [Hi|[Hi|Hi]]; [auto|discriminate Hi|].
      exfalso. rewrite io_uring_unmap_rings_events in Hi.
      apply in_app_or in Hi.
      destruct (negb (sq_ring_sz s1 =? 0));
        destruct (negb (cq_ring_ptr c1 =? 0) && negb (cq_ring_sz c1 =? 0)
                  && negb (cq_ring_ptr c1 =? sq_ring_ptr s1));
        cbn [In] in Hi; destruct Hi as [Hi|Hi];
        repeat (destruct Hi as [Hi|Hi]; try discriminate Hi); auto.
    - split; [exact Hpos|]. rewrite Hk. cbn [fst].
      apply in_app_or in Hin. destruct Hin as [Hi|Hi]; [contradiction|].
      cbn [In] in Hi. destruct Hi as [Hi|[]]. auto. }
  destruct Hq as [Hpos Hq]. injection Hq as -> -> _.
  destruct (Hpub He Hm Hperr Hpos) as (Hfl & Hsa & Hca & Hcp & Hbuf).
  rewrite Es, Ep, Ecp. auto 10.
Qed.

End OwnMemoryLifecycle.

(** ** Examples on the Linux constants *)

Lemma init_failure_leaves_nothing_witness :
  exists ring' p' evs,
    @__io_uring_queue_init_params linux_uapi
      (example_kernel (fun _ off => off =? 134217728) 3 0)
      8 zero_ring zero_params 0 0 [] = (-12, ring', p', evs)
    /\ @resident linux_uapi evs = [] /\ open_fds evs = [].
Proof.
  do 3 eexists. split; [vm_compute; reflexivity|].
  destruct (@init_failure_leaves_nothing linux_uapi
              (example_kernel (fun _ off => off =? 134217728) 3 0)
              8 zero_ring zero_params 0 0 [] (-12) _ _ _
              eq_refl eq_refl eq_refl eq_refl) as (Hres & Hfd & _);
    [discriminate|].
  split; [exact Hres|exact Hfd].
Defined.

Lemma init_exit_round_trip_witness :
  exists ring' p' evs evs',
    @__io_uring_queue_init_params linux_uapi
      (example_kernel (fun _ _ => false) 3 0)
      8 zero_ring zero_params 0 0 [] = (0, ring', p', evs)
    /\ @io_uring_queue_exit linux_uapi
         (example_kernel (fun _ _ => false) 3 0) ring' evs = (tt, evs')
    /\ open_fds evs = [3]
    /\ @resident linux_uapi (evs ++ evs') = []
    /\ open_fds (evs ++ evs') = [].
Proof.
  do 4 eexists. split; [vm_compute; reflexivity|].
  split; [vm_compute; reflexivity|].
  match goal with
  | |- open_fds ?e = _ /\ _ =>
      destruct (@init_exit_round_trip linux_uapi
                  (example_kernel (fun _ _ => false) 3 0)
                  8 zero_ring zero_params 0 0 [] _ _ e e _
                  eq_refl eq_refl eq_refl linux_ptr_err_nonzero eq_refl
                  eq_refl eq_refl) as (Ho & Hres & Hfd & _)
  end.
  split; [exact Ho|]. split; [exact Hres|exact Hfd].
Defined.

Lemma init_exit_round_trip_huge_page_witness :
  exists r ring' p' evs evs',
    @__io_uring_queue_init_params linux_uapi
      (example_kernel (fun _ _ => false) 3 0)
      8 zero_ring (set_flags zero_params 16384) 0 0 [] = (r, ring', p', evs)
    /\ @io_uring_queue_exit linux_uapi
         (example_kernel (fun _ _ => false) 3 0) ring' evs = (tt, evs')
    /\ open_fds evs = [3]
    /\ @resident linux_uapi (evs ++ evs') = []
    /\ open_fds (evs ++ evs') = [].
Proof.
  do 5 eexists. split; [vm_compute; reflexivity|].
  split; [vm_compute; reflexivity|].
  match goal with
  | |- open_fds ?e = _ /\ resident (_ ++ ?e') = _ /\ _ =>
      destruct (@init_exit_round_trip_huge_page linux_uapi
                  (example_kernel (fun _ _ => false) 3 0)
                  8 zero_ring (set_flags zero_params 16384) [] _ _ _ e e e'
                  eq_refl eq_refl eq_refl) as (Ho & Hres & Hfd & _);
        [vm_compute; discriminate|reflexivity|reflexivity|]
  end.
  split; [exact Ho|]. split; [exact Hres|exact Hfd].
Defined.

Lemma init_publishes_addresses_witness :
  exists r ring' p' q e0,
    @__io_uring_queue_init_params linux_uapi
      (example_kernel (fun _ _ => false) 3 0)
      8 zero_ring (set_flags zero_params 16384) 6291456 2097152 []
    = (r, ring', p', [e0; Setup 8 q 3])
    /\ sqo_user_addr (sq_off q) = 6291456
    /\ sq_sqes (sq ring') = 6291456
    /\ cqo_user_addr (cq_off q) = sq_ring_ptr (sq ring').
Proof.
  do 5 eexists. split; [vm_compute; reflexivity|].
  destruct (@init_publishes_addresses linux_uapi
              (example_kernel (fun _ _ => false) 3 0)
              8 zero_ring (set_flags zero_params 16384) 6291456 2097152 []
              _ _ _ _ 8 _ 3
              eq_refl eq_refl linux_ptr_err_negative eq_refl eq_refl eq_refl
              (or_intror (or_introl eq_refl))) as (_ & _ & Hs & Hc & _ & Hb).
  assert (Hn : 6291456 <> 0) by discriminate.
  split; [exact (eq_trans Hs (Hb Hn))|].
  split; [exact (Hb Hn)|exact Hc].
Defined.

(** ** Fork advice *)

Ltac run_lib_in H :=
  cbv [lbind lret lift uring_madvise malloc free io_uring_register_probe
       load memset0 emit] in H.

Section ForkAdvice.
Context {U : Uapi} {P : ProbeAbi}.
Variable K : kernel.
Variable L : libc.

Lemma io_uring_ring_dontfork_cases ring h r evs :
  io_uring_ring_dontfork K L ring h = (r, evs) ->
  length evs = length (madvise_calls evs) /\
  ((sq_ring_ptr (sq ring) = 0 \/ sq_sqes (sq ring) = 0
    \/ cq_ring_ptr (cq ring) = 0) ->
   r = - EINVAL /\ evs = []) /\
  (sq_ring_ptr (sq ring) <> 0 -> sq_sqes (sq ring) <> 0 ->
   cq_ring_ptr (cq ring) <> 0 ->
   (r = 0 /\ madvise_calls evs = dontfork_regions K ring h
    /\ forallb (fun x => 0 <=? x) (madvise_results evs) = true)
   \/ (r < 0 /\ exists k pre,
         madvise_calls evs = firstn k (dontfork_regions K ring h)
         /\ madvise_results evs = pre ++ [r]
         /\ forallb (fun x => 0 <=? x) pre = true)).
Proof.
  intros H. unfold io_uring_ring_dontfork in H. unfold dontfork_regions.
  cbv zeta.
  destruct (sq_ring_ptr (sq ring) =? 0) eqn:E1;
    [|destruct (sq_sqes (sq ring) =? 0) eqn:E2;
      [|destruct (cq_ring_ptr (cq ring) =? 0) eqn:E3]];
    cbn [orb] in H.
  1-3: run_lib_in H; injection H as <- <-; bool_facts;
       (split; [reflexivity|]); (split; [auto|]); intros; contradiction.
  bool_facts. run_lib_in H. cbn [app map] in H.
  rewrite ?app_nil_r in H.
  split; [|split; [intros [?|[?|?]]; contradiction|intros _ _ _]].
  - repeat match type of H with
           | context [if ?b then _ else _] => destruct b
           end; injection H as <- <-; reflexivity.
  - destruct (cq_ring_ptr (cq ring) =? sq_ring_ptr (sq ring)) eqn:Ecq;
      cbn [negb] in H.
    all: repeat match type of H with
                | context [if ?x <? 0 then _ else _] =>
                    destruct (Z.ltb_spec x 0)
                end.
    all: injection H as <- <-.
    all: cbn [madvise_calls madvise_results app forallb].
    all: first
      [ left; split; [reflexivity|]; split; [reflexivity|];
        rewrite ?andb_true_r; repeat (apply andb_true_iff; split);
        apply Z.leb_le; assumption
      | right; split; [assumption|];
        match goal with
        | |- exists k pre, _ /\ [?x] = pre ++ _ /\ _ =>
            exists 1%nat, []
        | |- exists k pre, _ /\ [?x; ?y] = pre ++ _ /\ _ =>
            exists 2%nat, [x]
        | |- exists k pre, _ /\ [?x; ?y; ?z] = pre ++ _ /\ _ =>
            exists 3%nat, [x; y]
        end;
        split; [reflexivity|]; split; [reflexivity|];
        cbn [forallb]; rewrite ?andb_true_r;
        repeat (apply andb_true_iff; split);
        first [reflexivity | apply Z.leb_le; assumption] ].
Qed.

(** [X12]: [io_uring_ring_dontfork] refuses a handle with a null region pointer
    without calling anything. Otherwise it does nothing but advise, with
    [MADV_DONTFORK], the submission entries, the submission ring and a
    separate completion ring, in that order: it returns [0] when every
    region was advised, and stops at the first advice that fails,
    returning its error. *)
Theorem io_uring_ring_dontfork_calls ring h r evs :
  io_uring_ring_dontfork K L ring h = (r, evs) ->
  length evs = length (madvise_calls evs) /\
  ((sq_ring_ptr (sq ring) = 0 \/ sq_sqes (sq ring) = 0
    \/ cq_ring_ptr (cq ring) = 0) ->
   r = - EINVAL /\ evs = []) /\
  (sq_ring_ptr (sq ring) <> 0 -> sq_sqes (sq ring) <> 0 ->
   cq_ring_ptr (cq ring) <> 0 ->
   (r = 0 /\ madvise_calls evs = dontfork_regions K ring h
    /\ forallb (fun x => 0 <=? x) (madvise_results evs) = true)
   \/ (r < 0 /\ exists k pre,
         madvise_calls evs = firstn k (dontfork_regions K ring h)
         /\ madvise_results evs = pre ++ [r]
         /\ forallb (fun x => 0 <=? x) pre = true)).
Proof. apply io_uring_ring_dontfork_cases. Qed.

(** [X13]: after a successful mapping of the regions, a successful
    [io_uring_ring_dontfork] has advised exactly the regions that are
    mapped, each at the length it was mapped with. The shared entry
    count must read as the depth the kernel reported. *)
Theorem io_uring_ring_dontfork_covers_mappings
    fd p s c hs s' c' mevs ring h evs :
  io_uring_mmap K fd p s c hs = (0, s', c', mevs) ->
  all_mapped mevs = true ->
  mmap_contract mevs = true ->
  sq ring = s' -> cq ring = c' ->
  k_load K (sys_events h) (sq_kring_entries s') = sq_entries p ->
  io_uring_ring_dontfork K L ring h = (0, evs) ->
  length (madvise_calls evs) = length (resident mevs) /\
  forall a l adv,
    In (a, l, adv) (madvise_calls evs)
    <-> In (a, l) (resident mevs) /\ adv = MADV_DONTFORK.
Proof.
  intros Hm Hok Hc Hs Hcq Hload H.
  destruct (io_uring_mmap_ok_shape K _ _ _ _ _ _ _ _ _ Hm Hok)
    as (_ & Ea & Eq & Eb & Hsz & Hcsz & Hsingle & Hevs & _).
  cbv zeta in Hsz, Hcsz, Hsingle, Hevs.
  destruct (io_uring_ring_dontfork_cases _ _ _ _ H) as (_ & _ & Hcases).
  subst s' c'.
  set (a := sq_ring_ptr (sq ring)) in *.
  set (q := sq_sqes (sq ring)) in *.
  set (b := cq_ring_ptr (cq ring)) in *.
  unfold dontfork_regions in Hcases. cbv zeta in Hcases.
  rewrite Hload in Hcases. fold (sqes_size p) in Hcases.
  fold a q b in Hcases. rewrite Hsz, Hcsz in Hcases.
  unfold ring_mapping in Hevs.
  destruct (has_flag (features p) IORING_FEAT_SINGLE_MMAP) eqn:Hsm.
  - specialize (Hsingle eq_refl).
    rewrite Hevs in Hc |- *. cbn [app] in Hc |- *.
    unfold mmap_contract in Hc. crunch. bool_facts.
    assert (Ha0 : a <> 0) by (first [assumption | lia]).
    assert (Hq0 : q <> 0) by (first [assumption | lia]).
    assert (Hb0 : b <> 0) by (first [assumption | lia]).
    destruct (Hcases Ha0 Hq0 Hb0) as [(_ & -> & _)|(Hlt & _)]; [|lia].
    rewrite Hsingle, Z.eqb_refl. cbn [app length].
    split; [reflexivity|]. intros a0 l adv. cbn [In].
    split.
    + intros HIn. repeat destruct HIn as [E|HIn]; try contradiction;
        injection E as <- <- <-; auto.
    + intros [HIn ->]. repeat destruct HIn as [E|HIn]; try contradiction;
        injection E as <- <-; auto.
  - rewrite Hevs in Hc |- *. cbn [app] in Hc |- *.
    unfold mmap_contract in Hc. crunch. bool_facts.
    assert (Eba : (b =? a) = false) by (apply Z.eqb_neq; lia).
    assert (Ha0 : a <> 0) by (first [assumption | lia]).
    assert (Hq0 : q <> 0) by (first [assumption | lia]).
    assert (Hb0 : b <> 0) by (first [assumption | lia]).
    destruct (Hcases Ha0 Hq0 Hb0) as [(_ & -> & _)|(Hlt & _)]; [|lia].
    rewrite Eba. cbn [app length].
    split; [reflexivity|]. intros a0 l adv. cbn [In].
    split.
    + intros HIn. repeat destruct HIn as [E|HIn]; try contradiction;
        injection E as <- <- <-; auto.
    + intros [HIn ->]. repeat destruct HIn as [E|HIn]; try contradiction;
        injection E as <- <-; auto.
Qed.

End ForkAdvice.

(** ** Throwaway rings *)

Lemma resident_from_memset {U : Uapi} acc l1 a n l2 :
  resident_from acc (l1 ++ Memset a n :: l2) = resident_from acc (l1 ++ l2).
Proof. rewrite !resident_from_app. reflexivity. Qed.

Lemma open_fds_from_memset acc l1 a n l2 :
  open_fds_from acc (l1 ++ Memset a n :: l2) = open_fds_from acc (l1 ++ l2).
Proof. rewrite !open_fds_from_app. reflexivity. Qed.

Lemma sys_events_app l1 l2 :
  sys_events (l1 ++ l2) = sys_events l1 ++ sys_events l2.
Proof.
  induction l1 as [|e l1 IH]; [reflexivity|].
  destruct e; cbn [app sys_events]; rewrite IH; reflexivity.
Qed.

Lemma sys_events_lifted l : sys_events (map Sys l) = l.
Proof.
  induction l as [|e l IH]; [reflexivity|].
  cbn [map sys_events]. rewrite IH. reflexivity.
Qed.

Lemma heap_live_from_app acc l1 l2 :
  heap_live_from acc (l1 ++ l2) = heap_live_from (heap_live_from acc l1) l2.
Proof.
  revert acc. induction l1 as [|e l1 IH]; intros acc; [reflexivity|].
  destruct e; cbn [app heap_live_from]; apply IH.
Qed.

Lemma heap_live_from_lifted acc l : heap_live_from acc (map Sys l) = acc.
Proof.
  induction l as [|e l IH]; [reflexivity|].
  cbn [map heap_live_from]. exact IH.
Qed.

Section Throwaway.
Context {U : Uapi}.
Variable K : kernel.

(** A set-up on kernel mappings returns [0] or an error. *)
Lemma init_kernel_mapped_sign
    entries ring p buf buf_size h r ring' p' evs :
  has_flag (flags p) IORING_SETUP_NO_MMAP = false ->
  __io_uring_queue_init_params K entries ring p buf buf_size h
  = (r, ring', p', evs) ->
  has_flag (flags p') IORING_SETUP_NO_MMAP = false ->
  (forall x, IS_ERR x = true -> PTR_ERR x < 0) ->
  r <= 0.
Proof.
  intros Hf H Hf' Hperr.
  destruct (init_kernel_mapped_cases K _ _ _ _ _ _ _ _ _ _ Hf H Hf')
    as (fd & Hk & [(Hfd & -> & _)|(Hfd & hh & r3 & s3 & c3 & e3 & Hm & -> & _)]);
    [lia|].
  destruct (io_uring_mmap_outcome K _ _ _ _ _ _ _ _ _ Hm) as [_ [Hok|(x & Hx & ->)]].
  - destruct (io_uring_mmap_ok_shape K _ _ _ _ _ _ _ _ _ Hm Hok) as [-> _].
    lia.
  - specialize (Hperr x Hx). lia.
Qed.

Lemma io_uring_queue_init_params_inner entries ring p h r ring' p' evs :
  io_uring_queue_init_params K entries ring p h = (r, ring', p', evs) ->
  exists r0,
    __io_uring_queue_init_params K entries ring p 0 0 h = (r0, ring', p', evs)
    /\ r = (if 0 <=? r0 then 0 else r0).
Proof.
  intros H. unfold io_uring_queue_init_params in H.
  unfold bind at 1 in H.
  destruct (__io_uring_queue_init_params K entries ring p 0 0 h)
    as [[[r0 ring0] p0] e0].
  cbv [ret] in H. rewrite app_nil_r in H. injection H as <- <- <- <-.
  exists r0. auto.
Qed.

(** What a throwaway ring on kernel mappings leaves behind: nothing when
    its creation fails, and nothing once it was torn down, whatever was
    zeroed in between. *)
Lemma throwaway_ring entries ring p h r ring' p' e1 :
  has_flag (flags p) IORING_SETUP_NO_MMAP = false ->
  io_uring_queue_init_params K entries ring p h = (r, ring', p', e1) ->
  has_flag (flags p') IORING_SETUP_NO_MMAP = false ->
  (forall x, IS_ERR x = true -> PTR_ERR x < 0) ->
  mmap_contract e1 = true ->
  (r < 0 /\ resident e1 = [] /\ open_fds e1 = [] /\
   (setup_failed e1 = true -> e1 = [Setup entries p r])) \/
  (r = 0 /\ setup_failed e1 = false /\
   forall h2 e2,
     k_load K h2 (sq_kring_entries (sq ring')) = sq_entries p' ->
     io_uring_queue_exit K ring' h2 = (tt, e2) ->
     setup_failed e2 = false /\
     resident (e1 ++ e2) = [] /\ open_fds (e1 ++ e2) = []).
Proof.
  intros Hf H Hf' Hperr Hc.
  apply io_uring_queue_init_params_inner in H. destruct H as (r0 & H & ->).
  pose proof (init_kernel_mapped_sign _ _ _ _ _ _ _ _ _ _ Hf H Hf' Hperr) as Hs.
  destruct (Z.eq_dec r0 0) as [->|Hnz].
  - right. split; [reflexivity|].
    assert (Hperr' : forall x, IS_ERR x = true -> PTR_ERR x <> 0).
    { intros x Hx. specialize (Hperr x Hx). lia. }
    split.
    + destruct (init_kernel_mapped_cases K _ _ _ _ _ _ _ _ _ _ Hf H Hf')
        as (fd & Hk & [(Hfd & Hr & _)|(Hfd & hh & r3 & s3 & c3 & e3 & Hm & <- & Hcase)]);
        [lia|].
      destruct Hcase as [[Hr3 _]|(_ & -> & _)]; [contradiction|].
      destruct (io_uring_mmap_outcome K _ _ _ _ _ _ _ _ _ Hm) as [Hkind _].
      unfold setup_failed. cbn [existsb].
      destruct (Z.ltb_spec fd 0); [lia|]. cbn [orb].
      apply not_true_is_false. intros Hex.
      apply existsb_exists in Hex. destruct Hex as (e & Hin & He).
      rewrite forallb_forall in Hkind. specialize (Hkind e Hin).
      destruct e; discriminate.
    + intros h2 e2 Hload Hexit.
      destruct (init_exit_releases K _ _ _ _ _ _ _ _ _ _ _ Hf H Hf' Hperr' Hc
                  Hload Hexit) as (_ & Hres & Hfd & l & -> & Hl).
      split; [|auto].
      unfold setup_failed. rewrite existsb_app. cbn [existsb orb].
      rewrite orb_false_r.
      apply not_true_is_false. intros Hex.
      apply existsb_exists in Hex. destruct Hex as (e & Hin & He).
      rewrite forallb_forall in Hl. specialize (Hl e Hin).
      destruct e; discriminate.
  - left. destruct (Z.leb_spec 0 r0); [lia|]. split; [lia|].
    apply (init_failure_releases K _ _ _ _ _ _ _ _ _ _ Hf H Hf' Hc Hnz).
Qed.

(** [X14]: the estimate of locked memory leaves nothing behind: the throwaway
    ring it creates is torn down again, so that on every path no mapping
    made by the call is resident and no descriptor it opened is open.
    A failed mapping must have a negative error code, the kernel must not
    switch the ring to caller-provided memory, and every read of memory
    shared with the kernel (the code reads the entry count only) must
    return the depth the kernel reported. *)
Theorem io_uring_mlock_size_params_releases entries p h r evs :
  (forall x, IS_ERR x = true -> PTR_ERR x < 0) ->
  has_flag (flags (snd (k_setup K h entries zero_params)))
    IORING_SETUP_NO_MMAP = false ->
  (forall hh a,
     k_load K hh a = sq_entries (snd (k_setup K h entries zero_params))) ->
  io_uring_mlock_size_params K entries p h = (r, evs) ->
  mmap_contract evs = true ->
  resident evs = [] /\ open_fds evs = [].
Proof.
  intros Hperr Hfl Hload H Hc.
  unfold io_uring_mlock_size_params in H. cbv zeta in H.
  unfold bind at 1 in H.
  destruct (io_uring_queue_init_params K entries zero_ring zero_params h)
    as [[[r0 ring0] lp0] e0] eqn:Hprobe.
  pose proof (probe_params K _ _ _ _ _ _ _ Hprobe) as Hlp.
  unfold bind at 1 in H.
  destruct ((if r0 =? 0 then io_uring_queue_exit K ring0 else ret tt) (h ++ e0))
    as [[] e1] eqn:Hexit.
  assert (Hev : evs = e0 ++ e1).
  { destruct (get_sq_cq_entries
                (if KERN_MAX_ENTRIES <? entries then KERN_MAX_ENTRIES
                 else entries) p 0 0) as [[[cret pp] sqn] cqn].
    cbv [ret] in H.
    repeat match type of H with
           | context [if ?b then _ else _] => destruct b
           end; injection H as _ <-; rewrite app_nil_r; reflexivity. }
  subst evs.
  assert (Hc0 : mmap_contract e0 = true).
  { unfold mmap_contract in Hc. rewrite mmap_contract_from_app in Hc.
    apply andb_true_iff in Hc. apply Hc. }
  assert (Hf0 : has_flag (flags lp0) IORING_SETUP_NO_MMAP = false)
    by (rewrite Hlp; exact Hfl).
  destruct (throwaway_ring entries zero_ring zero_params h _ _ _ _
              (has_flag_zero _) Hprobe Hf0 Hperr Hc0)
    as [(Hneg & Hres & Hfd & _)|(-> & _ & Hrt)].
  - destruct (Z.eqb_spec r0 0); [lia|]. cbv [ret] in Hexit.
    injection Hexit as <-. rewrite app_nil_r. auto.
  - cbn [Z.eqb] in Hexit.
    destruct (Hrt _ _ ltac:(rewrite Hlp; apply Hload) Hexit) as (_ & ? & ?).
    auto.
Qed.

End Throwaway.

Section Probe.
Context {U : Uapi} {P : ProbeAbi}.
Variable K : kernel.
Variable L : libc.

Lemma io_uring_get_probe_ring_cases ring h r evs :
  io_uring_get_probe_ring L ring h = (r, evs) ->
  let len := u64 (sizeof_io_uring_probe + 256 * sizeof_io_uring_probe_op) in
  (r <> 0 /\ exists res,
     0 <= res /\
     evs = [Malloc len r; Sys (Memset r len);
            RegisterProbe (ring_fd ring) r 256 res]) \/
  (r = 0 /\
   (evs = [Malloc len 0] \/
    exists pr res,
      pr <> 0 /\ res < 0 /\
      evs = [Malloc len pr; Sys (Memset pr len);
             RegisterProbe (ring_fd ring) pr 256 res; Free pr])).
Proof.
  intros H len. unfold io_uring_get_probe_ring in H. cbv zeta in H.
  fold len in H. run_lib_in H. cbn [app map] in H.
  match type of H with
  | context [l_malloc L ?hh ?n] =>
      set (pr := l_malloc L hh n) in H; clearbody pr
  end.
  destruct (Z.eqb_spec pr 0) as [Hpr|Hpr]; cbv beta iota in H.
  { injection H as <- <-. right. split; [reflexivity|]. left.
    rewrite Hpr. reflexivity. }
  match type of H with
  | context [l_register_probe L ?hh ?rg ?a ?n] =>
      set (res := l_register_probe L hh rg a n) in H; clearbody res
  end.
  destruct (Z.leb_spec 0 res) as [Hres|Hres]; cbv beta iota in H;
    injection H as <- <-.
  - left. split; [exact Hpr|]. exists res. split; [exact Hres|reflexivity].
  - right. split; [reflexivity|]. right. exists pr, res. auto.
Qed.

(** [X15]: [io_uring_get_probe_ring] never leaks its buffer: the pointer it
    returns is the only block it leaves allocated, zeroed before it was
    registered for 256 operations, and when it returns [NULL] either the
    allocation failed and nothing else was called, or registration failed
    and the block was freed. Releasing the result with
    [io_uring_free_probe] leaves nothing allocated. *)
Theorem io_uring_get_probe_ring_no_leak ring h r evs :
  io_uring_get_probe_ring L ring h = (r, evs) ->
  let len := u64 (sizeof_io_uring_probe + 256 * sizeof_io_uring_probe_op) in
  heap_live evs = (if r =? 0 then [] else [r]) /\
  (forall h2, heap_live (evs ++ snd (io_uring_free_probe r h2)) = []) /\
  (r <> 0 -> exists res,
     0 <= res /\
     evs = [Malloc len r; Sys (Memset r len);
            RegisterProbe (ring_fd ring) r 256 res]) /\
  (r = 0 ->
   evs = [Malloc len 0] \/
   exists pr res,
     pr <> 0 /\ res < 0 /\
     evs = [Malloc len pr; Sys (Memset pr len);
            RegisterProbe (ring_fd ring) pr 256 res; Free pr]).
Proof.
  intros H len.
  destruct (io_uring_get_probe_ring_cases _ _ _ _ H)
    as [(Hr & res & Hres & ->)|(-> & [->|(pr & res & Hpr & Hres & ->)])];
    fold len; unfold heap_live, io_uring_free_probe, free;
    cbn [heap_live_from app snd filter Z.eqb].
  - destruct (Z.eqb_spec r 0); [contradiction|].
    cbn [filter]. rewrite Z.eqb_refl. cbn [negb].
    split; [reflexivity|]. split; [reflexivity|].
    split; [intros _; exists res; auto|contradiction].
  - split; [reflexivity|]. split; [reflexivity|].
    split; [intros Hn; contradiction Hn; reflexivity|auto].
  - destruct (Z.eqb_spec pr 0); [contradiction|].
    cbn [filter]. rewrite Z.eqb_refl. cbn [negb filter].
    split; [reflexivity|]. split; [reflexivity|].
    split; [intros Hn; contradiction Hn; reflexivity|].
    intros _. right. exists pr, res. auto.
Qed.

(** [X16]: [io_uring_get_probe] never leaks its ring: on every path the ring it
    created is torn down, so that no mapping of the call is resident and
    no descriptor is open, and the probe it returns is the only block
    left allocated; when ring creation fails nothing else is called. The
    assumptions on the system are those of the estimate of locked
    memory. *)
Theorem io_uring_get_probe_releases h r evs :
  (forall x, IS_ERR x = true -> PTR_ERR x < 0) ->
  has_flag (flags (snd (k_setup K (sys_events h) 2 zero_params)))
    IORING_SETUP_NO_MMAP = false ->
  (forall hh a,
     k_load K hh a
     = sq_entries (snd (k_setup K (sys_events h) 2 zero_params))) ->
  io_uring_get_probe K L h = (r, evs) ->
  mmap_contract (sys_events evs) = true ->
  resident (sys_events evs) = [] /\ open_fds (sys_events evs) = [] /\
  heap_live evs = (if r =? 0 then [] else [r]) /\
  (setup_failed (sys_events evs) = true ->
   r = 0 /\ exists res, evs = [Sys (Setup 2 zero_params res)]).
Proof.
  intros Hperr Hfl Hload H Hc.
  unfold io_uring_get_probe in H. unfold lbind at 1 in H.
  unfold lift at 1 in H. unfold io_uring_queue_init in H.
  unfold bind at 1 in H.
  change (set_flags zero_params 0) with zero_params in H.
  destruct (io_uring_queue_init_params K 2 zero_ring zero_params (sys_events h))
    as [[[r0 ring0] lp0] e0] eqn:Hprobe.
  pose proof (probe_params K _ _ _ _ _ _ _ Hprobe) as Hlp.
  cbv [ret] in H. rewrite app_nil_r in H.
  assert (Hf0 : has_flag (flags lp0) IORING_SETUP_NO_MMAP = false)
    by (rewrite Hlp; exact Hfl).
  destruct (Z.ltb_spec r0 0) as [Hneg|Hpos].
  - cbv [lret] in H. rewrite app_nil_r in H. injection H as <- <-.
    rewrite sys_events_lifted in Hc |- *.
    destruct (throwaway_ring K 2 zero_ring zero_params (sys_events h) _ _ _ _
                (has_flag_zero _) Hprobe Hf0
                Hperr Hc) as [(_ & Hres & Hfd & Hs)|(-> & _)]; [|lia].
    split; [exact Hres|]. split; [exact Hfd|].
    split; [apply heap_live_from_lifted|].
    intros Hsf. split; [reflexivity|]. exists r0.
    rewrite (Hs Hsf). reflexivity.
  - unfold lbind at 1 in H.
    destruct (io_uring_get_probe_ring L ring0 (h ++ map Sys e0))
      as [pr e1] eqn:Hring.
    unfold lbind at 1 in H. unfold lift at 1 in H.
    match type of H with
    | context [io_uring_queue_exit K ring0 ?hh] =>
        destruct (io_uring_queue_exit K ring0 hh) as [[] e2] eqn:Hexit
    end.
    cbv [lret] in H. rewrite app_nil_r in H. injection H as <- <-.
    rewrite !sys_events_app, !sys_events_lifted in Hc |- *.
    assert (Hc0 : mmap_contract e0 = true).
    { unfold mmap_contract in Hc. rewrite mmap_contract_from_app in Hc.
      apply andb_true_iff in Hc. apply Hc. }
    destruct (throwaway_ring K 2 zero_ring zero_params (sys_events h) _ _ _ _
                (has_flag_zero _) Hprobe Hf0
                Hperr Hc0) as [(Hlt & _)|(_ & Hs0 & Hrt)]; [lia|].
    destruct (Hrt _ _ ltac:(rewrite Hlp; apply Hload) Hexit)
      as (Hs2 & Hres & Hfd).
    pose proof (io_uring_get_probe_ring_cases _ _ _ _ Hring) as Hcases.
    cbv zeta in Hcases.
    assert (Hheap : heap_live (e1 ++ map Sys e2)
                    = (if pr =? 0 then [] else [pr])
            /\ (sys_events e1 = [] \/ exists a n, sys_events e1 = [Memset a n])).
    { unfold heap_live. rewrite heap_live_from_app, heap_live_from_lifted.
      destruct Hcases
        as [(Hr & res & Hres' & ->)|(-> & [->|(pr' & res & Hpr & Hres' & ->)])];
        cbn [heap_live_from sys_events filter app].
      - destruct (Z.eqb_spec pr 0); [contradiction|]. eauto.
      - auto.
      - destruct (Z.eqb_spec pr' 0); [contradiction|].
        cbn [filter app]. rewrite Z.eqb_refl. cbn [negb]. eauto. }
    destruct Hheap as [Hheap Hsys].
    assert (Hsame : resident (e0 ++ sys_events e1 ++ e2) = []
                    /\ open_fds (e0 ++ sys_events e1 ++ e2) = []
                    /\ setup_failed (e0 ++ sys_events e1 ++ e2) = false).
    { destruct Hsys as [->|(a & n & ->)]; cbn [app].
      - split; [exact Hres|]. split; [exact Hfd|].
        unfold setup_failed in *. rewrite existsb_app, Hs0, Hs2. reflexivity.
      - unfold resident, open_fds.
        rewrite resident_from_memset, open_fds_from_memset.
        split; [exact Hres|]. split; [exact Hfd|].
        unfold setup_failed in *. rewrite existsb_app. cbn [existsb orb].
        rewrite Hs0, Hs2. reflexivity. }
    destruct Hsame as (Hres' & Hfd' & Hsf').
    split; [exact Hres'|]. split; [exact Hfd'|].
    split.
    + unfold heap_live. rewrite heap_live_from_app, heap_live_from_lifted.
      fold (heap_live (e1 ++ map Sys e2)). exact Hheap.
    + intros Hsf. rewrite Hsf' in Hsf. discriminate Hsf.
Qed.

End Probe.

(** ** Examples of advice, estimate and probe *)

Lemma io_uring_ring_dontfork_calls_witness :
  exists evs,
    @io_uring_ring_dontfork linux_uapi linux_probe_abi
      (example_kernel (fun _ _ => false) 3 0) (example_libc 0 0)
      (example_ring 0) [] = (0, evs)
    /\ madvise_calls evs
       = [(6291456, 512, 10); (2097152, 160, 10); (4194304, 320, 10)].
Proof.
  eexists. split; [vm_compute; reflexivity|].
  destruct (@io_uring_ring_dontfork_calls linux_uapi linux_probe_abi
              (example_kernel (fun _ _ => false) 3 0) (example_libc 0 0)
              (example_ring 0) [] 0 _ eq_refl) as (_ & _ & Hcalls).
  destruct Hcalls as [(_ & Hc & _)|(Hlt & _)];
    [discriminate|discriminate|discriminate|exact Hc|discriminate Hlt].
Defined.

Lemma io_uring_ring_dontfork_covers_mappings_witness :
  exists s' c' mevs evs,
    @io_uring_mmap linux_uapi (example_kernel (fun _ _ => false) 3 1) 3
      (filled_params 8 zero_params 1) zero_sq zero_cq [] = (0, s', c', mevs)
    /\ @io_uring_ring_dontfork linux_uapi linux_probe_abi
         (example_kernel (fun _ _ => false) 3 1) (example_libc 0 0)
         (example_ring 1) [] = (0, evs)
    /\ length (madvise_calls evs) = 2%nat
    /\ In (2097152, 320, 10) (madvise_calls evs).
Proof.
  do 4 eexists. split; [vm_compute; reflexivity|].
  split; [vm_compute; reflexivity|].
  destruct (@io_uring_ring_dontfork_covers_mappings linux_uapi linux_probe_abi
              (example_kernel (fun _ _ => false) 3 1) (example_libc 0 0)
              3 (filled_params 8 zero_params 1) zero_sq zero_cq [] _ _ _
              (example_ring 1) [] _
              eq_refl eq_refl eq_refl eq_refl eq_refl eq_refl eq_refl)
    as [Hlen Hin].
  split; [exact Hlen|].
  apply (Hin 2097152 320 10). split; [left; reflexivity|reflexivity].
Defined.

Lemma io_uring_mlock_size_params_releases_witness :
  exists r evs,
    @io_uring_mlock_size_params linux_uapi
      (example_kernel (fun _ _ => false) 3 0) 8 zero_params [] = (r, evs)
    /\ length evs = 8%nat
    /\ @resident linux_uapi evs = [] /\ open_fds evs = [].
Proof.
  do 2 eexists. split; [vm_compute; reflexivity|].
  split; [reflexivity|].
  apply (@io_uring_mlock_size_params_releases linux_uapi
           (example_kernel (fun _ _ => false) 3 0) 8 zero_params [] _ _
           linux_ptr_err_negative eq_refl (fun _ _ => eq_refl) eq_refl
           eq_refl).
Defined.

Lemma io_uring_get_probe_ring_no_leak_witness :
  exists evs,
    @io_uring_get_probe_ring linux_probe_abi (example_libc 0 0)
      (example_ring 0) [] = (4096, evs)
    /\ heap_live evs = [4096]
    /\ heap_live (evs ++ [Free 4096]) = [].
Proof.
  eexists. split; [vm_compute; reflexivity|].
  destruct (@io_uring_get_probe_ring_no_leak linux_probe_abi
              (example_libc 0 0) (example_ring 0) [] 4096 _ eq_refl)
    as (Hlive & Hfree & _).
  split; [exact Hlive|exact (Hfree [])].
Defined.

Lemma io_uring_get_probe_releases_witness :
  exists r evs,
    @io_uring_get_probe linux_uapi linux_probe_abi
      (example_kernel_depth 2) (example_libc 0 0) []
    = (r, evs)
    /\ r <> 0
    /\ @resident linux_uapi (sys_events evs) = []
    /\ open_fds (sys_events evs) = []
    /\ heap_live evs = [r].
Proof.
  do 2 eexists. split; [vm_compute; reflexivity|].
  split; [discriminate|].
  destruct (@io_uring_get_probe_releases linux_uapi linux_probe_abi
              (example_kernel_depth 2) (example_libc 0 0)
              [] _ _
              linux_ptr_err_negative eq_refl (fun _ _ => eq_refl) eq_refl
              eq_refl) as (Hres & Hfd & Hheap & _).
  split; [exact Hres|]. split; [exact Hfd|exact Hheap].
Defined.

(** ** Failure on self-allocated memory *)

Section OwnMemoryFailure.
Context {U : Uapi}.
Variable K : kernel.

(** The allocator without a caller's buffer, when one of its mappings
    fails: it returns the error and leaves nothing resident. *)
Lemma io_uring_alloc_huge_own_failed
    entries p s c buf_size h r p' s' c' evs :
  io_uring_alloc_huge K entries p s c 0 buf_size h = (r, p', s', c', evs) ->
  (forall x, IS_ERR x = true -> PTR_ERR x < 0) ->
  all_mapped evs = false ->
  r < 0 /\ resident evs = [].
Proof.
  intros H Hperr Hbad. unfold io_uring_alloc_huge in H.
  destruct (get_sq_cq_entries entries p 0 0) as [[[r0 p0] sq_n] cq_n] eqn:Hn.
  cbv zeta in H. cbn [Z.eqb negb andb] in H.
  run_sys_in H. split_tests H.
  all: injection H as <- <- <- <- <-.
  all: unfold all_mapped in Hbad; cbn [mmap_results app forallb] in Hbad.
  all: repeat match goal with
              | E : IS_ERR ?x = _ |- _ => rewrite E in Hbad
              end;
       try discriminate Hbad.
  all: split;
    [match goal with
     | E : IS_ERR ?x = true |- _ => exact (Hperr x E)
     end|].
  all: crunch; unfold region_eqb; cbn [fst snd];
    rewrite ?Z.eqb_refl; reflexivity.
Qed.

(** [X11]: a set-up on self-allocated memory in which ring creation or a mapping
    fails returns the error and leaves nothing behind: what the allocator
    mapped is unmapped again and no descriptor is open. *)
Theorem init_failure_leaves_nothing_huge_page
    entries ring p h r ring' p' evs :
  has_flag (flags p) IORING_SETUP_NO_MMAP = true ->
  __io_uring_queue_init_params K entries ring p 0 0 h = (r, ring', p', evs) ->
  has_flag (flags p') IORING_SETUP_NO_MMAP = true ->
  (forall x, IS_ERR x = true -> PTR_ERR x < 0) ->
  setup_failed evs = true \/ all_mapped evs = false ->
  r < 0 /\ resident evs = [] /\ open_fds evs = [].
Proof.
  intros Hf H Hf' Hperr Hbad.
  destruct (init_no_mmap_cases K _ _ _ _ _ _ _ _ _ _ Hf H Hf')
    as (r1 & p1 & s1 & c1 & e1 & Ha & _ & _ & _ & _ & _ & Hcase).
  destruct (io_uring_alloc_huge_publishes K _ _ _ _ _ _ _ _ _ _ _ _ Ha)
    as [Hkind _].
  destruct (io_uring_alloc_huge_own K _ _ _ _ _ _ _ _ _ _ [] Ha) as [Hsf Hown].
  assert (Hbadmap : all_mapped e1 = false -> r1 < 0 /\ resident e1 = [])
    by (apply (io_uring_alloc_huge_own_failed _ _ _ _ _ _ _ _ _ _ _ Ha Hperr)).
  destruct Hcase
    as [(Hneg & -> & ->)
       |(Hpos & fd & Hk & [(Hfd & -> & ->)|(Hfd & -> & Efd & ->)])].
  - destruct Hbad as [Hbad|Hbad]; [congruence|].
    destruct (Hbadmap Hbad) as [_ Hres].
    split; [exact Hneg|]. split; [exact Hres|].
    apply (open_fds_from_untouched [] e1 Hkind).
  - split; [exact Hfd|]. split.
    + unfold resident. rewrite resident_from_skip by reflexivity. exact Hown.
    + unfold open_fds. rewrite open_fds_from_app.
      rewrite (open_fds_from_untouched [] e1 Hkind).
      cbn [open_fds_from]. destruct (Z.ltb_spec fd 0); [|lia].
      apply open_fds_from_maps.
      cbn [forallb is_mmap is_munmap orb andb].
      rewrite io_uring_unmap_rings_events.
      destruct (negb (sq_ring_sz s1 =? 0));
        destruct (negb (cq_ring_ptr c1 =? 0) && negb (cq_ring_sz c1 =? 0)
                  && negb (cq_ring_ptr c1 =? sq_ring_ptr s1));
        reflexivity.
  - exfalso. destruct Hbad as [Hbad|Hbad].
    + unfold setup_failed in Hbad, Hsf. rewrite existsb_app, Hsf in Hbad.
      cbn [existsb orb] in Hbad. destruct (Z.ltb_spec fd 0); [lia|].
      discriminate Hbad.
    + assert (Hb1 : all_mapped e1 = false).
      { unfold all_mapped in *.
        assert (Em : mmap_results (e1 ++ [Setup entries p1 fd])
                     = mmap_results e1).
        { clear. induction e1 as [|e l IH]; [reflexivity|].
          destruct e; cbn [app mmap_results]; rewrite ?IH; reflexivity. }
        rewrite Em in Hbad. exact Hbad. }
      destruct (Hbadmap Hb1). lia.
Qed.

End OwnMemoryFailure.

Lemma init_failure_leaves_nothing_huge_page_witness :
  exists r ring' p' evs,
    @__io_uring_queue_init_params linux_uapi
      (example_kernel (fun _ _ => false) (-12) 0)
      8 zero_ring (set_flags zero_params 16384) 0 0 [] = (r, ring', p', evs)
    /\ length evs = 4%nat
    /\ r = -12 /\ @resident linux_uapi evs = [] /\ open_fds evs = [].
Proof.
  do 4 eexists. split; [vm_compute; reflexivity|].
  split; [reflexivity|]. split; [reflexivity|].
  apply (@init_failure_leaves_nothing_huge_page linux_uapi
           (example_kernel (fun _ _ => false) (-12) 0)
           8 zero_ring (set_flags zero_params 16384) [] _ _ _ _
           eq_refl eq_refl eq_refl linux_ptr_err_negative
           (or_introl eq_refl)).
Defined.
